(** * Timetabling with CP-SAT: the three scripts and their constraint models

    A shallow embedding of [basic_timetable.py], [basic_timetable2.py] and
    [basic_timetable3.py].  Each script declares its data, builds a
    [CpModel] (boolean variables stored in a dictionary keyed by index
    tuples, then linear constraints added in nested loops), hands the model
    to the solver and prints a timetable when the solver reports a solution.

    The solver itself ([CpSolver.Solve]) and the random number generator
    ([random.randint]) are library code: the first is an argument of each
    script here, the second reduces a raw draw into the requested interval. *)

From stdpp Require Import gmap strings list pretty.
From Stdlib Require Import ZArith Lia.

Local Open Scope Z_scope.
Local Open Scope nat_scope.
Local Open Scope string_scope.
Local Open Scope list_scope.

(** ** Python runtime: exceptions, loops, containers, string formatting *)

Module Py.

Inductive exn := KeyError | IndexError | ValueError.

Inductive result (A : Type) :=
| Ok (a : A)
| Raise (e : exn).
Arguments Ok {A} a.
Arguments Raise {A} e.

#[global] Instance result_ret : MRet result := @Ok.
#[global] Instance result_bind : MBind result := λ A B f r,
  match r with Ok a => f a | Raise e => Raise e end.

(** [for a in l: body] over a state [S]; an exception leaves the loop. *)
Fixpoint for_ {A S : Type} (l : list A) (body : A → S → result S) (s : S)
  : result S :=
  match l with
  | [] => Ok s
  | a :: l' => s' ← body a s; for_ l' body s'
  end.

(** A generator expression whose items may raise, consumed left to right. *)
Fixpoint gen {A B : Type} (f : A → result (list B)) (l : list A)
  : result (list B) :=
  match l with
  | [] => Ok []
  | a :: l' => bs ← f a; rest ← gen f l'; Ok (bs ++ rest)
  end.

(** A [for] loop whose body may [break]: the body returns [true] to
    leave the loop. *)
Fixpoint for_break {A S : Type} (l : list A)
    (body : A → S → result (bool * S)) (s : S) : result S :=
  match l with
  | [] => Ok s
  | a :: l' =>
      match body a s with
      | Ok (true, s') => Ok s'
      | Ok (false, s') => for_break l' body s'
      | Raise e => Raise e
      end
  end.

(** [range(n)] *)
Definition range (n : nat) : list nat := seq 0 n.

(** [d[k]] on a dict *)
Definition getitem `{Countable K} {V : Type} (d : gmap K V) (k : K)
  : result V :=
  match d !! k with
  | Some v => Ok v
  | None => Raise KeyError
  end.

(** [l[i]] on a list, [i] an index produced by [range] *)
Definition index {V : Type} (l : list V) (i : nat) : result V :=
  match l !! i with
  | Some v => Ok v
  | None => Raise IndexError
  end.

(** [l[i]] on a list, [i] any integer: a negative index counts from the
    end. *)
Definition index_int {V : Type} (l : list V) (i : Z) : result V :=
  if (0 <=? i)%Z then index l (Z.to_nat i)
  else if (- Z.of_nat (length l) <=? i)%Z
       then index l (Z.to_nat (Z.of_nat (length l) + i))
       else Raise IndexError.

(** [random.randint(a, b)]: an integer N with a <= N <= b, [ValueError]
    on an empty interval.  [raw] is the generator's raw draw. *)
Definition randint (a b : Z) (raw : nat) : result Z :=
  if (b <? a)%Z then Raise ValueError
  else Ok (a + Z.of_nat raw `mod` (b - a + 1))%Z.

(** [f"{s:<w}"] *)
Definition ljust (w : nat) (s : string) : string :=
  s +:+ String.concat "" (replicate (w - String.length s) " ").

(** [sep.join(l)] *)
Definition join (sep : string) (l : list string) : string :=
  String.concat sep l.

(** The newline character inside a string literal. *)
Definition nl : string := String (Ascii.ascii_of_nat 10) EmptyString.

End Py.
Import Py.

(** ** The [cp_model] interface used by the scripts *)

Module cp_model.

(** Linear expressions as the overloaded operators build them. *)
Inductive LinearExpr :=
| Const (k : Z)
| Var (v : nat)
| Plus (a b : LinearExpr)
| Times (k : Z) (e : LinearExpr).

(** Python's [sum(items)]: [0 + i1 + i2 + ...]. *)
Definition sum (items : list LinearExpr) : LinearExpr :=
  foldl Plus (Const 0) items.

(** [lhs == rhs] and [lhs <= rhs] *)
Inductive BoundedLinearExpression :=
| EqC (lhs rhs : LinearExpr)
| LeC (lhs rhs : LinearExpr).

Record IntVarProto := { var_name : string; var_lb : Z; var_ub : Z }.

Record CpModel := {
  variables : list IntVarProto;
  constraints : list BoundedLinearExpression;
  objective : option LinearExpr
}.

(** [cp_model.CpModel()] *)
Definition new_model : CpModel :=
  {| variables := []; constraints := []; objective := None |}.

(** [model.NewBoolVar(name)]: a fresh 0/1 variable, identified by its
    index in the model. *)
Definition NewBoolVar (name : string) (m : CpModel) : nat * CpModel :=
  (length (variables m),
   {| variables := variables m ++ [{| var_name := name; var_lb := 0; var_ub := 1 |}];
      constraints := constraints m;
      objective := objective m |}).

(** [model.Add(ct)] *)
Definition Add (ct : BoundedLinearExpression) (m : CpModel) : CpModel :=
  {| variables := variables m;
     constraints := constraints m ++ [ct];
     objective := objective m |}.

(** [model.Minimize(e)] *)
Definition Minimize (e : LinearExpr) (m : CpModel) : CpModel :=
  {| variables := variables m;
     constraints := constraints m;
     objective := Some e |}.

Inductive CpSolverStatus :=
| UNKNOWN | MODEL_INVALID | FEASIBLE | INFEASIBLE | OPTIMAL.

#[global] Instance status_eq_dec : EqDecision CpSolverStatus.
Proof. solve_decision. Defined.

(** What [solver.Solve(model)] leaves in the solver: a status, and the
    value [solver.Value(v)] reports for each variable. *)
Record CpSolverResponse := {
  status : CpSolverStatus;
  solution : nat → Z
}.

(** *** Meaning of a model *)

Fixpoint eval (a : nat → Z) (e : LinearExpr) : Z :=
  match e with
  | Const k => k
  | Var v => a v
  | Plus e1 e2 => (eval a e1 + eval a e2)%Z
  | Times k e1 => (k * eval a e1)%Z
  end.

Definition holds (a : nat → Z) (ct : BoundedLinearExpression) : bool :=
  match ct with
  | EqC l r => (eval a l =? eval a r)%Z
  | LeC l r => (eval a l <=? eval a r)%Z
  end.

Definition in_domain (a : nat → Z) (iv : nat * IntVarProto) : bool :=
  ((var_lb iv.2 <=? a iv.1) && (a iv.1 <=? var_ub iv.2))%Z.

(** [a] gives every variable a value of its domain and satisfies every
    constraint: what the solver returns under OPTIMAL and FEASIBLE. *)
Definition feasible (m : CpModel) (a : nat → Z) : bool :=
  forallb (in_domain a) (imap pair (variables m))
  && forallb (holds a) (constraints m).

End cp_model.
Import cp_model.

(** ** What a script does to the outside world *)

Record world := {
  stdout : list string;          (* one entry per [print] call *)
  solve_calls : list CpModel;    (* models handed to [solver.Solve] *)
  value_reads : list nat         (* variables queried with [solver.Value] *)
}.

Definition boot : world :=
  {| stdout := []; solve_calls := []; value_reads := [] |}.

(** [print(s)] *)
Definition print (s : string) (w : world) : world :=
  {| stdout := stdout w ++ [s];
     solve_calls := solve_calls w;
     value_reads := value_reads w |}.

(** [solver.Solve(model)] *)
Definition Solve (solver : CpModel → CpSolverResponse) (m : CpModel) (w : world)
  : CpSolverResponse * world :=
  (solver m,
   {| stdout := stdout w;
      solve_calls := solve_calls w ++ [m];
      value_reads := value_reads w |}).

(** [solver.Value(v)] *)
Definition Value (resp : CpSolverResponse) (v : nat) (w : world) : Z * world :=
  (solution resp v,
   {| stdout := stdout w;
      solve_calls := solve_calls w;
      value_reads := value_reads w ++ [v] |}).

(** ** basic_timetable.py *)

Module Timetable1.

Record Data := {
  teachers : list string;
  courses : list string;
  rooms : list string;
  slots : list string
}.

(** The data block of the script. *)
Definition data : Data := {|
  teachers := ["Prof A"; "Prof B"];
  courses := ["Math"; "Physics"];
  rooms := ["Room1"; "Room2"];
  slots := ["Morning"; "Afternoon"]
|}.

(** The two objects the script builds before solving. *)
Record globals := {
  model : CpModel;
  x : gmap (nat * nat * nat) nat
}.

Section script.
Variable D : Data.

Definition x_name (c s r : nat) : string :=
  "x_c" +:+ pretty c +:+ "_s" +:+ pretty s +:+ "_r" +:+ pretty r.

(** Decision variables: [x[c, s, r]] = course c in slot s, room r. *)
Definition declare_x (m : CpModel)
  : result (gmap (nat * nat * nat) nat * CpModel) :=
  for_ (range (length (courses D))) (λ c xm,
    for_ (range (length (slots D))) (λ s xm,
      for_ (range (length (rooms D)))
        (λ r (xm : gmap (nat * nat * nat) nat * CpModel),
          let '(v, m) := NewBoolVar (x_name c s r) xm.2 in
          Ok (<[(c, s, r) := v]> xm.1, m)) xm) xm) (∅, m).

(** The term [x[(c,s,r)]] of a generator expression. *)
Definition x_at (x : gmap (nat * nat * nat) nat) (c s r : nat)
  : result (list LinearExpr) :=
  v ← getitem x (c, s, r); Ok [Var v].

(** Each course should happen exactly once. *)
Definition add_exactly_once (x : gmap (nat * nat * nat) nat) (m : CpModel)
  : result CpModel :=
  for_ (range (length (courses D))) (λ c m,
    es ← gen (λ s, gen (λ r, x_at x c s r) (range (length (rooms D))))
             (range (length (slots D)));
    Ok (Add (EqC (sum es) (Const 1)) m)) m.

(** No room clashes (one course per room per slot). *)
Definition add_room_clash (x : gmap (nat * nat * nat) nat) (m : CpModel)
  : result CpModel :=
  for_ (range (length (slots D))) (λ s m,
    for_ (range (length (rooms D))) (λ r m,
      es ← gen (λ c, x_at x c s r) (range (length (courses D)));
      Ok (Add (LeC (sum es) (Const 1)) m)) m) m.

(** Sections 2 and 3 of the script: the model handed to the solver. *)
Definition build : result globals :=
  xm ← declare_x new_model;
  m ← add_exactly_once xm.1 xm.2;
  m ← add_room_clash xm.1 m;
  Ok {| model := m; x := xm.1 |}.

Definition placement_line (c s r : nat) : result string :=
  cn ← index (courses D) c;
  rn ← index (rooms D) r;
  sn ← index (slots D) s;
  Ok (" Course " +:+ cn +:+ " in " +:+ rn +:+ " at " +:+ sn).

(** The branch taken under OPTIMAL and FEASIBLE. *)
Definition print_timetable (g : globals) (resp : CpSolverResponse)
    (w : world) : result world :=
  for_ (range (length (courses D))) (λ c w,
    for_ (range (length (slots D))) (λ s w,
      for_ (range (length (rooms D))) (λ r w,
        v ← getitem (x g) (c, s, r);
        let '(val, w) := Value resp v w in
        if (val =? 1)%Z
        then line ← placement_line c s r; Ok (print line w)
        else Ok w) w) w) (print "Timetable:" w).

(** The whole script. *)
Definition main (solver : CpModel → CpSolverResponse) (w : world)
  : result world :=
  g ← build;
  let '(resp, w) := Solve solver (model g) w in
  if decide (status resp = OPTIMAL ∨ status resp = FEASIBLE)
  then print_timetable g resp w
  else Ok (print "No feasible solution." w).

End script.

End Timetable1.

(** ** basic_timetable2.py *)

Module Timetable2.

Record Data := {
  teachers : list string;
  courses : list string;
  rooms : list string;
  slots : list string
}.

(** The data block of the script: teachers A..J, 20 courses, 5 rooms,
    8 slots. *)
Definition data : Data := {|
  teachers :=
    (λ i, "Teacher " +:+ String (Ascii.ascii_of_nat (65 + i)) "") <$> range 10;
  courses := (λ i, "Course" +:+ pretty (i + 1)) <$> range 20;
  rooms := (λ r, "Room" +:+ pretty (r + 1)) <$> range 5;
  slots := (λ s, "Slot" +:+ pretty (s + 1)) <$> range 8
|}.

Record globals := {
  course_teacher : gmap nat Z;
  model : CpModel;
  x : gmap (nat * nat * nat) nat
}.

Section script.
Variable D : Data.

(** Randomly assign each course to a teacher:
    [{c: random.randint(0, len(teachers)-1) for c in range(len(courses))}].
    [rng k] is the raw value of the k-th draw of the run. *)
Definition assign_teachers (rng : nat → nat) : result (gmap nat Z) :=
  dk ← for_ (range (length (courses D))) (λ c (dk : gmap nat Z * nat),
          t ← randint 0 (Z.of_nat (length (teachers D)) - 1) (rng dk.2);
          Ok (<[c := t]> dk.1, S dk.2)) (∅, 0);
  Ok dk.1.

Definition x_name (c s r : nat) : string :=
  "x_c" +:+ pretty c +:+ "_s" +:+ pretty s +:+ "_r" +:+ pretty r.

(** Decision variables: [x[c,s,r] = 1] if course c is scheduled in slot
    s, room r. *)
Definition declare_x (m : CpModel)
  : result (gmap (nat * nat * nat) nat * CpModel) :=
  for_ (range (length (courses D))) (λ c xm,
    for_ (range (length (slots D))) (λ s xm,
      for_ (range (length (rooms D)))
        (λ r (xm : gmap (nat * nat * nat) nat * CpModel),
          let '(v, m) := NewBoolVar (x_name c s r) xm.2 in
          Ok (<[(c, s, r) := v]> xm.1, m)) xm) xm) (∅, m).

Definition x_at (x : gmap (nat * nat * nat) nat) (c s r : nat)
  : result (list LinearExpr) :=
  v ← getitem x (c, s, r); Ok [Var v].

(** Each course exactly once. *)
Definition add_exactly_once (x : gmap (nat * nat * nat) nat) (m : CpModel)
  : result CpModel :=
  for_ (range (length (courses D))) (λ c m,
    es ← gen (λ s, gen (λ r, x_at x c s r) (range (length (rooms D))))
             (range (length (slots D)));
    Ok (Add (EqC (sum es) (Const 1)) m)) m.

(** No room clash (at most one course per slot per room). *)
Definition add_room_clash (x : gmap (nat * nat * nat) nat) (m : CpModel)
  : result CpModel :=
  for_ (range (length (slots D))) (λ s m,
    for_ (range (length (rooms D))) (λ r m,
      es ← gen (λ c, x_at x c s r) (range (length (courses D)));
      Ok (Add (LeC (sum es) (Const 1)) m)) m) m.

(** No teacher clash (a teacher can teach at most one course per slot). *)
Definition add_teacher_clash (ct : gmap nat Z)
    (x : gmap (nat * nat * nat) nat) (m : CpModel) : result CpModel :=
  for_ (range (length (teachers D))) (λ t m,
    for_ (range (length (slots D))) (λ s m,
      es ← gen (λ c,
              tc ← getitem ct c;
              if decide (tc = Z.of_nat t)
              then gen (λ r, x_at x c s r) (range (length (rooms D)))
              else Ok [])
            (range (length (courses D)));
      Ok (Add (LeC (sum es) (Const 1)) m)) m) m.

(** Sections 2 and 3 of the script, from the teacher assignment drawn in
    section 1. *)
Definition build (ct : gmap nat Z) : result globals :=
  xm ← declare_x new_model;
  m ← add_exactly_once xm.1 xm.2;
  m ← add_room_clash xm.1 m;
  m ← add_teacher_clash ct xm.1 m;
  Ok {| course_teacher := ct; model := m; x := xm.1 |}.

Definition placement_line (g : globals) (c s r : nat) : result string :=
  tc ← getitem (course_teacher g) c;
  teacher ← index_int (teachers D) tc;
  cn ← index (courses D) c;
  rn ← index (rooms D) r;
  sn ← index (slots D) s;
  Ok (ljust 10 cn +:+ " taught by " +:+ ljust 10 teacher +:+ " in "
      +:+ ljust 6 rn +:+ " at " +:+ sn).

(** The branch taken under OPTIMAL and FEASIBLE. *)
Definition print_timetable (g : globals) (resp : CpSolverResponse)
    (w : world) : result world :=
  for_ (range (length (courses D))) (λ c w,
    for_ (range (length (slots D))) (λ s w,
      for_ (range (length (rooms D))) (λ r w,
        v ← getitem (x g) (c, s, r);
        let '(val, w) := Value resp v w in
        if (val =? 1)%Z
        then line ← placement_line g c s r; Ok (print line w)
        else Ok w) w) w) (print ("Generated Timetable:" +:+ nl) w).

(** Sections 1 to 3: what the run builds before solving. *)
Definition setup (rng : nat → nat) : result globals :=
  ct ← assign_teachers rng; build ct.

(** The whole script.  The search parameters set on the solver (8
    workers, 30 seconds) are part of [solver]. *)
Definition main (rng : nat → nat) (solver : CpModel → CpSolverResponse)
    (w : world) : result world :=
  g ← setup rng;
  let '(resp, w) := Solve solver (model g) w in
  if decide (status resp = OPTIMAL ∨ status resp = FEASIBLE)
  then print_timetable g resp w
  else Ok (print "No feasible solution found." w).

End script.

End Timetable2.

(** ** basic_timetable3.py *)

Module Timetable3.

Record Data := {
  days : list string;
  max_slots_per_day : nat;
  rooms : list string;
  courses : list string;
  course_freq : gmap nat Z;
  professors : list string;
  course_prof : gmap nat Z
}.

Definition num_days (D : Data) : nat := length (days D).
Definition num_rooms (D : Data) : nat := length (rooms D).
Definition num_courses (D : Data) : nat := length (courses D).

(** The data block of the script: a 5-day week with 6 candidate slots
    per day, 3 rooms, 6 courses and 2 professors. *)
Definition data : Data := {|
  days := ["Mon"; "Tue"; "Wed"; "Thu"; "Fri"];
  max_slots_per_day := 6;
  rooms := (λ i, "Room" +:+ pretty (i + 1)) <$> range 3;
  courses := (λ i, "Course" +:+ pretty (i + 1)) <$> range 6;
  course_freq :=
    list_to_map [(0, 3%Z); (1, 3%Z); (2, 3%Z); (3, 3%Z); (4, 2%Z); (5, 2%Z)];
  professors := ["Prof1"; "Prof2"];
  course_prof :=
    list_to_map [(0, 0%Z); (1, 1%Z); (2, 0%Z); (3, 1%Z); (4, 1%Z); (5, 0%Z)]
|}.

Record globals := {
  model : CpModel;
  x : gmap (nat * nat * nat * nat) nat;
  y : gmap (nat * nat) nat
}.

Section script.
Variable D : Data.

Definition x_name (c d s r : nat) : string :=
  "x_c" +:+ pretty c +:+ "_d" +:+ pretty d +:+ "_s" +:+ pretty s
  +:+ "_r" +:+ pretty r.

Definition y_name (d s : nat) : string :=
  "y_d" +:+ pretty d +:+ "_s" +:+ pretty s.

(** [x[c, d, s, r] = 1] if course c is scheduled on day d, slot s, in
    room r. *)
Definition declare_x (m : CpModel)
  : result (gmap (nat * nat * nat * nat) nat * CpModel) :=
  for_ (range (num_courses D)) (λ c xm,
    for_ (range (num_days D)) (λ d xm,
      for_ (range (max_slots_per_day D)) (λ s xm,
        for_ (range (num_rooms D))
          (λ r (xm : gmap (nat * nat * nat * nat) nat * CpModel),
            let '(v, m) := NewBoolVar (x_name c d s r) xm.2 in
            Ok (<[(c, d, s, r) := v]> xm.1, m)) xm) xm) xm) (∅, m).

(** [y[d,s] = 1] if slot s on day d is used by any course. *)
Definition declare_y (m : CpModel)
  : result (gmap (nat * nat) nat * CpModel) :=
  for_ (range (num_days D)) (λ d ym,
    for_ (range (max_slots_per_day D))
      (λ s (ym : gmap (nat * nat) nat * CpModel),
        let '(v, m) := NewBoolVar (y_name d s) ym.2 in
        Ok (<[(d, s) := v]> ym.1, m)) ym) (∅, m).

Definition x_at (x : gmap (nat * nat * nat * nat) nat) (c d s r : nat)
  : result (list LinearExpr) :=
  v ← getitem x (c, d, s, r); Ok [Var v].

(** 1) Each course must appear exactly [course_freq[c]] times across
    the week. *)
Definition add_frequency (x : gmap (nat * nat * nat * nat) nat)
    (m : CpModel) : result CpModel :=
  for_ (range (num_courses D)) (λ c m,
    es ← gen (λ d, gen (λ s, gen (λ r, x_at x c d s r)
                                (range (num_rooms D)))
                      (range (max_slots_per_day D)))
             (range (num_days D));
    f ← getitem (course_freq D) c;
    Ok (Add (EqC (sum es) (Const f)) m)) m.

(** 2) A course has at most one session per day. *)
Definition add_once_per_day (x : gmap (nat * nat * nat * nat) nat)
    (m : CpModel) : result CpModel :=
  for_ (range (num_courses D)) (λ c m,
    for_ (range (num_days D)) (λ d m,
      es ← gen (λ s, gen (λ r, x_at x c d s r) (range (num_rooms D)))
               (range (max_slots_per_day D));
      Ok (Add (LeC (sum es) (Const 1)) m)) m) m.

(** 3) Room clash: at most one course in a given room at a given
    day+slot. *)
Definition add_room_clash (x : gmap (nat * nat * nat * nat) nat)
    (m : CpModel) : result CpModel :=
  for_ (range (num_days D)) (λ d m,
    for_ (range (max_slots_per_day D)) (λ s m,
      for_ (range (num_rooms D)) (λ r m,
        es ← gen (λ c, x_at x c d s r) (range (num_courses D));
        Ok (Add (LeC (sum es) (Const 1)) m)) m) m) m.

(** 4) Professor clash: a professor cannot teach two courses at the
    same day+slot. *)
Definition add_professor_clash (x : gmap (nat * nat * nat * nat) nat)
    (m : CpModel) : result CpModel :=
  for_ (range (length (professors D))) (λ p m,
    for_ (range (num_days D)) (λ d m,
      for_ (range (max_slots_per_day D)) (λ s m,
        es ← gen (λ c,
                pc ← getitem (course_prof D) c;
                if decide (pc = Z.of_nat p)
                then gen (λ r, x_at x c d s r) (range (num_rooms D))
                else Ok [])
              (range (num_courses D));
        Ok (Add (LeC (sum es) (Const 1)) m)) m) m) m.

(** [bigM = num_courses * num_rooms] *)
Definition bigM : Z := Z.of_nat (num_courses D) * Z.of_nat (num_rooms D).

(** 5) Link x -> y: if any course is scheduled at (d,s) then [y[d,s]]
    must be 1. *)
Definition add_link (x : gmap (nat * nat * nat * nat) nat)
    (y : gmap (nat * nat) nat) (m : CpModel) : result CpModel :=
  for_ (range (num_days D)) (λ d m,
    for_ (range (max_slots_per_day D)) (λ s m,
      es ← gen (λ c, gen (λ r, x_at x c d s r) (range (num_rooms D)))
               (range (num_courses D));
      yv ← getitem y (d, s);
      Ok (Add (LeC (sum es) (Times bigM (Var yv))) m)) m) m.

(** Minimize total used slots across the week. *)
Definition add_objective (y : gmap (nat * nat) nat) (m : CpModel)
  : result CpModel :=
  es ← gen (λ d, gen (λ s, yv ← getitem y (d, s); Ok [Var yv])
                    (range (max_slots_per_day D)))
           (range (num_days D));
  Ok (Minimize (sum es) m).

(** The model handed to the solver. *)
Definition build : result globals :=
  xm ← declare_x new_model;
  ym ← declare_y xm.2;
  m ← add_frequency xm.1 ym.2;
  m ← add_once_per_day xm.1 m;
  m ← add_room_clash xm.1 m;
  m ← add_professor_clash xm.1 m;
  m ← add_link xm.1 ym.1 m;
  m ← add_objective ym.1 m;
  Ok {| model := m; x := xm.1; y := ym.1 |}.

Definition slot_label (s : nat) : string := "Slot" +:+ pretty (s + 1).

(** One step of the search for the course held in room r at (d, s).
    The state is (row, found, world); [true] is the [break]. *)
Definition grid_probe (g : globals) (resp : CpSolverResponse)
    (d s r : nat) (c : nat) (st : list string * bool * world)
  : result (bool * (list string * bool * world)) :=
  let '(row, found, w) := st in
  v ← getitem (x g) (c, d, s, r);
  let '(val, w) := Value resp v w in
  if (val =? 1)%Z
  then
    pc ← getitem (course_prof D) c;
    prof ← index_int (professors D) pc;
    rn ← index (rooms D) r;
    cn ← index (courses D) c;
    Ok (true, (row ++ [rn +:+ ": " +:+ cn +:+ " (" +:+ prof +:+ ")"],
               true, w))
  else Ok (false, (row, found, w)).

(** The cell of room r at (d, s): the first course found there, or a
    dash.  The state is (row, world). *)
Definition grid_cell (g : globals) (resp : CpSolverResponse) (d s r : nat)
    (rw : list string * world) : result (list string * world) :=
  for_break (range (num_courses D)) (grid_probe g resp d s r)
            (rw.1, false, rw.2)
  ≫= λ st : list string * bool * world,
  let '(row, found, w) := st in
  if found then Ok (row, w)
  else rn ← index (rooms D) r; Ok (row ++ [rn +:+ ": -"], w).

(** Weekly grid: day -> slot -> room; unused slots are skipped. *)
Definition print_grid (g : globals) (resp : CpSolverResponse) (w : world)
  : result world :=
  for_ (range (num_days D)) (λ d w,
    dn ← index (days D) d;
    w ← for_ (range (max_slots_per_day D)) (λ s w,
           yv ← getitem (y g) (d, s);
           let '(val, w) := Value resp yv w in
           if (val =? 0)%Z then Ok w
           else
             rw ← for_ (range (num_rooms D)) (grid_cell g resp d s) ([], w);
             Ok (print (" " +:+ slot_label s +:+ ": " +:+ join " | " rw.1)
                       rw.2))
         (print ("=== " +:+ dn +:+ " ===") w);
    Ok (print "" w)) w.

Definition placement_text (d s r : nat) : result string :=
  dn ← index (days D) d;
  rn ← index (rooms D) r;
  Ok (dn +:+ " " +:+ slot_label s +:+ " in " +:+ rn).

(** Summary per course: which days/slots it is scheduled.  The state of
    the inner loops is (placements, world). *)
Definition print_summary (g : globals) (resp : CpSolverResponse)
    (w : world) : result world :=
  for_ (range (num_courses D)) (λ c w,
    pw ← for_ (range (num_days D)) (λ d pw,
           for_ (range (max_slots_per_day D)) (λ s pw,
             for_ (range (num_rooms D)) (λ r (pw : list string * world),
               v ← getitem (x g) (c, d, s, r);
               let '(val, w) := Value resp v pw.2 in
               if (val =? 1)%Z
               then t ← placement_text d s r; Ok (pw.1 ++ [t], w)
               else Ok (pw.1, w)) pw) pw) ([], w);
    cn ← index (courses D) c;
    Ok (print (" " +:+ ljust 8 cn +:+ " -> " +:+ join ", " pw.1) pw.2))
  (print "Per-course schedule:" w).

(** The branch taken under OPTIMAL and FEASIBLE. *)
Definition print_schedule (g : globals) (resp : CpSolverResponse)
    (w : world) : result world :=
  w ← print_grid g resp
        (print ("Weekly schedule (Day -> Slot -> Room : Course (Prof))" +:+ nl) w);
  print_summary g resp w.

Definition no_solution : string :=
  "No feasible solution found. Try increasing slots per day or relaxing constraints.".

(** The whole script.  The search parameters set on the solver (30
    seconds, 8 workers) are part of [solver]. *)
Definition main (solver : CpModel → CpSolverResponse) (w : world)
  : result world :=
  g ← build;
  let '(resp, w) := Solve solver (model g) w in
  if decide (status resp = OPTIMAL ∨ status resp = FEASIBLE)
  then print_schedule g resp w
  else Ok (print no_solution w).

End script.

End Timetable3.

(** ** Closed forms used to state what the loops produce *)

(** Sum of a list of integers. *)
Definition Zsum (l : list Z) : Z := foldr Z.add 0%Z l.

(** The two values of a boolean variable. *)
Definition is_bit (z : Z) : Prop := z = 0%Z ∨ z = 1%Z.

(** Value of [sum(vs)] under an assignment. *)
Definition total (a : nat → Z) (vs : list nat) : Z := Zsum (a <$> vs).

(** Number of variables of [vs] that an assignment sets to 1. *)
Definition count_true (a : nat → Z) (vs : list nat) : nat :=
  length (filter (λ v, a v = 1%Z) vs).

(** A model after a batch of [Add] calls. *)
Definition add_all (cts : list BoundedLinearExpression) (m : CpModel) : CpModel :=
  {| variables := variables m;
     constraints := constraints m ++ cts;
     objective := objective m |}.

Definition bool_var (name : string) : IntVarProto :=
  {| var_name := name; var_lb := 0; var_ub := 1 |}.

(** One [d[k] = model.NewBoolVar(name k)], and a run of them over the keys
    [ks]. *)
Definition alloc1 `{Countable K} (name : K → string)
    (dm : gmap K nat * CpModel) (k : K) : gmap K nat * CpModel :=
  (<[k := length (variables dm.2)]> dm.1, (NewBoolVar (name k) dm.2).2).

Definition alloc `{Countable K} (name : K → string) (ks : list K)
    (dm : gmap K nat * CpModel) : gmap K nat * CpModel :=
  foldl (alloc1 name) dm ks.

(** Every entry of the dictionary is a 0/1 variable of the model. *)
Definition all_bool `{Countable K} (d : gmap K nat) (m : CpModel) : Prop :=
  ∀ k v, d !! k = Some v → ∃ n, variables m !! v = Some (bool_var n).

(** Distinct keys of the dictionary hold distinct variables of the
    model. *)
Definition one_to_one `{Countable K} (d : gmap K nat) (m : CpModel) : Prop :=
  (∀ k v, d !! k = Some v → v < length (variables m))
  ∧ (∀ k1 k2 v, d !! k1 = Some v → d !! k2 = Some v → k1 = k2).

(** *** Three-index dictionaries [x[(c,s,r)]] (first and second script) *)

Module Shape3.
Section shape.
Variable x : gmap (nat * nat * nat) nat.
Variables nC nS nR : nat.

Definition keys : list (nat * nat * nat) :=
  c ← range nC; s ← range nS; r ← range nR; [(c, s, r)].

(** The variable stored in [x[(c,s,r)]]. *)
Definition X (c s r : nat) : nat := x !!! (c, s, r).

(** Variables of course c, over all slots and rooms. *)
Definition course_vars (c : nat) : list nat :=
  s ← range nS; r ← range nR; [X c s r].

(** Variables of slot s and room r, over all courses. *)
Definition room_vars (s r : nat) : list nat :=
  c ← range nC; [X c s r].

(** Variables of the courses owned by teacher t in slot s, over all
    rooms; [owner c] is the teacher of course c. *)
Definition teacher_vars (owner : nat → Z) (t s : nat) : list nat :=
  c ← range nC;
  if decide (owner c = Z.of_nat t) then r ← range nR; [X c s r] else [].

Definition exactly_once_ct (c : nat) : BoundedLinearExpression :=
  EqC (sum (Var <$> course_vars c)) (Const 1).

Definition room_clash_ct (s r : nat) : BoundedLinearExpression :=
  LeC (sum (Var <$> room_vars s r)) (Const 1).

Definition teacher_clash_ct (owner : nat → Z) (t s : nat)
  : BoundedLinearExpression :=
  LeC (sum (Var <$> teacher_vars owner t s)) (Const 1).

Definition exactly_once_family : list BoundedLinearExpression :=
  c ← range nC; [exactly_once_ct c].

Definition room_clash_family : list BoundedLinearExpression :=
  s ← range nS; r ← range nR; [room_clash_ct s r].

Definition teacher_clash_family (owner : nat → Z) (nT : nat)
  : list BoundedLinearExpression :=
  t ← range nT; s ← range nS; [teacher_clash_ct owner t s].
End shape.
End Shape3.

(** *** What the first script builds *)

Module Built1.
Import Timetable1.
Section built.
Variable D : Data.

Definition key_name (k : nat * nat * nat) : string := x_name k.1.1 k.1.2 k.2.

(** The dictionary [x] and the model after the variable loops. *)
Definition declared : gmap (nat * nat * nat) nat * CpModel :=
  alloc key_name
    (Shape3.keys (length (courses D)) (length (slots D)) (length (rooms D)))
    (∅, new_model).

Definition families : list BoundedLinearExpression :=
  Shape3.exactly_once_family declared.1
    (length (courses D)) (length (slots D)) (length (rooms D))
  ++ Shape3.room_clash_family declared.1
    (length (courses D)) (length (slots D)) (length (rooms D)).

Definition built : globals :=
  {| model := add_all families declared.2; x := declared.1 |}.
End built.
End Built1.

(** *** What the second script builds *)

Module Built2.
Import Timetable2.
Section built.
Variable D : Data.
Variable ct : gmap nat Z.

Definition key_name (k : nat * nat * nat) : string := x_name k.1.1 k.1.2 k.2.

(** The teacher of a course under the drawn assignment. *)
Definition owner (c : nat) : Z := ct !!! c.

Definition declared : gmap (nat * nat * nat) nat * CpModel :=
  alloc key_name
    (Shape3.keys (length (courses D)) (length (slots D)) (length (rooms D)))
    (∅, new_model).

Definition families : list BoundedLinearExpression :=
  Shape3.exactly_once_family declared.1
    (length (courses D)) (length (slots D)) (length (rooms D))
  ++ Shape3.room_clash_family declared.1
    (length (courses D)) (length (slots D)) (length (rooms D))
  ++ Shape3.teacher_clash_family declared.1
    (length (courses D)) (length (slots D)) (length (rooms D))
    owner (length (teachers D)).

Definition built : globals :=
  {| course_teacher := ct; model := add_all families declared.2;
     x := declared.1 |}.
End built.

(** The teacher assignment drawn from [rng]: draw number c goes to
    course c. *)
Definition drawn (D : Data) (rng : nat → nat) (n : nat) : gmap nat Z :=
  foldl (λ d c,
           <[c := (0 + Z.of_nat (rng c)
                       `mod` (Z.of_nat (length (teachers D)) - 1 - 0 + 1))%Z]> d)
        ∅ (range n).
End Built2.


(** *** Four-index dictionary [x[(c,d,s,r)]] and [y[(d,s)]] (third script) *)

Module Shape4.
Section shape.
Variable x : gmap (nat * nat * nat * nat) nat.
Variable y : gmap (nat * nat) nat.
Variables nC nD nS nR : nat.

Definition xkeys : list (nat * nat * nat * nat) :=
  c ← range nC; d ← range nD; s ← range nS; r ← range nR; [(c, d, s, r)].

Definition ykeys : list (nat * nat) :=
  d ← range nD; s ← range nS; [(d, s)].

(** The variables stored in [x[(c,d,s,r)]] and [y[(d,s)]]. *)
Definition X (c d s r : nat) : nat := x !!! (c, d, s, r).
Definition Y (d s : nat) : nat := y !!! (d, s).

(** Variables of course c over the whole week. *)
Definition course_vars (c : nat) : list nat :=
  d ← range nD; s ← range nS; r ← range nR; [X c d s r].

(** Variables of course c on day d. *)
Definition day_vars (c d : nat) : list nat :=
  s ← range nS; r ← range nR; [X c d s r].

(** Variables of room r at (d, s), over all courses. *)
Definition room_vars (d s r : nat) : list nat :=
  c ← range nC; [X c d s r].

(** Variables of the courses of professor p at (d, s). *)
Definition professor_vars (owner : nat → Z) (p d s : nat) : list nat :=
  c ← range nC;
  if decide (owner c = Z.of_nat p) then r ← range nR; [X c d s r] else [].

(** Variables of slot (d, s), over all courses and rooms. *)
Definition slot_vars (d s : nat) : list nat :=
  c ← range nC; r ← range nR; [X c d s r].

Definition used_vars : list nat := d ← range nD; s ← range nS; [Y d s].

Definition frequency_ct (freq : nat → Z) (c : nat) : BoundedLinearExpression :=
  EqC (sum (Var <$> course_vars c)) (Const (freq c)).

Definition once_per_day_ct (c d : nat) : BoundedLinearExpression :=
  LeC (sum (Var <$> day_vars c d)) (Const 1).

Definition room_clash_ct (d s r : nat) : BoundedLinearExpression :=
  LeC (sum (Var <$> room_vars d s r)) (Const 1).

Definition professor_clash_ct (owner : nat → Z) (p d s : nat)
  : BoundedLinearExpression :=
  LeC (sum (Var <$> professor_vars owner p d s)) (Const 1).

Definition link_ct (M : Z) (d s : nat) : BoundedLinearExpression :=
  LeC (sum (Var <$> slot_vars d s)) (Times M (Var (Y d s))).

Definition frequency_family (freq : nat → Z) : list BoundedLinearExpression :=
  c ← range nC; [frequency_ct freq c].

Definition once_per_day_family : list BoundedLinearExpression :=
  c ← range nC; d ← range nD; [once_per_day_ct c d].

Definition room_clash_family : list BoundedLinearExpression :=
  d ← range nD; s ← range nS; r ← range nR; [room_clash_ct d s r].

Definition professor_clash_family (owner : nat → Z) (nP : nat)
  : list BoundedLinearExpression :=
  p ← range nP; d ← range nD; s ← range nS; [professor_clash_ct owner p d s].

Definition link_family (M : Z) : list BoundedLinearExpression :=
  d ← range nD; s ← range nS; [link_ct M d s].
End shape.
End Shape4.

(** *** What the third script builds *)

Module Built3.
Import Timetable3.
Section built.
Variable D : Data.

Definition xkey_name (k : nat * nat * nat * nat) : string :=
  x_name k.1.1.1 k.1.1.2 k.1.2 k.2.

Definition ykey_name (k : nat * nat) : string := y_name k.1 k.2.

(** Declared frequency and professor of a course. *)
Definition freq (c : nat) : Z := course_freq D !!! c.
Definition owner (c : nat) : Z := course_prof D !!! c.

Definition declared_x : gmap (nat * nat * nat * nat) nat * CpModel :=
  alloc xkey_name
    (Shape4.xkeys (num_courses D) (num_days D) (max_slots_per_day D)
                  (num_rooms D))
    (∅, new_model).

Definition declared_y : gmap (nat * nat) nat * CpModel :=
  alloc ykey_name (Shape4.ykeys (num_days D) (max_slots_per_day D))
    (∅, declared_x.2).

Definition families : list BoundedLinearExpression :=
  Shape4.frequency_family declared_x.1
    (num_courses D) (num_days D) (max_slots_per_day D) (num_rooms D) freq
  ++ Shape4.once_per_day_family declared_x.1
    (num_courses D) (num_days D) (max_slots_per_day D) (num_rooms D)
  ++ Shape4.room_clash_family declared_x.1
    (num_courses D) (num_days D) (max_slots_per_day D) (num_rooms D)
  ++ Shape4.professor_clash_family declared_x.1
    (num_courses D) (num_days D) (max_slots_per_day D) (num_rooms D)
    owner (length (professors D))
  ++ Shape4.link_family declared_x.1 declared_y.1
    (num_courses D) (num_days D) (max_slots_per_day D) (num_rooms D)
    (bigM D).

Definition built : globals :=
  {| model :=
       Minimize
         (sum (Var <$> Shape4.used_vars declared_y.1
                         (num_days D) (max_slots_per_day D)))
         (add_all families declared_y.2);
     x := declared_x.1;
     y := declared_y.1 |}.

(** Every course has a declared frequency and a declared professor. *)
Definition complete : Prop :=
  ∀ c, c < num_courses D →
    is_Some (course_freq D !! c) ∧ is_Some (course_prof D !! c).
End built.
End Built3.


(** *** Concrete assignments used as examples *)

(** First script: Math in Room1 and Physics in Room2, both in the
    morning (variables 0 and 5). *)
Definition both_in_the_morning (v : nat) : Z :=
  if decide (v = 0 ∨ v = 5) then 1%Z else 0%Z.


(** Third script: course c meets on its first [course_freq[c]] days, in
    slot c and the first room; every usage indicator is set.  Variable
    [((c*5 + d)*6 + s)*3 + r] is [x[c,d,s,r]]; the indicators follow the
    540 variables of [x]. *)
Definition one_slot_per_course (v : nat) : Z :=
  if decide (540 ≤ v)%nat then 1%Z
  else
    let r := v `mod` 3 in
    let s := (v `div` 3) `mod` 6 in
    let d := (v `div` 18) `mod` 5 in
    let c := v `div` 90 in
    if decide (r = 0 ∧ s = c ∧ d < (if decide (c < 4) then 3 else 2))
    then 1%Z else 0%Z.


(** A solver that proves nothing can be scheduled. *)
Definition reports_infeasible (m : CpModel) : CpSolverResponse :=
  {| status := INFEASIBLE; solution := λ _, 0%Z |}.


(** *** What the scripts print *)

(** The statuses under which the solver holds a solution. *)
Definition solved (st : CpSolverStatus) : Prop := st = OPTIMAL ∨ st = FEASIBLE.

(** A world after more lines were printed and more values read. *)
Definition emit (lines : list string) (reads : list nat) (w : world) : world :=
  {| stdout := stdout w ++ lines;
     solve_calls := solve_calls w;
     value_reads := value_reads w ++ reads |}.

(** [l[i]] where the index is known to be in range. *)
Definition text_at (l : list string) (i : nat) : string := default "" (l !! i).

Definition text_at_int (l : list string) (i : Z) : string :=
  match index_int l i with Ok s => s | Raise _ => "" end.

Module Out1.
Import Timetable1.
Section out.
Variable D : Data.
Variable x : gmap (nat * nat * nat) nat.
Variable resp : CpSolverResponse.

Definition line (k : nat * nat * nat) : string :=
  " Course " +:+ text_at (courses D) k.1.1 +:+ " in " +:+ text_at (rooms D) k.2
  +:+ " at " +:+ text_at (slots D) k.1.2.

(** One line per variable that the solver set to 1, in the order
    course, slot, room. *)
Definition placements : list string :=
  Shape3.keys (length (courses D)) (length (slots D)) (length (rooms D))
  ≫= λ k, if (solution resp (x !!! k) =? 1)%Z then [line k] else [].

Definition reads : list nat :=
  Shape3.keys (length (courses D)) (length (slots D)) (length (rooms D))
  ≫= λ k, [x !!! k].
End out.
End Out1.

Module Out2.
Import Timetable2.
Section out.
Variable D : Data.
Variable g : globals.
Variable resp : CpSolverResponse.

Definition line (k : nat * nat * nat) : string :=
  ljust 10 (text_at (courses D) k.1.1) +:+ " taught by "
  +:+ ljust 10 (text_at_int (teachers D) (course_teacher g !!! k.1.1))
  +:+ " in " +:+ ljust 6 (text_at (rooms D) k.2)
  +:+ " at " +:+ text_at (slots D) k.1.2.

Definition placements : list string :=
  Shape3.keys (length (courses D)) (length (slots D)) (length (rooms D))
  ≫= λ k, if (solution resp (x g !!! k) =? 1)%Z then [line k] else [].

Definition reads : list nat :=
  Shape3.keys (length (courses D)) (length (slots D)) (length (rooms D))
  ≫= λ k, [x g !!! k].
End out.
End Out2.


Module Out3.
Import Timetable3.
Section out.
Variable D : Data.
Variable g : globals.
Variable resp : CpSolverResponse.

(** Text of a placement on day d, slot s, room r; the key is (d, s, r). *)
Definition placement (k : nat * nat * nat) : string :=
  text_at (days D) k.1.1 +:+ " " +:+ slot_label k.1.2 +:+ " in "
  +:+ text_at (rooms D) k.2.

(** The placements listed for course c: one per variable of the course
    that the solver set to 1, in the order day, slot, room. *)
Definition course_placements (c : nat) : list string :=
  Shape3.keys (num_days D) (max_slots_per_day D) (num_rooms D)
  ≫= λ k, if (solution resp (x g !!! (c, k.1.1, k.1.2, k.2)) =? 1)%Z
          then [placement k] else [].

Definition course_reads (c : nat) : list nat :=
  Shape3.keys (num_days D) (max_slots_per_day D) (num_rooms D)
  ≫= λ k, [x g !!! (c, k.1.1, k.1.2, k.2)].

Definition summary_line (c : nat) : string :=
  " " +:+ ljust 8 (text_at (courses D) c) +:+ " -> "
  +:+ join ", " (course_placements c).

(** The per-course summary that ends the output. *)
Definition summary : list string :=
  range (num_courses D) ≫= λ c, [summary_line c].

Definition header : string :=
  "Weekly schedule (Day -> Slot -> Room : Course (Prof))" +:+ nl.

(** The professor of every course is in the list of professors. *)
Definition staffed : Prop :=
  ∀ c, c < num_courses D →
    ∃ p name, course_prof D !! c = Some p
              ∧ index_int (professors D) p = Ok name.
End out.
End Out3.

(** Nothing but printing and reading separates two worlds. *)
Definition extends (w w' : world) : Prop := ∃ l r, w' = emit l r w.


(** *** A timetable that fills the (slot, room) pairs in order *)

(** First script: course c takes the c-th (slot, room) pair.  Variable
    [(c*nS + s)*nR + r] is [x[(c,s,r)]]. *)
Definition packed (nS nR : nat) (v : nat) : Z :=
  if decide (v `mod` (nS * nR) = v `div` (nS * nR)) then 1%Z else 0%Z.

(** Second script: course c goes to slot [c div 5] and room [c mod 5] of
    the 8 slots and 5 rooms; with courses c and c + 10 given to teacher
    [c mod 10] no teacher meets two courses in one slot. *)
Definition five_per_slot (v : nat) : Z :=
  let c := v `div` 40 in
  if decide ((v `div` 5) `mod` 8 = c `div` 5 ∧ v `mod` 5 = c `mod` 5)
  then 1%Z else 0%Z.

(** A solver that answers every model with the status [st] and the
    assignment [a]. *)
Definition answers (st : CpSolverStatus) (a : nat → Z)
  : CpModel → CpSolverResponse :=
  λ _, {| status := st; solution := a |}.

(** *** The weekly grid of the third script *)

(** The courses a cell's search looks at: up to and including the first
    one that [P] accepts. *)
Fixpoint probed (P : nat → bool) (cs : list nat) : list nat :=
  match cs with
  | [] => []
  | c :: cs' => c :: (if P c then [] else probed P cs')
  end.

Module Grid3.
Import Timetable3.
Section out.
Variable D : Data.
Variable g : globals.
Variable resp : CpSolverResponse.

(** The solver placed course c in room r at (d, s). *)
Definition hit (d s r c : nat) : bool :=
  (solution resp (x g !!! (c, d, s, r)) =? 1)%Z.

(** The first course found in room r at (d, s). *)
Definition holder (d s r : nat) : option nat :=
  List.find (hit d s r) (range (num_courses D)).

Definition cell_text (r c : nat) : string :=
  text_at (rooms D) r +:+ ": " +:+ text_at (courses D) c +:+ " ("
  +:+ text_at_int (professors D) (course_prof D !!! c) +:+ ")".

Definition cell (d s r : nat) : string :=
  match holder d s r with
  | Some c => cell_text r c
  | None => text_at (rooms D) r +:+ ": -"
  end.

Definition cell_reads (d s r : nat) : list nat :=
  (λ c, x g !!! (c, d, s, r)) <$> probed (hit d s r) (range (num_courses D)).

(** The solver marked slot (d, s) as used. *)
Definition used (d s : nat) : bool :=
  negb (solution resp (y g !!! (d, s)) =? 0)%Z.

Definition row (d s : nat) : string :=
  " " +:+ slot_label s +:+ ": "
  +:+ join " | " (cell d s <$> range (num_rooms D)).

Definition slot_lines (d s : nat) : list string :=
  if used d s then [row d s] else [].

Definition slot_reads (d s : nat) : list nat :=
  y g !!! (d, s)
  :: (if used d s then range (num_rooms D) ≫= cell_reads d s else []).

(** The block of day d: its title, one row per used slot, a blank
    line. *)
Definition day_block (d : nat) : list string :=
  ("=== " +:+ text_at (days D) d +:+ " ===")
  :: (range (max_slots_per_day D) ≫= slot_lines d) ++ [""].

Definition day_reads (d : nat) : list nat :=
  range (max_slots_per_day D) ≫= slot_reads d.

Definition grid : list string := range (num_days D) ≫= day_block.

Definition reads : list nat :=
  (range (num_days D) ≫= day_reads)
  ++ (range (num_courses D) ≫= Out3.course_reads D g).
End out.
End Grid3.

(** *** Data used as examples of the error paths *)

(** The second script's data without any teacher. *)
Definition no_teachers : Timetable2.Data := {|
  Timetable2.teachers := [];
  Timetable2.courses := Timetable2.courses Timetable2.data;
  Timetable2.rooms := Timetable2.rooms Timetable2.data;
  Timetable2.slots := Timetable2.slots Timetable2.data
|}.



(** * Proofs *)

(** ** Loops and generators *)

Section loops.
Context {A S : Type}.

Lemma for__app (l1 l2 : list A) (body : A → S → result S) (s : S) :
  for_ (l1 ++ l2) body s = for_ l1 body s ≫= for_ l2 body.
Proof.
  revert s; induction l1 as [|a l1 IH]; intros s; simpl; [done|].
  destruct (body a s); simpl; auto.
Qed.

(** A loop whose body never raises on the items it meets is a fold. *)
Lemma for__foldl (l : list A) (body : A → S → result S) (f : S → A → S) s :
  (∀ a s, a ∈ l → body a s = Ok (f s a)) →
  for_ l body s = Ok (foldl f s l).
Proof.
  revert s; induction l as [|a l IH]; intros s Hb; simpl; [done|].
  rewrite Hb by left. simpl. apply IH. intros; apply Hb; by right.
Qed.

(** Loop invariant rule for a relation between the states before and
    after. *)
Lemma for__rel (R : S → S → Prop) (l : list A) (body : A → S → result S) s :
  (∀ s, R s s) → (∀ s1 s2 s3, R s1 s2 → R s2 s3 → R s1 s3) →
  (∀ a s, a ∈ l → ∃ s', body a s = Ok s' ∧ R s s') →
  ∃ s', for_ l body s = Ok s' ∧ R s s'.
Proof.
  intros Hrefl Htrans. revert s; induction l as [|a l IH]; intros s Hb; simpl.
  - eauto.
  - destruct (Hb a s) as (s1 & -> & H1); [by left|]. simpl.
    destruct (IH s1) as (s2 & -> & H2); [intros; apply Hb; by right|].
    eauto.
Qed.

Lemma foldl_bind {B} (f : S → B → S) (g : A → list B) (l : list A) s :
  foldl f s (l ≫= g) = foldl (λ s a, foldl f s (g a)) s l.
Proof.
  revert s; induction l as [|a l IH]; intros s; [done|].
  change ((a :: l) ≫= g) with (g a ++ (l ≫= g)).
  by rewrite foldl_app, IH.
Qed.

End loops.

Lemma add_all_nil m : add_all [] m = m.
Proof. destruct m; unfold add_all; simpl. by rewrite app_nil_r. Qed.

Lemma add_all_app cts1 cts2 m :
  add_all cts2 (add_all cts1 m) = add_all (cts1 ++ cts2) m.
Proof. unfold add_all; simpl. by rewrite app_assoc. Qed.

(** A loop whose body only adds constraints adds the concatenation. *)
Lemma for__add_all {A} (l : list A) (body : A → CpModel → result CpModel)
    (F : A → list BoundedLinearExpression) m :
  (∀ a m, a ∈ l → body a m = Ok (add_all (F a) m)) →
  for_ l body m = Ok (add_all (l ≫= F) m).
Proof.
  revert m; induction l as [|a l IH]; intros m Hb; simpl.
  - by rewrite add_all_nil.
  - rewrite Hb by left. simpl. rewrite IH by (intros; apply Hb; by right).
    by rewrite add_all_app.
Qed.

(** ** Allocation of boolean variables *)

Section alloc.
Context `{Countable K} (name : K → string).
Implicit Types (ks : list K) (dm : gmap K nat * CpModel).

Lemma alloc_cons k ks dm :
  alloc name (k :: ks) dm = alloc name ks (alloc1 name dm k).
Proof. done. Qed.

Lemma alloc_constraints ks dm :
  constraints (alloc name ks dm).2 = constraints dm.2.
Proof.
  revert dm; induction ks as [|k ks IH]; intros dm; [done|].
  rewrite alloc_cons, IH. done.
Qed.

Lemma alloc_objective ks dm :
  objective (alloc name ks dm).2 = objective dm.2.
Proof.
  revert dm; induction ks as [|k ks IH]; intros dm; [done|].
  rewrite alloc_cons, IH. done.
Qed.

Lemma alloc_variables ks dm :
  variables (alloc name ks dm).2
  = variables dm.2 ++ ((λ k, bool_var (name k)) <$> ks).
Proof.
  revert dm; induction ks as [|k ks IH]; intros dm.
  - simpl. by rewrite app_nil_r.
  - rewrite alloc_cons, IH. simpl. by rewrite <- app_assoc.
Qed.

(** Every key of the run, and every key already there, is in the
    dictionary afterwards. *)
Lemma alloc_lookup ks dm k :
  k ∈ ks ∨ is_Some (dm.1 !! k) → is_Some ((alloc name ks dm).1 !! k).
Proof.
  revert dm; induction ks as [|k' ks IH]; intros dm Hk.
  - destruct Hk as [Hk|Hk]; [by apply elem_of_nil in Hk|done].
  - rewrite alloc_cons. apply IH. simpl.
    destruct (decide (k = k')) as [->|Hne].
    + right. rewrite lookup_insert_eq. eauto.
    + rewrite lookup_insert_ne by done.
      destruct Hk as [Hk|Hk]; [|by right].
      apply elem_of_cons in Hk as [?|?]; [done|by left].
Qed.


Lemma alloc1_all_bool dm k :
  all_bool dm.1 dm.2 → all_bool (alloc1 name dm k).1 (alloc1 name dm k).2.
Proof.
  intros Hb k' v. simpl. destruct (decide (k = k')) as [->|Hne].
  - rewrite lookup_insert_eq. intros [= <-]. exists (name k').
    by rewrite lookup_app_r, Nat.sub_diag.
  - rewrite lookup_insert_ne by done. intros Hv.
    destruct (Hb _ _ Hv) as [n Hn]. exists n.
    by apply lookup_app_l_Some.
Qed.

Lemma alloc_all_bool ks dm :
  all_bool dm.1 dm.2 → all_bool (alloc name ks dm).1 (alloc name ks dm).2.
Proof.
  revert dm; induction ks as [|k ks IH]; intros dm Hb; [done|].
  rewrite alloc_cons. by apply IH, alloc1_all_bool.
Qed.
End alloc.

(** The variables of a dictionary stay 0/1 variables when the model
    grows. *)
Lemma all_bool_mono `{Countable K} (d : gmap K nat) (m m' : CpModel) ext :
  variables m' = variables m ++ ext → all_bool d m → all_bool d m'.
Proof.
  intros Hv Hb k v Hk. destruct (Hb _ _ Hk) as [n Hn]. exists n.
  rewrite Hv. by apply lookup_app_l_Some.
Qed.

Lemma all_bool_empty `{Countable K} (m : CpModel) : all_bool (∅ : gmap K nat) m.
Proof. intros k v. by rewrite lookup_empty. Qed.

(** A fresh variable per key: the dictionary stays one-to-one. *)
Lemma alloc_one_to_one `{Countable K} (name : K → string) (ks : list K)
    (dm : gmap K nat * CpModel) :
  one_to_one dm.1 dm.2 →
  one_to_one (alloc name ks dm).1 (alloc name ks dm).2.
Proof.
  revert dm; induction ks as [|k ks IH]; intros dm [Hlt Hinj]; [done|].
  rewrite alloc_cons. apply IH. split; simpl.
  - intros k' v. rewrite length_app. simpl.
    destruct (decide (k = k')) as [->|Hne].
    + rewrite lookup_insert_eq. intros [= <-]. lia.
    + rewrite lookup_insert_ne by done. intros Hv%Hlt. lia.
  - intros k1 k2 v.
    destruct (decide (k = k1)) as [<-|H1], (decide (k = k2)) as [<-|H2];
      rewrite ?lookup_insert_eq, ?lookup_insert_ne by done.
    + done.
    + intros [= <-] Hv%Hlt. lia.
    + intros Hv%Hlt [= <-]. lia.
    + apply Hinj.
Qed.

Lemma one_to_one_empty `{Countable K} (m : CpModel) :
  one_to_one (∅ : gmap K nat) m.
Proof. split; intros *; by rewrite lookup_empty. Qed.

(** Allocation only hands out variables above a bound that the model has
    already passed. *)
Lemma alloc_above `{Countable K} (name : K → string) (ks : list K)
    (dm : gmap K nat * CpModel) (n0 : nat) (k : K) (v : nat) :
  (∀ k v, dm.1 !! k = Some v → (n0 ≤ v)%nat) →
  (n0 ≤ length (variables dm.2))%nat →
  (alloc name ks dm).1 !! k = Some v → (n0 ≤ v)%nat.
Proof.
  revert dm; induction ks as [|k' ks IH]; intros dm Hd Hn Hv; [by eapply Hd|].
  rewrite alloc_cons in Hv. eapply IH; [| |done]; simpl.
  - intros k1 v1. destruct (decide (k' = k1)) as [->|Hne].
    + rewrite lookup_insert_eq. by intros [= <-].
    + rewrite lookup_insert_ne by done. apply Hd.
  - rewrite length_app. lia.
Qed.

(** ** Meaning of sums and of feasibility *)

Lemma Zsum_app l1 l2 : Zsum (l1 ++ l2) = (Zsum l1 + Zsum l2)%Z.
Proof. induction l1 as [|z l1 IH]; simpl; lia. Qed.

Lemma total_app a vs1 vs2 : total a (vs1 ++ vs2) = (total a vs1 + total a vs2)%Z.
Proof. unfold total. by rewrite fmap_app, Zsum_app. Qed.

Lemma total_bind {A} a (l : list A) (f : A → list nat) :
  total a (l ≫= f) = Zsum ((λ x, total a (f x)) <$> l).
Proof.
  induction l as [|x l IH]; [done|].
  change ((x :: l) ≫= f) with (f x ++ (l ≫= f)).
  rewrite total_app, IH. done.
Qed.

Lemma eval_foldl_Plus a e0 es :
  eval a (foldl Plus e0 es) = (eval a e0 + Zsum (eval a <$> es))%Z.
Proof.
  revert e0; induction es as [|e es IH]; intros e0.
  - simpl. lia.
  - rewrite fmap_cons. simpl. rewrite IH. simpl. lia.
Qed.

Lemma eval_sum_vars a vs : eval a (sum (Var <$> vs)) = total a vs.
Proof.
  unfold sum, total. rewrite eval_foldl_Plus. simpl.
  rewrite <- list_fmap_compose. done.
Qed.

Lemma total_count a vs :
  (∀ v, v ∈ vs → is_bit (a v)) → total a vs = Z.of_nat (count_true a vs).
Proof.
  unfold total, count_true. induction vs as [|v vs IH]; intros Hb; [done|].
  rewrite fmap_cons, filter_cons. simpl.
  rewrite IH by (intros; apply Hb; by right).
  destruct (Hb v) as [Hv|Hv]; [by left|..]; case_decide; simpl; lia.
Qed.

Lemma total_nonneg a vs : (∀ v, v ∈ vs → is_bit (a v)) → (0 ≤ total a vs)%Z.
Proof. intros Hb. rewrite total_count by done. lia. Qed.

Lemma total_elem_le a vs v :
  (∀ v, v ∈ vs → is_bit (a v)) → v ∈ vs → (a v ≤ total a vs)%Z.
Proof.
  intros Hb Hv. apply list_elem_of_split in Hv as (l1 & l2 & ->).
  rewrite total_app. change (v :: l2) with ([v] ++ l2). rewrite total_app.
  assert (0 ≤ total a l1)%Z as H1.
  { apply total_nonneg. intros; apply Hb; set_solver. }
  assert (0 ≤ total a l2)%Z as H2.
  { apply total_nonneg. intros; apply Hb; set_solver. }
  unfold total at 2. simpl. lia.
Qed.


Lemma feasible_holds m a ct :
  feasible m a = true → ct ∈ constraints m → holds a ct = true.
Proof.
  unfold feasible. intros [_ Hc]%andb_prop Hin.
  rewrite forallb_forall in Hc. by apply Hc, list_elem_of_In.
Qed.

Lemma feasible_bool m a v n :
  feasible m a = true → variables m !! v = Some (bool_var n) → is_bit (a v).
Proof.
  unfold feasible. intros [Hd _]%andb_prop Hv.
  rewrite forallb_forall in Hd.
  assert (in_domain a (v, bool_var n) = true) as Hv'.
  { apply Hd, list_elem_of_In, elem_of_lookup_imap. eauto. }
  unfold in_domain in Hv'. simpl in Hv'. unfold is_bit. lia.
Qed.

Lemma feasible_all_bool `{Countable K} (d : gmap K nat) m a k v :
  feasible m a = true → all_bool d m → d !! k = Some v → is_bit (a v).
Proof. intros Hf Hb Hk. destruct (Hb _ _ Hk) as [n Hn]. eauto using feasible_bool. Qed.

Lemma holds_EqC a l r : holds a (EqC l r) = true ↔ eval a l = eval a r.
Proof. simpl. lia. Qed.

Lemma holds_LeC a l r : holds a (LeC l r) = true ↔ (eval a l ≤ eval a r)%Z.
Proof. simpl. lia. Qed.

(** A generator of variables, level by level. *)
Lemma gen_vars {A} (f : A → result (list LinearExpr)) (g : A → list nat)
    (l : list A) :
  (∀ a, a ∈ l → f a = Ok (Var <$> g a)) → gen f l = Ok (Var <$> (l ≫= g)).
Proof.
  induction l as [|a l IH]; intros Hf; simpl; [done|].
  rewrite Hf by left. simpl. rewrite IH by (intros; apply Hf; by right).
  simpl. change ((a :: l) ≫= g) with (g a ++ (l ≫= g)). by rewrite fmap_app.
Qed.

Lemma foldl_ext_in {A B} (f g : B → A → B) (l : list A) b :
  (∀ b a, a ∈ l → f b a = g b a) → foldl f b l = foldl g b l.
Proof.
  revert b; induction l as [|a l IH]; intros b Hfg; simpl; [done|].
  rewrite Hfg by left. apply IH. intros; apply Hfg; by right.
Qed.

Lemma elem_of_range i n : i ∈ range n ↔ i < n.
Proof. unfold range. rewrite elem_of_seq. lia. Qed.

Lemma getitem_Some `{Countable K} {V} (d : gmap K V) k v :
  d !! k = Some v → getitem d k = Ok v.
Proof. unfold getitem. by intros ->. Qed.

Lemma getitem_total `{Countable K} `{Inhabited V} (d : gmap K V) k :
  is_Some (d !! k) → getitem d k = Ok (d !!! k).
Proof.
  intros [v Hv]. rewrite (getitem_Some _ _ _ Hv).
  by rewrite lookup_total_alt, Hv.
Qed.

(** ** Three nested loops over (c, s, r) *)

Section nest3.
Context {S : Type}.
Variables nC nS nR : nat.

Lemma elem_of_keys3 c s r :
  (c, s, r) ∈ Shape3.keys nC nS nR ↔ c < nC ∧ s < nS ∧ r < nR.
Proof.
  unfold Shape3.keys. rewrite list_elem_of_bind. split.
  - intros (c' & (s' & (r' & Hk & Hr)%list_elem_of_bind & Hs)%list_elem_of_bind & Hc).
    apply list_elem_of_singleton in Hk as [= -> -> ->].
    by rewrite <- !elem_of_range.
  - intros (Hc & Hs & Hr). exists c. split; [|by apply elem_of_range].
    apply list_elem_of_bind. exists s. split; [|by apply elem_of_range].
    apply list_elem_of_bind. exists r. split; [|by apply elem_of_range].
    by apply list_elem_of_singleton.
Qed.

Lemma for3_foldl (body : nat → nat → nat → S → result S)
    (f : S → nat * nat * nat → S) st :
  (∀ c s r st, c < nC → s < nS → r < nR → body c s r st = Ok (f st (c, s, r))) →
  for_ (range nC) (λ c st,
    for_ (range nS) (λ s st,
      for_ (range nR) (λ r st, body c s r st) st) st) st
  = Ok (foldl f st (Shape3.keys nC nS nR)).
Proof.
  intros Hb. unfold Shape3.keys. rewrite foldl_bind.
  apply for__foldl. intros c st1 Hc%elem_of_range. rewrite foldl_bind.
  apply for__foldl. intros s st2 Hs%elem_of_range. rewrite foldl_bind.
  erewrite foldl_ext_in; [apply for__foldl|].
  - intros r st3 Hr%elem_of_range. by apply Hb.
  - done.
Qed.
End nest3.

(** ** The constraint families of the first two scripts *)

Section shape3.
Variable x : gmap (nat * nat * nat) nat.
Variables nC nS nR : nat.
Hypothesis x_covers :
  ∀ c s r, c < nC → s < nS → r < nR → is_Some (x !! (c, s, r)).

Let X := Shape3.X x.

Lemma x_lookup_X c s r :
  c < nC → s < nS → r < nR → x !! (c, s, r) = Some (X c s r).
Proof.
  intros Hc Hs Hr. destruct (x_covers c s r) as [v Hv]; [done..|].
  unfold X, Shape3.X. by rewrite lookup_total_alt, Hv.
Qed.

Lemma course_gen (x_at : nat → nat → nat → result (list LinearExpr)) c :
  (∀ c s r, x_at c s r = v ← getitem x (c, s, r); Ok [Var v]) →
  c < nC →
  gen (λ s, gen (λ r, x_at c s r) (range nR)) (range nS)
  = Ok (Var <$> Shape3.course_vars x nS nR c).
Proof.
  intros Hx Hc. apply gen_vars. intros s Hs%elem_of_range.
  apply gen_vars. intros r Hr%elem_of_range.
  rewrite Hx, (getitem_Some _ _ _ (x_lookup_X c s r Hc Hs Hr)). done.
Qed.

Lemma room_gen (x_at : nat → nat → nat → result (list LinearExpr)) s r :
  (∀ c s r, x_at c s r = v ← getitem x (c, s, r); Ok [Var v]) →
  s < nS → r < nR →
  gen (λ c, x_at c s r) (range nC) = Ok (Var <$> Shape3.room_vars x nC s r).
Proof.
  intros Hx Hs Hr. apply gen_vars. intros c Hc%elem_of_range.
  rewrite Hx, (getitem_Some _ _ _ (x_lookup_X c s r Hc Hs Hr)). done.
Qed.

Lemma teacher_gen (x_at : nat → nat → nat → result (list LinearExpr))
    (ct : gmap nat Z) t s :
  (∀ c s r, x_at c s r = v ← getitem x (c, s, r); Ok [Var v]) →
  (∀ c, c < nC → is_Some (ct !! c)) →
  s < nS →
  gen (λ c, tc ← getitem ct c;
            if decide (tc = Z.of_nat t)
            then gen (λ r, x_at c s r) (range nR) else Ok [])
      (range nC)
  = Ok (Var <$> Shape3.teacher_vars x nC nR (λ c, ct !!! c) t s).
Proof.
  intros Hx Hct Hs. apply gen_vars. intros c Hc%elem_of_range.
  rewrite getitem_total by auto. simpl. case_decide; [|done].
  apply gen_vars. intros r Hr%elem_of_range.
  rewrite Hx, (getitem_Some _ _ _ (x_lookup_X c s r Hc Hs Hr)). done.
Qed.
End shape3.

(** ** The first script: what [build] returns *)

Section script1.
Import Timetable1.
Variable D : Data.
Let nC := length (courses D).
Let nS := length (slots D).
Let nR := length (rooms D).

Lemma declare_x1_spec m :
  declare_x D m = Ok (alloc Built1.key_name (Shape3.keys nC nS nR) (∅, m)).
Proof. unfold declare_x. apply for3_foldl. done. Qed.

Lemma declared1_covers c s r :
  c < nC → s < nS → r < nR → is_Some ((Built1.declared D).1 !! (c, s, r)).
Proof.
  intros. apply alloc_lookup. left. by apply elem_of_keys3.
Qed.

Lemma declared1_all_bool : all_bool (Built1.declared D).1 (Built1.declared D).2.
Proof. apply alloc_all_bool, all_bool_empty. Qed.

Lemma add_exactly_once1_spec m :
  add_exactly_once D (Built1.declared D).1 m
  = Ok (add_all (Shape3.exactly_once_family (Built1.declared D).1 nC nS nR) m).
Proof.
  unfold add_exactly_once. apply for__add_all. intros c m' Hc%elem_of_range.
  erewrite course_gen; [done|apply declared1_covers|done|done].
Qed.

Lemma add_room_clash1_spec m :
  add_room_clash D (Built1.declared D).1 m
  = Ok (add_all (Shape3.room_clash_family (Built1.declared D).1 nC nS nR) m).
Proof.
  unfold add_room_clash. apply for__add_all. intros s m' Hs%elem_of_range.
  apply for__add_all. intros r m'' Hr%elem_of_range.
  erewrite room_gen; [done|apply declared1_covers|done|done|done].
Qed.

(** The loops of the script build exactly the closed-form model, and never
    raise. *)
Lemma build1_spec : build D = Ok (Built1.built D).
Proof.
  unfold build. rewrite declare_x1_spec. simpl.
  fold nC nS nR. change (alloc _ _ _) with (Built1.declared D).
  rewrite add_exactly_once1_spec. simpl.
  rewrite add_room_clash1_spec. simpl.
  by rewrite add_all_app.
Qed.
End script1.

(** ** The second script: the random teacher assignment and [build] *)

Section script2.
Import Timetable2.
Variable D : Data.
Let nC := length (courses D).
Let nS := length (slots D).
Let nR := length (rooms D).
Let nT := length (teachers D).

Lemma randint_ok (b : Z) raw :
  (0 ≤ b)%Z → randint 0 b raw = Ok (0 + Z.of_nat raw `mod` (b - 0 + 1))%Z.
Proof.
  intros Hb. unfold randint.
  destruct (b <? 0)%Z eqn:E; [lia|done].
Qed.

Lemma randint_empty (b : Z) raw : (b < 0)%Z → randint 0 b raw = Raise ValueError.
Proof. intros Hb. unfold randint. destruct (b <? 0)%Z eqn:E; [done|lia]. Qed.

Lemma drawn_S rng n :
  Built2.drawn D rng (S n)
  = <[n := (0 + Z.of_nat (rng n) `mod` (Z.of_nat nT - 1 - 0 + 1))%Z]>
      (Built2.drawn D rng n).
Proof.
  unfold Built2.drawn, range. rewrite seq_S, foldl_app. done.
Qed.

(** Every course below [n] has a teacher, and it is the index of a
    declared teacher. *)
Lemma drawn_lookup rng n c :
  0 < nT → c < n →
  ∃ t, Built2.drawn D rng n !! c = Some t ∧ (0 ≤ t < Z.of_nat nT)%Z.
Proof.
  intros HT. induction n as [|n IH]; intros Hc; [lia|].
  rewrite drawn_S. destruct (decide (c = n)) as [->|Hne].
  - rewrite lookup_insert_eq. eexists; split; [done|].
    pose proof (Z.mod_pos_bound (Z.of_nat (rng n)) (Z.of_nat nT - 1 - 0 + 1)).
    lia.
  - rewrite lookup_insert_ne by done. apply IH. lia.
Qed.

Lemma drawn_loop rng (d : gmap nat Z) a n :
  0 < nT →
  for_ (seq a n) (λ c (dk : gmap nat Z * nat),
         t ← randint 0 (Z.of_nat (length (teachers D)) - 1) (rng dk.2);
         Ok (<[c := t]> dk.1, S dk.2)) (d, a)
  = Ok (foldl (λ d c,
           <[c := (0 + Z.of_nat (rng c)
                       `mod` (Z.of_nat (length (teachers D)) - 1 - 0 + 1))%Z]> d)
          d (seq a n), a + n).
Proof.
  intros HT. revert d a; induction n as [|n IH]; intros d a; simpl.
  - by rewrite Nat.add_0_r.
  - rewrite randint_ok by (fold nT; lia). simpl. rewrite IH.
    by rewrite Nat.add_succ_r.
Qed.

Lemma assign_teachers_spec rng :
  0 < nT → assign_teachers D rng = Ok (Built2.drawn D rng nC).
Proof.
  intros HT. unfold assign_teachers, range. rewrite drawn_loop by done. done.
Qed.

(** Without teachers the first draw raises. *)
Lemma assign_teachers_empty rng :
  nT = 0 → 0 < nC → assign_teachers D rng = Raise ValueError.
Proof.
  intros HT HC. unfold assign_teachers, range. fold nC.
  destruct nC as [|n]; [lia|]. simpl.
  rewrite randint_empty; [done|]. fold nT. lia.
Qed.

Lemma declare_x2_spec m :
  declare_x D m = Ok (alloc Built2.key_name (Shape3.keys nC nS nR) (∅, m)).
Proof. unfold declare_x. apply for3_foldl. done. Qed.

Lemma declared2_covers c s r :
  c < nC → s < nS → r < nR → is_Some ((Built2.declared D).1 !! (c, s, r)).
Proof.
  intros. apply alloc_lookup. left. by apply elem_of_keys3.
Qed.

Lemma declared2_all_bool : all_bool (Built2.declared D).1 (Built2.declared D).2.
Proof. apply alloc_all_bool, all_bool_empty. Qed.

Lemma add_exactly_once2_spec m :
  add_exactly_once D (Built2.declared D).1 m
  = Ok (add_all (Shape3.exactly_once_family (Built2.declared D).1 nC nS nR) m).
Proof.
  unfold add_exactly_once. apply for__add_all. intros c m' Hc%elem_of_range.
  erewrite course_gen; [done|apply declared2_covers|done|done].
Qed.

Lemma add_room_clash2_spec m :
  add_room_clash D (Built2.declared D).1 m
  = Ok (add_all (Shape3.room_clash_family (Built2.declared D).1 nC nS nR) m).
Proof.
  unfold add_room_clash. apply for__add_all. intros s m' Hs%elem_of_range.
  apply for__add_all. intros r m'' Hr%elem_of_range.
  erewrite room_gen; [done|apply declared2_covers|done|done|done].
Qed.

Lemma add_teacher_clash2_spec (ct : gmap nat Z) m :
  (∀ c, c < nC → is_Some (ct !! c)) →
  add_teacher_clash D ct (Built2.declared D).1 m
  = Ok (add_all (Shape3.teacher_clash_family (Built2.declared D).1 nC nS nR
                   (Built2.owner ct) nT) m).
Proof.
  intros Hct. unfold add_teacher_clash. apply for__add_all.
  intros t m' Ht%elem_of_range.
  apply for__add_all. intros s m'' Hs%elem_of_range.
  erewrite teacher_gen; [done|apply declared2_covers|done|done|done].
Qed.

(** Given a teacher for every course, the loops build exactly the
    closed-form model. *)
Lemma build2_spec (ct : gmap nat Z) :
  (∀ c, c < nC → is_Some (ct !! c)) → build D ct = Ok (Built2.built D ct).
Proof.
  intros Hct. unfold build. rewrite declare_x2_spec. simpl.
  fold nC nS nR. change (alloc _ _ _) with (Built2.declared D).
  rewrite add_exactly_once2_spec. simpl.
  rewrite add_room_clash2_spec. simpl.
  rewrite add_teacher_clash2_spec by done. simpl.
  by rewrite !add_all_app.
Qed.

Lemma setup2_spec rng :
  0 < nT → setup D rng = Ok (Built2.built D (Built2.drawn D rng nC)).
Proof.
  intros HT. unfold setup. rewrite assign_teachers_spec by done. simpl.
  apply build2_spec. intros c Hc.
  destruct (drawn_lookup rng nC c HT Hc) as (t & -> & _). eauto.
Qed.
End script2.

(** ** Four and two nested loops *)

Section nest4.
Context {S : Type}.
Variables nC nD nS nR : nat.

Lemma elem_of_xkeys c d s r :
  (c, d, s, r) ∈ Shape4.xkeys nC nD nS nR ↔ c < nC ∧ d < nD ∧ s < nS ∧ r < nR.
Proof.
  unfold Shape4.xkeys. rewrite list_elem_of_bind. split.
  - intros (c' & (d' & (s' & (r' & Hk & Hr)%list_elem_of_bind
       & Hs)%list_elem_of_bind & Hd)%list_elem_of_bind & Hc).
    apply list_elem_of_singleton in Hk as [= -> -> -> ->].
    by rewrite <- !elem_of_range.
  - intros (Hc & Hd & Hs & Hr). exists c. split; [|by apply elem_of_range].
    apply list_elem_of_bind. exists d. split; [|by apply elem_of_range].
    apply list_elem_of_bind. exists s. split; [|by apply elem_of_range].
    apply list_elem_of_bind. exists r. split; [|by apply elem_of_range].
    by apply list_elem_of_singleton.
Qed.

Lemma elem_of_ykeys d s :
  (d, s) ∈ Shape4.ykeys nD nS ↔ d < nD ∧ s < nS.
Proof.
  unfold Shape4.ykeys. rewrite list_elem_of_bind. split.
  - intros (d' & (s' & Hk & Hs)%list_elem_of_bind & Hd).
    apply list_elem_of_singleton in Hk as [= -> ->].
    by rewrite <- !elem_of_range.
  - intros (Hd & Hs). exists d. split; [|by apply elem_of_range].
    apply list_elem_of_bind. exists s. split; [|by apply elem_of_range].
    by apply list_elem_of_singleton.
Qed.

Lemma for4_foldl (body : nat → nat → nat → nat → S → result S)
    (f : S → nat * nat * nat * nat → S) st :
  (∀ c d s r st, c < nC → d < nD → s < nS → r < nR →
     body c d s r st = Ok (f st (c, d, s, r))) →
  for_ (range nC) (λ c st,
    for_ (range nD) (λ d st,
      for_ (range nS) (λ s st,
        for_ (range nR) (λ r st, body c d s r st) st) st) st) st
  = Ok (foldl f st (Shape4.xkeys nC nD nS nR)).
Proof.
  intros Hb. unfold Shape4.xkeys. rewrite foldl_bind.
  apply for__foldl. intros c st1 Hc%elem_of_range. rewrite foldl_bind.
  apply for__foldl. intros d st2 Hd%elem_of_range. rewrite foldl_bind.
  apply for__foldl. intros s st3 Hs%elem_of_range. rewrite foldl_bind.
  erewrite foldl_ext_in; [apply for__foldl|].
  - intros r st4 Hr%elem_of_range. by apply Hb.
  - done.
Qed.

Lemma for2_foldl (body : nat → nat → S → result S)
    (f : S → nat * nat → S) st :
  (∀ d s st, d < nD → s < nS → body d s st = Ok (f st (d, s))) →
  for_ (range nD) (λ d st, for_ (range nS) (λ s st, body d s st) st) st
  = Ok (foldl f st (Shape4.ykeys nD nS)).
Proof.
  intros Hb. unfold Shape4.ykeys. rewrite foldl_bind.
  apply for__foldl. intros d st1 Hd%elem_of_range. rewrite foldl_bind.
  erewrite foldl_ext_in; [apply for__foldl|].
  - intros s st2 Hs%elem_of_range. by apply Hb.
  - done.
Qed.
End nest4.

(** ** The third script: what [build] returns *)

Section script3.
Import Timetable3.
Variable D : Data.
Let nC := num_courses D.
Let nD := num_days D.
Let nS := max_slots_per_day D.
Let nR := num_rooms D.
Let xd := (Built3.declared_x D).1.
Let yd := (Built3.declared_y D).1.

Lemma declare_x3_spec m :
  declare_x D m = Ok (alloc Built3.xkey_name (Shape4.xkeys nC nD nS nR) (∅, m)).
Proof. unfold declare_x. apply for4_foldl. done. Qed.

Lemma declare_y3_spec m :
  declare_y D m = Ok (alloc Built3.ykey_name (Shape4.ykeys nD nS) (∅, m)).
Proof. unfold declare_y. apply for2_foldl. done. Qed.

Lemma declared3_x_covers c d s r :
  c < nC → d < nD → s < nS → r < nR → xd !! (c, d, s, r) = Some (Shape4.X xd c d s r).
Proof.
  intros. destruct (alloc_lookup Built3.xkey_name (Shape4.xkeys nC nD nS nR)
    (∅, new_model) (c, d, s, r)) as [v Hv]; [left; by apply elem_of_xkeys|].
  unfold Shape4.X, xd, Built3.declared_x. fold nC nD nS nR.
  by rewrite lookup_total_alt, Hv.
Qed.

Lemma declared3_y_covers d s :
  d < nD → s < nS → yd !! (d, s) = Some (Shape4.Y yd d s).
Proof.
  intros. destruct (alloc_lookup Built3.ykey_name (Shape4.ykeys nD nS)
    (∅, (Built3.declared_x D).2) (d, s)) as [v Hv]; [left; by apply elem_of_ykeys|].
  unfold Shape4.Y, yd, Built3.declared_y. fold nD nS.
  by rewrite lookup_total_alt, Hv.
Qed.

Lemma declared3_x_bool : all_bool xd (Built3.declared_y D).2.
Proof.
  eapply all_bool_mono; [apply alloc_variables|].
  apply alloc_all_bool, all_bool_empty.
Qed.

Lemma declared3_y_bool : all_bool yd (Built3.declared_y D).2.
Proof. apply alloc_all_bool, all_bool_empty. Qed.

Lemma x_at3 c d s r :
  c < nC → d < nD → s < nS → r < nR →
  x_at xd c d s r = Ok (Var <$> [Shape4.X xd c d s r]).
Proof.
  intros Hc Hd Hs Hr. unfold x_at.
  by rewrite (getitem_Some _ _ _ (declared3_x_covers c d s r Hc Hd Hs Hr)).
Qed.

Lemma add_frequency3_spec m :
  (∀ c, c < nC → is_Some (course_freq D !! c)) →
  add_frequency D xd m
  = Ok (add_all (Shape4.frequency_family xd nC nD nS nR (Built3.freq D)) m).
Proof.
  intros Hf. unfold add_frequency. apply for__add_all.
  intros c m' Hc%elem_of_range.
  erewrite gen_vars with (g := λ d, s ← range nS; r ← range nR; [Shape4.X xd c d s r]).
  - simpl. rewrite getitem_total by auto. done.
  - intros d Hd%elem_of_range. apply gen_vars. intros s Hs%elem_of_range.
    apply gen_vars. intros r Hr%elem_of_range. by apply x_at3.
Qed.

Lemma add_once_per_day3_spec m :
  add_once_per_day D xd m
  = Ok (add_all (Shape4.once_per_day_family xd nC nD nS nR) m).
Proof.
  unfold add_once_per_day. apply for__add_all. intros c m1 Hc%elem_of_range.
  apply for__add_all. intros d m2 Hd%elem_of_range.
  erewrite gen_vars with (g := λ s, r ← range nR; [Shape4.X xd c d s r]); [done|].
  intros s Hs%elem_of_range. apply gen_vars. intros r Hr%elem_of_range.
  by apply x_at3.
Qed.

Lemma add_room_clash3_spec m :
  add_room_clash D xd m
  = Ok (add_all (Shape4.room_clash_family xd nC nD nS nR) m).
Proof.
  unfold add_room_clash. apply for__add_all. intros d m1 Hd%elem_of_range.
  apply for__add_all. intros s m2 Hs%elem_of_range.
  apply for__add_all. intros r m3 Hr%elem_of_range.
  erewrite gen_vars with (g := λ c, [Shape4.X xd c d s r]); [done|].
  intros c Hc%elem_of_range. by apply x_at3.
Qed.

Lemma add_professor_clash3_spec m :
  (∀ c, c < nC → is_Some (course_prof D !! c)) →
  add_professor_clash D xd m
  = Ok (add_all (Shape4.professor_clash_family xd nC nD nS nR
                   (Built3.owner D) (length (professors D))) m).
Proof.
  intros Hp. unfold add_professor_clash.
  apply for__add_all. intros p m1 _.
  apply for__add_all. intros d m2 Hd%elem_of_range.
  apply for__add_all. intros s m3 Hs%elem_of_range.
  erewrite gen_vars with
    (g := λ c, if decide (Built3.owner D c = Z.of_nat p)
               then r ← range nR; [Shape4.X xd c d s r] else []); [done|].
  intros c Hc%elem_of_range. rewrite getitem_total by auto. simpl.
  unfold Built3.owner. case_decide; [|done].
  apply gen_vars. intros r Hr%elem_of_range. by apply x_at3.
Qed.

Lemma add_link3_spec m :
  add_link D xd yd m
  = Ok (add_all (Shape4.link_family xd yd nC nD nS nR (bigM D)) m).
Proof.
  unfold add_link. apply for__add_all. intros d m1 Hd%elem_of_range.
  apply for__add_all. intros s m2 Hs%elem_of_range.
  erewrite gen_vars with (g := λ c, r ← range nR; [Shape4.X xd c d s r]).
  - simpl. by rewrite (getitem_Some _ _ _ (declared3_y_covers d s Hd Hs)).
  - intros c Hc%elem_of_range. apply gen_vars. intros r Hr%elem_of_range.
    by apply x_at3.
Qed.

Lemma add_objective3_spec m :
  add_objective D yd m
  = Ok (Minimize (sum (Var <$> Shape4.used_vars yd nD nS)) m).
Proof.
  unfold add_objective.
  erewrite gen_vars with (g := λ d, s ← range nS; [Shape4.Y yd d s]); [done|].
  intros d Hd%elem_of_range. apply gen_vars. intros s Hs%elem_of_range.
  by rewrite (getitem_Some _ _ _ (declared3_y_covers d s Hd Hs)).
Qed.

(** With a frequency and a professor for every course, the loops build
    exactly the closed-form model. *)
Lemma build3_spec : Built3.complete D → build D = Ok (Built3.built D).
Proof.
  intros Hc. unfold build. rewrite declare_x3_spec. simpl.
  rewrite declare_y3_spec. simpl.
  change (alloc Built3.xkey_name _ _) with (Built3.declared_x D).
  change (alloc Built3.ykey_name _ _) with (Built3.declared_y D).
  fold xd yd.
  rewrite add_frequency3_spec by (intros; by apply Hc). simpl.
  rewrite add_once_per_day3_spec. simpl.
  rewrite add_room_clash3_spec. simpl.
  rewrite add_professor_clash3_spec by (intros; by apply Hc). simpl.
  rewrite add_link3_spec. simpl.
  rewrite add_objective3_spec. simpl.
  rewrite !add_all_app. unfold Built3.built, Built3.families.
  fold xd yd nC nD nS nR. by rewrite <- ?app_assoc.
Qed.
End script3.

(** ** What the three-index families force on a feasible assignment *)

Lemma elem_of_family {A} (l : list A) (F : A → BoundedLinearExpression) i :
  i ∈ l → F i ∈ (l ≫= λ i, [F i]).
Proof.
  intros Hi. apply list_elem_of_bind. exists i. split; [|done].
  by apply list_elem_of_singleton.
Qed.

Lemma elem_of_family2 {A B} (l : list A) (k : list B)
    (F : A → B → BoundedLinearExpression) i j :
  i ∈ l → j ∈ k → F i j ∈ (l ≫= λ i, k ≫= λ j, [F i j]).
Proof.
  intros Hi Hj. apply list_elem_of_bind. exists i. split; [|done].
  by apply elem_of_family.
Qed.

Lemma elem_of_family3 {A B C} (l : list A) (k : list B) (h : list C)
    (F : A → B → C → BoundedLinearExpression) i j n :
  i ∈ l → j ∈ k → n ∈ h → F i j n ∈ (l ≫= λ i, k ≫= λ j, h ≫= λ n, [F i j n]).
Proof.
  intros Hi Hj Hn. apply list_elem_of_bind. exists i. split; [|done].
  by apply elem_of_family2.
Qed.

Lemma all_bool_add_all `{Countable K} (d : gmap K nat) cts m :
  all_bool d m → all_bool d (add_all cts m).
Proof. done. Qed.

Lemma sum_eq_sound a vs k m :
  feasible m a = true → (∀ v, v ∈ vs → is_bit (a v)) →
  EqC (sum (Var <$> vs)) (Const k) ∈ constraints m →
  Z.of_nat (count_true a vs) = k.
Proof.
  intros Hf Hb Hin. apply (feasible_holds _ _ _ Hf), holds_EqC in Hin.
  rewrite eval_sum_vars, total_count in Hin by done. done.
Qed.

Lemma sum_le1_sound a vs m :
  feasible m a = true → (∀ v, v ∈ vs → is_bit (a v)) →
  LeC (sum (Var <$> vs)) (Const 1) ∈ constraints m →
  (count_true a vs ≤ 1)%nat.
Proof.
  intros Hf Hb Hin. apply (feasible_holds _ _ _ Hf), holds_LeC in Hin.
  rewrite eval_sum_vars, total_count in Hin by done. simpl in Hin. lia.
Qed.

Section sound3.
Variable x : gmap (nat * nat * nat) nat.
Variables nC nS nR : nat.
Variable m : CpModel.
Variable a : nat → Z.
Hypothesis x_covers :
  ∀ c s r, c < nC → s < nS → r < nR → is_Some (x !! (c, s, r)).
Hypothesis x_bool : all_bool x m.
Hypothesis a_feasible : feasible m a = true.

Lemma X3_bit c s r :
  c < nC → s < nS → r < nR → is_bit (a (Shape3.X x c s r)).
Proof.
  intros Hc Hs Hr. eapply feasible_all_bool; [done..|].
  by apply x_lookup_X with (nC := nC) (nS := nS) (nR := nR).
Qed.

Lemma course_vars3_bit c v :
  c < nC → v ∈ Shape3.course_vars x nS nR c → is_bit (a v).
Proof.
  intros Hc (s & (r & ->%list_elem_of_singleton & Hr%elem_of_range)%list_elem_of_bind
    & Hs%elem_of_range)%list_elem_of_bind.
  by apply X3_bit.
Qed.

Lemma room_vars3_bit s r v :
  s < nS → r < nR → v ∈ Shape3.room_vars x nC s r → is_bit (a v).
Proof.
  intros Hs Hr (c & ->%list_elem_of_singleton & Hc%elem_of_range)%list_elem_of_bind.
  by apply X3_bit.
Qed.

Lemma teacher_vars3_bit owner t s v :
  s < nS → v ∈ Shape3.teacher_vars x nC nR owner t s → is_bit (a v).
Proof.
  intros Hs (c & Hv & Hc%elem_of_range)%list_elem_of_bind.
  case_decide; [|by apply elem_of_nil in Hv].
  apply list_elem_of_bind in Hv as (r & ->%list_elem_of_singleton & Hr%elem_of_range).
  by apply X3_bit.
Qed.

(** Exactly one placement per course. *)
Lemma exactly_once_sound c :
  c < nC → Shape3.exactly_once_ct x nS nR c ∈ constraints m →
  count_true a (Shape3.course_vars x nS nR c) = 1.
Proof.
  intros Hc Hin. apply Nat2Z.inj.
  eapply sum_eq_sound; [done| |done]. intros v. by apply course_vars3_bit.
Qed.

(** At most one course per room and slot. *)
Lemma room_clash_sound s r :
  s < nS → r < nR → Shape3.room_clash_ct x nC s r ∈ constraints m →
  (count_true a (Shape3.room_vars x nC s r) ≤ 1)%nat.
Proof.
  intros Hs Hr Hin. eapply sum_le1_sound; [done| |done].
  intros v. by apply room_vars3_bit.
Qed.

(** At most one course per teacher and slot. *)
Lemma teacher_clash_sound owner t s :
  s < nS → Shape3.teacher_clash_ct x nC nR owner t s ∈ constraints m →
  (count_true a (Shape3.teacher_vars x nC nR owner t s) ≤ 1)%nat.
Proof.
  intros Hs Hin. eapply sum_le1_sound; [done| |done].
  intros v. by apply teacher_vars3_bit.
Qed.
End sound3.

(** ** What the families of the third script force on a feasible assignment *)

Section sound4.
Variable x : gmap (nat * nat * nat * nat) nat.
Variable y : gmap (nat * nat) nat.
Variables nC nD nS nR : nat.
Variable m : CpModel.
Variable a : nat → Z.
Hypothesis x_covers :
  ∀ c d s r, c < nC → d < nD → s < nS → r < nR → is_Some (x !! (c, d, s, r)).
Hypothesis y_covers : ∀ d s, d < nD → s < nS → is_Some (y !! (d, s)).
Hypothesis x_bool : all_bool x m.
Hypothesis y_bool : all_bool y m.
Hypothesis a_feasible : feasible m a = true.

Lemma X4_bit c d s r :
  c < nC → d < nD → s < nS → r < nR → is_bit (a (Shape4.X x c d s r)).
Proof.
  intros Hc Hd Hs Hr. destruct (x_covers c d s r) as [v Hv]; [done..|].
  unfold Shape4.X. rewrite lookup_total_alt, Hv. simpl.
  eapply (feasible_all_bool x); eauto.
Qed.

Lemma Y4_bit d s : d < nD → s < nS → is_bit (a (Shape4.Y y d s)).
Proof.
  intros Hd Hs. destruct (y_covers d s) as [v Hv]; [done..|].
  unfold Shape4.Y. rewrite lookup_total_alt, Hv. simpl.
  eapply (feasible_all_bool y); eauto.
Qed.

Lemma day_vars_bit c d v :
  c < nC → d < nD → v ∈ Shape4.day_vars x nS nR c d → is_bit (a v).
Proof.
  intros Hc Hd (s & (r & ->%list_elem_of_singleton & Hr%elem_of_range)%list_elem_of_bind
    & Hs%elem_of_range)%list_elem_of_bind.
  by apply X4_bit.
Qed.

Lemma course_vars_bit c v :
  c < nC → v ∈ Shape4.course_vars x nD nS nR c → is_bit (a v).
Proof.
  intros Hc (d & Hv & Hd%elem_of_range)%list_elem_of_bind.
  by apply (day_vars_bit c d).
Qed.

Lemma room_vars_bit d s r v :
  d < nD → s < nS → r < nR → v ∈ Shape4.room_vars x nC d s r → is_bit (a v).
Proof.
  intros Hd Hs Hr (c & ->%list_elem_of_singleton & Hc%elem_of_range)%list_elem_of_bind.
  by apply X4_bit.
Qed.

Lemma professor_vars_bit owner p d s v :
  d < nD → s < nS → v ∈ Shape4.professor_vars x nC nR owner p d s →
  is_bit (a v).
Proof.
  intros Hd Hs (c & Hv & Hc%elem_of_range)%list_elem_of_bind.
  case_decide; [|by apply elem_of_nil in Hv].
  apply list_elem_of_bind in Hv as (r & ->%list_elem_of_singleton & Hr%elem_of_range).
  by apply X4_bit.
Qed.

Lemma slot_vars_bit d s v :
  d < nD → s < nS → v ∈ Shape4.slot_vars x nC nR d s → is_bit (a v).
Proof.
  intros Hd Hs (c & (r & ->%list_elem_of_singleton & Hr%elem_of_range)%list_elem_of_bind
    & Hc%elem_of_range)%list_elem_of_bind.
  by apply X4_bit.
Qed.

Lemma elem_of_slot_vars c d s r :
  c < nC → r < nR → Shape4.X x c d s r ∈ Shape4.slot_vars x nC nR d s.
Proof.
  intros Hc Hr. apply list_elem_of_bind. exists c.
  split; [|by apply elem_of_range].
  apply list_elem_of_bind. exists r. split; [|by apply elem_of_range].
  by apply list_elem_of_singleton.
Qed.

(** The number of placements of a course is its declared frequency. *)
Lemma frequency_sound freq c :
  c < nC → Shape4.frequency_ct x nD nS nR freq c ∈ constraints m →
  Z.of_nat (count_true a (Shape4.course_vars x nD nS nR c)) = freq c.
Proof.
  intros Hc Hin. eapply sum_eq_sound; [done| |done].
  intros v. by apply course_vars_bit.
Qed.

(** At most one placement of a course on a day. *)
Lemma once_per_day_sound c d :
  c < nC → d < nD → Shape4.once_per_day_ct x nS nR c d ∈ constraints m →
  (count_true a (Shape4.day_vars x nS nR c d) ≤ 1)%nat.
Proof.
  intros Hc Hd Hin. eapply sum_le1_sound; [done| |done].
  intros v. by apply day_vars_bit.
Qed.

(** At most one course in a room at a day and slot. *)
Lemma room_clash4_sound d s r :
  d < nD → s < nS → r < nR →
  Shape4.room_clash_ct x nC d s r ∈ constraints m →
  (count_true a (Shape4.room_vars x nC d s r) ≤ 1)%nat.
Proof.
  intros Hd Hs Hr Hin. eapply sum_le1_sound; [done| |done].
  intros v. by apply room_vars_bit.
Qed.

(** At most one course of a professor at a day and slot. *)
Lemma professor_clash_sound owner p d s :
  d < nD → s < nS →
  Shape4.professor_clash_ct x nC nR owner p d s ∈ constraints m →
  (count_true a (Shape4.professor_vars x nC nR owner p d s) ≤ 1)%nat.
Proof.
  intros Hd Hs Hin. eapply sum_le1_sound; [done| |done].
  intros v. by apply professor_vars_bit.
Qed.

(** The link constraint: a placement at (d, s) forces [y[d,s] = 1],
    whatever the positive-or-not constant M is. *)
Lemma link_sound M c d s r :
  c < nC → d < nD → s < nS → r < nR →
  Shape4.link_ct x y nC nR M d s ∈ constraints m →
  a (Shape4.X x c d s r) = 1%Z → a (Shape4.Y y d s) = 1%Z.
Proof.
  intros Hc Hd Hs Hr Hin Hx.
  apply (feasible_holds _ _ _ a_feasible), holds_LeC in Hin.
  rewrite eval_sum_vars in Hin. simpl in Hin.
  assert (a (Shape4.X x c d s r) ≤ total a (Shape4.slot_vars x nC nR d s))%Z.
  { apply total_elem_le; [|by apply elem_of_slot_vars].
    intros v. by apply slot_vars_bit. }
  destruct (Y4_bit d s Hd Hs) as [Hy|Hy]; [|done].
  rewrite Hy in Hin. lia.
Qed.

(** An empty slot is the only way to have [y[d,s] = 0]. *)
Lemma link_unused M c d s r :
  c < nC → d < nD → s < nS → r < nR →
  Shape4.link_ct x y nC nR M d s ∈ constraints m →
  a (Shape4.Y y d s) = 0%Z → a (Shape4.X x c d s r) = 0%Z.
Proof.
  intros Hc Hd Hs Hr Hin Hy.
  destruct (X4_bit c d s r Hc Hd Hs Hr) as [Hx|Hx]; [done|].
  rewrite (link_sound M c d s r) in Hy by done. done.
Qed.

End sound4.

(** ** Facts about the built models *)

Lemma built1_constraints D :
  constraints (Timetable1.model (Built1.built D)) = Built1.families D.
Proof.
  unfold Built1.built, Built1.declared. simpl. by rewrite alloc_constraints.
Qed.

Lemma built1_bool D :
  all_bool (Timetable1.x (Built1.built D)) (Timetable1.model (Built1.built D)).
Proof. apply (all_bool_add_all _ _ _ (declared1_all_bool D)). Qed.

Lemma built2_constraints D ct :
  constraints (Timetable2.model (Built2.built D ct)) = Built2.families D ct.
Proof.
  unfold Built2.built, Built2.declared. simpl. by rewrite alloc_constraints.
Qed.

Lemma built2_bool D ct :
  all_bool (Timetable2.x (Built2.built D ct))
           (Timetable2.model (Built2.built D ct)).
Proof. apply (all_bool_add_all _ _ _ (declared2_all_bool D)). Qed.

Lemma built3_constraints D :
  constraints (Timetable3.model (Built3.built D)) = Built3.families D.
Proof.
  assert (constraints (Built3.declared_y D).2 = []) as Hnil.
  { unfold Built3.declared_y. rewrite alloc_constraints. simpl.
    unfold Built3.declared_x. by rewrite alloc_constraints. }
  unfold Built3.built. simpl. by rewrite Hnil.
Qed.

Lemma built3_x_bool D :
  all_bool (Timetable3.x (Built3.built D)) (Timetable3.model (Built3.built D)).
Proof. apply declared3_x_bool. Qed.

Lemma built3_y_bool D :
  all_bool (Timetable3.y (Built3.built D)) (Timetable3.model (Built3.built D)).
Proof. apply declared3_y_bool. Qed.

Lemma built3_x_covers D c d s r :
  c < Timetable3.num_courses D → d < Timetable3.num_days D →
  s < Timetable3.max_slots_per_day D → r < Timetable3.num_rooms D →
  is_Some (Timetable3.x (Built3.built D) !! (c, d, s, r)).
Proof. intros. simpl. rewrite declared3_x_covers by done. eauto. Qed.

Lemma built3_y_covers D d s :
  d < Timetable3.num_days D → s < Timetable3.max_slots_per_day D →
  is_Some (Timetable3.y (Built3.built D) !! (d, s)).
Proof. intros. simpl. rewrite declared3_y_covers by done. eauto. Qed.

(** Distinct index tuples hold distinct variables, and in the third
    script no usage indicator is an assignment variable. *)
Lemma built1_x_inj D k1 k2 v :
  Timetable1.x (Built1.built D) !! k1 = Some v →
  Timetable1.x (Built1.built D) !! k2 = Some v → k1 = k2.
Proof. apply alloc_one_to_one, one_to_one_empty. Qed.

Lemma built2_x_inj D ct k1 k2 v :
  Timetable2.x (Built2.built D ct) !! k1 = Some v →
  Timetable2.x (Built2.built D ct) !! k2 = Some v → k1 = k2.
Proof. apply alloc_one_to_one, one_to_one_empty. Qed.

Lemma built3_x_inj D k1 k2 v :
  Timetable3.x (Built3.built D) !! k1 = Some v →
  Timetable3.x (Built3.built D) !! k2 = Some v → k1 = k2.
Proof. apply alloc_one_to_one, one_to_one_empty. Qed.

Lemma built3_y_inj D k1 k2 v :
  Timetable3.y (Built3.built D) !! k1 = Some v →
  Timetable3.y (Built3.built D) !! k2 = Some v → k1 = k2.
Proof. apply alloc_one_to_one, one_to_one_empty. Qed.

Lemma built3_xy_apart D kx ky vx vy :
  Timetable3.x (Built3.built D) !! kx = Some vx →
  Timetable3.y (Built3.built D) !! ky = Some vy → vx < vy.
Proof.
  intros Hx Hy.
  assert (vx < length (variables (Built3.declared_x D).2)) as Hlt.
  { eapply (alloc_one_to_one Built3.xkey_name); [apply one_to_one_empty|done]. }
  assert (length (variables (Built3.declared_x D).2) ≤ vy)%nat; [|lia].
  eapply (alloc_above Built3.ykey_name); [| |exact Hy]; simpl; [|done].
  intros k v. by rewrite lookup_empty.
Qed.

(** The script's own data give every course a frequency and a professor. *)
Lemma data3_complete : Built3.complete Timetable3.data.
Proof.
  intros c Hc. do 6 (destruct c as [|c]; [split; eexists; reflexivity|]).
  vm_compute in Hc. lia.
Qed.

(** ** The claims *)

(** C1.  For every course the model holds the constraint "sum of the
    course's variables over all slots (days, periods) and rooms ==
    frequency", and every feasible assignment places the course exactly
    that many times.  The frequency is 1 in the first two scripts and
    [course_freq[c]] in the third. *)
Theorem frequency_constraint_law :
  (∀ D c, c < length (Timetable1.courses D) →
     ∃ g, Timetable1.build D = Ok g ∧
       Shape3.exactly_once_ct (Timetable1.x g)
         (length (Timetable1.slots D)) (length (Timetable1.rooms D)) c
         ∈ constraints (Timetable1.model g) ∧
       ∀ a, feasible (Timetable1.model g) a = true →
         count_true a (Shape3.course_vars (Timetable1.x g)
           (length (Timetable1.slots D)) (length (Timetable1.rooms D)) c) = 1)
  ∧ (∀ D rng c, 0 < length (Timetable2.teachers D) →
       c < length (Timetable2.courses D) →
       ∃ g, Timetable2.setup D rng = Ok g ∧
         Shape3.exactly_once_ct (Timetable2.x g)
           (length (Timetable2.slots D)) (length (Timetable2.rooms D)) c
           ∈ constraints (Timetable2.model g) ∧
         ∀ a, feasible (Timetable2.model g) a = true →
           count_true a (Shape3.course_vars (Timetable2.x g)
             (length (Timetable2.slots D)) (length (Timetable2.rooms D)) c) = 1)
  ∧ (∀ D c, Built3.complete D → c < Timetable3.num_courses D →
       ∃ g, Timetable3.build D = Ok g ∧
         Shape4.frequency_ct (Timetable3.x g) (Timetable3.num_days D)
           (Timetable3.max_slots_per_day D) (Timetable3.num_rooms D)
           (Built3.freq D) c
           ∈ constraints (Timetable3.model g) ∧
         ∀ a, feasible (Timetable3.model g) a = true →
           Z.of_nat (count_true a (Shape4.course_vars (Timetable3.x g)
             (Timetable3.num_days D) (Timetable3.max_slots_per_day D)
             (Timetable3.num_rooms D) c)) = Built3.freq D c).
Proof.
  split; [|split].
  - intros D c Hc. exists (Built1.built D). split; [apply build1_spec|].
    assert (Shape3.exactly_once_ct (Timetable1.x (Built1.built D))
              (length (Timetable1.slots D)) (length (Timetable1.rooms D)) c
            ∈ constraints (Timetable1.model (Built1.built D))) as Hin.
    { rewrite built1_constraints. apply elem_of_app. left.
      apply elem_of_family. by apply elem_of_range. }
    split; [done|]. intros a Ha.
    eapply exactly_once_sound; eauto using built1_bool.
    intros. by apply declared1_covers.
  - intros D rng c HT Hc. eexists. split; [by apply setup2_spec|].
    set (g := Built2.built D _).
    assert (Shape3.exactly_once_ct (Timetable2.x g)
              (length (Timetable2.slots D)) (length (Timetable2.rooms D)) c
            ∈ constraints (Timetable2.model g)) as Hin.
    { unfold g. rewrite built2_constraints. apply elem_of_app. left.
      apply elem_of_family. by apply elem_of_range. }
    split; [done|]. intros a Ha.
    eapply exactly_once_sound; eauto using built2_bool.
    intros. by apply declared2_covers.
  - intros D c Hcomp Hc. exists (Built3.built D).
    split; [by apply build3_spec|].
    assert (Shape4.frequency_ct (Timetable3.x (Built3.built D))
              (Timetable3.num_days D) (Timetable3.max_slots_per_day D)
              (Timetable3.num_rooms D) (Built3.freq D) c
            ∈ constraints (Timetable3.model (Built3.built D))) as Hin.
    { rewrite built3_constraints. apply elem_of_app. left.
      apply elem_of_family. by apply elem_of_range. }
    split; [done|]. intros a Ha.
    eapply frequency_sound; eauto using built3_x_bool, built3_x_covers.
Qed.

(** C1 at the scripts' own data: course 0 of each script. *)
Lemma frequency_constraint_law_witness :
  (∃ g, Timetable1.build Timetable1.data = Ok g ∧
     Shape3.exactly_once_ct (Timetable1.x g) 2 2 0
       ∈ constraints (Timetable1.model g) ∧
     ∀ a, feasible (Timetable1.model g) a = true →
       count_true a (Shape3.course_vars (Timetable1.x g) 2 2 0) = 1)
  ∧ (∃ g, Timetable2.setup Timetable2.data (λ k, k) = Ok g ∧
       Shape3.exactly_once_ct (Timetable2.x g) 8 5 0
         ∈ constraints (Timetable2.model g) ∧
       ∀ a, feasible (Timetable2.model g) a = true →
         count_true a (Shape3.course_vars (Timetable2.x g) 8 5 0) = 1)
  ∧ (∃ g, Timetable3.build Timetable3.data = Ok g ∧
       Shape4.frequency_ct (Timetable3.x g) 5 6 3
         (Built3.freq Timetable3.data) 0
         ∈ constraints (Timetable3.model g) ∧
       ∀ a, feasible (Timetable3.model g) a = true →
         Z.of_nat (count_true a
           (Shape4.course_vars (Timetable3.x g) 5 6 3 0)) = 3%Z).
Proof.
  split; [|split].
  - apply (proj1 frequency_constraint_law Timetable1.data 0). simpl. lia.
  - apply (proj1 (proj2 frequency_constraint_law) Timetable2.data (λ k, k) 0);
      vm_compute; lia.
  - apply (proj2 (proj2 frequency_constraint_law) Timetable3.data 0).
    + apply data3_complete.
    + vm_compute. lia.
Defined.

(** C7.  Every built model holds, for every slot (day and period) and
    room, the constraint "sum over all courses of the variables of that
    slot and room <= 1", and every feasible assignment puts at most one
    course there. *)
Theorem room_exclusivity :
  (∀ D s r, s < length (Timetable1.slots D) → r < length (Timetable1.rooms D) →
     ∃ g, Timetable1.build D = Ok g ∧
       Shape3.room_clash_ct (Timetable1.x g) (length (Timetable1.courses D)) s r
         ∈ constraints (Timetable1.model g) ∧
       ∀ a, feasible (Timetable1.model g) a = true →
         (count_true a (Shape3.room_vars (Timetable1.x g)
            (length (Timetable1.courses D)) s r) ≤ 1)%nat)
  ∧ (∀ D rng s r, 0 < length (Timetable2.teachers D) →
       s < length (Timetable2.slots D) → r < length (Timetable2.rooms D) →
       ∃ g, Timetable2.setup D rng = Ok g ∧
         Shape3.room_clash_ct (Timetable2.x g) (length (Timetable2.courses D)) s r
           ∈ constraints (Timetable2.model g) ∧
         ∀ a, feasible (Timetable2.model g) a = true →
           (count_true a (Shape3.room_vars (Timetable2.x g)
              (length (Timetable2.courses D)) s r) ≤ 1)%nat)
  ∧ (∀ D d s r, Built3.complete D → d < Timetable3.num_days D →
       s < Timetable3.max_slots_per_day D → r < Timetable3.num_rooms D →
       ∃ g, Timetable3.build D = Ok g ∧
         Shape4.room_clash_ct (Timetable3.x g) (Timetable3.num_courses D) d s r
           ∈ constraints (Timetable3.model g) ∧
         ∀ a, feasible (Timetable3.model g) a = true →
           (count_true a (Shape4.room_vars (Timetable3.x g)
              (Timetable3.num_courses D) d s r) ≤ 1)%nat).
Proof.
  split; [|split].
  - intros D s r Hs Hr. exists (Built1.built D). split; [apply build1_spec|].
    assert (Shape3.room_clash_ct (Timetable1.x (Built1.built D))
              (length (Timetable1.courses D)) s r
            ∈ constraints (Timetable1.model (Built1.built D))) as Hin.
    { rewrite built1_constraints. apply elem_of_app. right.
      apply elem_of_family2; by apply elem_of_range. }
    split; [done|]. intros a Ha.
    eapply room_clash_sound; eauto using built1_bool.
    intros. by apply declared1_covers.
  - intros D rng s r HT Hs Hr. eexists. split; [by apply setup2_spec|].
    set (g := Built2.built D _).
    assert (Shape3.room_clash_ct (Timetable2.x g)
              (length (Timetable2.courses D)) s r
            ∈ constraints (Timetable2.model g)) as Hin.
    { unfold g. rewrite built2_constraints. apply elem_of_app. right.
      apply elem_of_app. left. apply elem_of_family2; by apply elem_of_range. }
    split; [done|]. intros a Ha.
    eapply room_clash_sound; eauto using built2_bool.
    intros. by apply declared2_covers.
  - intros D d s r Hcomp Hd Hs Hr. exists (Built3.built D).
    split; [by apply build3_spec|].
    assert (Shape4.room_clash_ct (Timetable3.x (Built3.built D))
              (Timetable3.num_courses D) d s r
            ∈ constraints (Timetable3.model (Built3.built D))) as Hin.
    { rewrite built3_constraints. apply elem_of_app. right.
      apply elem_of_app. right. apply elem_of_app. left.
      apply elem_of_family3; by apply elem_of_range. }
    split; [done|]. intros a Ha.
    eapply room_clash4_sound; eauto using built3_x_bool, built3_x_covers.
Qed.

(** C7 at the scripts' own data: the first slot and room of each script. *)
Lemma room_exclusivity_witness :
  (∃ g, Timetable1.build Timetable1.data = Ok g ∧
     Shape3.room_clash_ct (Timetable1.x g) 2 0 0
       ∈ constraints (Timetable1.model g) ∧
     ∀ a, feasible (Timetable1.model g) a = true →
       (count_true a (Shape3.room_vars (Timetable1.x g) 2 0 0) ≤ 1)%nat)
  ∧ (∃ g, Timetable2.setup Timetable2.data (λ k, k) = Ok g ∧
       Shape3.room_clash_ct (Timetable2.x g) 20 0 0
         ∈ constraints (Timetable2.model g) ∧
       ∀ a, feasible (Timetable2.model g) a = true →
         (count_true a (Shape3.room_vars (Timetable2.x g) 20 0 0) ≤ 1)%nat)
  ∧ (∃ g, Timetable3.build Timetable3.data = Ok g ∧
       Shape4.room_clash_ct (Timetable3.x g) 6 0 0 0
         ∈ constraints (Timetable3.model g) ∧
       ∀ a, feasible (Timetable3.model g) a = true →
         (count_true a (Shape4.room_vars (Timetable3.x g) 6 0 0 0) ≤ 1)%nat).
Proof.
  split; [|split].
  - apply (proj1 room_exclusivity Timetable1.data 0 0); simpl; lia.
  - apply (proj1 (proj2 room_exclusivity) Timetable2.data (λ k, k) 0 0);
      vm_compute; lia.
  - apply (proj2 (proj2 room_exclusivity) Timetable3.data 0 0 0);
      [apply data3_complete|vm_compute; lia..].
Defined.

(** C8.  In the model with a day axis (third script), for every course c
    and day d there is the constraint "sum over periods and rooms of
    x[c,d,p,r] <= 1", and no feasible assignment places a course twice on
    one day. *)
Theorem one_session_per_day (D : Timetable3.Data) (c d : nat) :
  Built3.complete D →
  c < Timetable3.num_courses D → d < Timetable3.num_days D →
  ∃ g, Timetable3.build D = Ok g ∧
    Shape4.once_per_day_ct (Timetable3.x g)
      (Timetable3.max_slots_per_day D) (Timetable3.num_rooms D) c d
      ∈ constraints (Timetable3.model g) ∧
    ∀ a, feasible (Timetable3.model g) a = true →
      (count_true a (Shape4.day_vars (Timetable3.x g)
         (Timetable3.max_slots_per_day D) (Timetable3.num_rooms D) c d)
       ≤ 1)%nat.
Proof.
  intros Hcomp Hc Hd. exists (Built3.built D).
  split; [by apply build3_spec|].
  assert (Shape4.once_per_day_ct (Timetable3.x (Built3.built D))
            (Timetable3.max_slots_per_day D) (Timetable3.num_rooms D) c d
          ∈ constraints (Timetable3.model (Built3.built D))) as Hin.
  { rewrite built3_constraints. apply elem_of_app. right.
    apply elem_of_app. left. apply elem_of_family2; by apply elem_of_range. }
  split; [done|]. intros a Ha.
  eapply once_per_day_sound; eauto using built3_x_bool, built3_x_covers.
Qed.

(** C8 at the script's data: Course1 on Monday. *)
Lemma one_session_per_day_witness :
  ∃ g, Timetable3.build Timetable3.data = Ok g ∧
    Shape4.once_per_day_ct (Timetable3.x g) 6 3 0 0
      ∈ constraints (Timetable3.model g) ∧
    ∀ a, feasible (Timetable3.model g) a = true →
      (count_true a (Shape4.day_vars (Timetable3.x g) 6 3 0 0) ≤ 1)%nat.
Proof.
  apply (one_session_per_day Timetable3.data 0 0);
    [apply data3_complete|vm_compute; lia..].
Defined.

(** C6.  For each slot (d, s) the third script adds
    "sum over all courses and rooms of x[c,d,s,r] <= bigM * y[d,s]" with
    bigM = (number of courses) * (number of rooms), and under this
    constraint every feasible assignment with some x[c,d,s,r] = 1 has
    y[d,s] = 1. *)
Theorem link_forces_usage (D : Timetable3.Data) (d s : nat) :
  Built3.complete D →
  d < Timetable3.num_days D → s < Timetable3.max_slots_per_day D →
  ∃ g, Timetable3.build D = Ok g ∧
    Shape4.link_ct (Timetable3.x g) (Timetable3.y g)
      (Timetable3.num_courses D) (Timetable3.num_rooms D)
      (Z.of_nat (Timetable3.num_courses D) * Z.of_nat (Timetable3.num_rooms D))
      d s
      ∈ constraints (Timetable3.model g) ∧
    ∀ a, feasible (Timetable3.model g) a = true →
      ∀ c r, c < Timetable3.num_courses D → r < Timetable3.num_rooms D →
        a (Shape4.X (Timetable3.x g) c d s r) = 1%Z →
        a (Shape4.Y (Timetable3.y g) d s) = 1%Z.
Proof.
  intros Hcomp Hd Hs. exists (Built3.built D).
  split; [by apply build3_spec|].
  assert (Shape4.link_ct (Timetable3.x (Built3.built D))
            (Timetable3.y (Built3.built D))
            (Timetable3.num_courses D) (Timetable3.num_rooms D)
            (Timetable3.bigM D) d s
          ∈ constraints (Timetable3.model (Built3.built D))) as Hin.
  { rewrite built3_constraints. do 4 (apply elem_of_app; right).
    apply elem_of_family2; by apply elem_of_range. }
  split; [done|]. intros a Ha c r Hc Hr.
  eapply link_sound; eauto using built3_x_bool, built3_y_bool,
    built3_x_covers, built3_y_covers.
Qed.

(** C6 at the script's data: the first slot of Monday, bigM = 6 * 3. *)
Lemma link_forces_usage_witness :
  ∃ g, Timetable3.build Timetable3.data = Ok g ∧
    Shape4.link_ct (Timetable3.x g) (Timetable3.y g) 6 3 18 0 0
      ∈ constraints (Timetable3.model g) ∧
    ∀ a, feasible (Timetable3.model g) a = true →
      ∀ c r, c < 6 → r < 3 →
        a (Shape4.X (Timetable3.x g) c 0 0 r) = 1%Z →
        a (Shape4.Y (Timetable3.y g) 0 0) = 1%Z.
Proof.
  apply (link_forces_usage Timetable3.data 0 0);
    [apply data3_complete|vm_compute; lia..].
Defined.

(** C2, as stated, fails on the first script: its model holds no teacher
    constraint for teacher 0 in slot 0 whatever the ownership of courses,
    and it has a feasible assignment that puts both courses in the same
    slot (so a teacher owning both would be placed twice). *)
Lemma first_script_has_no_teacher_family :
  ∃ g, Timetable1.build Timetable1.data = Ok g ∧
    (¬ ∃ owner, Shape3.teacher_clash_ct (Timetable1.x g) 2 2 owner 0 0
                  ∈ constraints (Timetable1.model g)) ∧
    ∃ a, feasible (Timetable1.model g) a = true ∧
      count_true a (Shape3.teacher_vars (Timetable1.x g) 2 2 (λ _, 0%Z) 0 0) = 2.
Proof.
  exists (Built1.built Timetable1.data). split; [apply build1_spec|]. split.
  - intros [owner Hin]. rewrite built1_constraints in Hin.
    unfold Shape3.teacher_clash_ct, Shape3.teacher_vars in Hin.
    simpl in Hin. repeat case_decide;
      vm_compute in Hin;
      repeat (apply elem_of_cons in Hin as [Hin|Hin]; [discriminate Hin|]);
      by apply elem_of_nil in Hin.
  - exists both_in_the_morning. split; vm_compute; reflexivity.
Qed.

(** C2, amended.  The second and third scripts add, for every teacher
    (professor) t and slot, the constraint "sum over the courses owned
    by t and all rooms <= 1", and no feasible assignment places a teacher
    twice in a slot.  The first script declares teachers but adds only the
    exactly-once and room families. *)
Theorem teacher_exclusivity :
  (∀ D rng t s, 0 < length (Timetable2.teachers D) →
     t < length (Timetable2.teachers D) → s < length (Timetable2.slots D) →
     ∃ g, Timetable2.setup D rng = Ok g ∧
       Shape3.teacher_clash_ct (Timetable2.x g)
         (length (Timetable2.courses D)) (length (Timetable2.rooms D))
         (λ c, Timetable2.course_teacher g !!! c) t s
         ∈ constraints (Timetable2.model g) ∧
       ∀ a, feasible (Timetable2.model g) a = true →
         (count_true a (Shape3.teacher_vars (Timetable2.x g)
            (length (Timetable2.courses D)) (length (Timetable2.rooms D))
            (λ c, Timetable2.course_teacher g !!! c) t s) ≤ 1)%nat)
  ∧ (∀ D p d s, Built3.complete D → p < length (Timetable3.professors D) →
       d < Timetable3.num_days D → s < Timetable3.max_slots_per_day D →
       ∃ g, Timetable3.build D = Ok g ∧
         Shape4.professor_clash_ct (Timetable3.x g)
           (Timetable3.num_courses D) (Timetable3.num_rooms D)
           (Built3.owner D) p d s
           ∈ constraints (Timetable3.model g) ∧
         ∀ a, feasible (Timetable3.model g) a = true →
           (count_true a (Shape4.professor_vars (Timetable3.x g)
              (Timetable3.num_courses D) (Timetable3.num_rooms D)
              (Built3.owner D) p d s) ≤ 1)%nat)
  ∧ (∀ D, ∃ g, Timetable1.build D = Ok g ∧
       constraints (Timetable1.model g)
       = Shape3.exactly_once_family (Timetable1.x g)
           (length (Timetable1.courses D)) (length (Timetable1.slots D))
           (length (Timetable1.rooms D))
         ++ Shape3.room_clash_family (Timetable1.x g)
           (length (Timetable1.courses D)) (length (Timetable1.slots D))
           (length (Timetable1.rooms D))).
Proof.
  split; [|split].
  - intros D rng t s HT Ht Hs. eexists. split; [by apply setup2_spec|].
    set (g := Built2.built D _).
    assert (Shape3.teacher_clash_ct (Timetable2.x g)
              (length (Timetable2.courses D)) (length (Timetable2.rooms D))
              (λ c, Timetable2.course_teacher g !!! c) t s
            ∈ constraints (Timetable2.model g)) as Hin.
    { unfold g. rewrite built2_constraints. do 2 (apply elem_of_app; right).
      apply (elem_of_family2 _ _
        (Shape3.teacher_clash_ct _ _ _ _)); by apply elem_of_range. }
    split; [done|]. intros a Ha.
    eapply teacher_clash_sound; eauto using built2_bool.
    intros. by apply declared2_covers.
  - intros D p d s Hcomp Hp Hd Hs. exists (Built3.built D).
    split; [by apply build3_spec|].
    assert (Shape4.professor_clash_ct (Timetable3.x (Built3.built D))
              (Timetable3.num_courses D) (Timetable3.num_rooms D)
              (Built3.owner D) p d s
            ∈ constraints (Timetable3.model (Built3.built D))) as Hin.
    { rewrite built3_constraints. do 3 (apply elem_of_app; right).
      apply elem_of_app. left.
      apply (elem_of_family3 _ _ _
        (Shape4.professor_clash_ct _ _ _ _)); by apply elem_of_range. }
    split; [done|]. intros a Ha.
    eapply professor_clash_sound; eauto using built3_x_bool, built3_x_covers.
  - intros D. exists (Built1.built D). split; [apply build1_spec|].
    apply built1_constraints.
Qed.

(** C2 (amended) at the scripts' own data: Teacher A in Slot1, Prof1 in
    the first slot of Monday. *)
Lemma teacher_exclusivity_witness :
  (∃ g, Timetable2.setup Timetable2.data (λ k, k) = Ok g ∧
     Shape3.teacher_clash_ct (Timetable2.x g) 20 5
       (λ c, Timetable2.course_teacher g !!! c) 0 0
       ∈ constraints (Timetable2.model g) ∧
     ∀ a, feasible (Timetable2.model g) a = true →
       (count_true a (Shape3.teacher_vars (Timetable2.x g) 20 5
          (λ c, Timetable2.course_teacher g !!! c) 0 0) ≤ 1)%nat)
  ∧ (∃ g, Timetable3.build Timetable3.data = Ok g ∧
       Shape4.professor_clash_ct (Timetable3.x g) 6 3
         (Built3.owner Timetable3.data) 0 0 0
         ∈ constraints (Timetable3.model g) ∧
       ∀ a, feasible (Timetable3.model g) a = true →
         (count_true a (Shape4.professor_vars (Timetable3.x g) 6 3
            (Built3.owner Timetable3.data) 0 0 0) ≤ 1)%nat).
Proof.
  split.
  - apply (proj1 teacher_exclusivity Timetable2.data (λ k, k) 0 0);
      vm_compute; lia.
  - apply (proj1 (proj2 teacher_exclusivity) Timetable3.data 0 0 0);
      [apply data3_complete|vm_compute; lia..].
Defined.

(** ** The branch without solution *)

Lemma main1_no_solution D solver w g :
  Timetable1.build D = Ok g →
  ¬ solved (status (solver (Timetable1.model g))) →
  Timetable1.main D solver w
  = Ok {| stdout := stdout w ++ ["No feasible solution."];
          solve_calls := solve_calls w ++ [Timetable1.model g];
          value_reads := value_reads w |}.
Proof.
  intros Hb Hs. unfold Timetable1.main. rewrite Hb. simpl.
  case_decide; [by destruct Hs|done].
Qed.

Lemma main2_no_solution D rng solver w g :
  Timetable2.setup D rng = Ok g →
  ¬ solved (status (solver (Timetable2.model g))) →
  Timetable2.main D rng solver w
  = Ok {| stdout := stdout w ++ ["No feasible solution found."];
          solve_calls := solve_calls w ++ [Timetable2.model g];
          value_reads := value_reads w |}.
Proof.
  intros Hb Hs. unfold Timetable2.main. rewrite Hb. simpl.
  case_decide; [by destruct Hs|done].
Qed.

Lemma main3_no_solution D solver w g :
  Timetable3.build D = Ok g →
  ¬ solved (status (solver (Timetable3.model g))) →
  Timetable3.main D solver w
  = Ok {| stdout := stdout w ++ [Timetable3.no_solution];
          solve_calls := solve_calls w ++ [Timetable3.model g];
          value_reads := value_reads w |}.
Proof.
  intros Hb Hs. unfold Timetable3.main. rewrite Hb. simpl.
  case_decide; [by destruct Hs|done].
Qed.


(** C3, as stated, fails: the script's own model has a feasible
    assignment with [y[4,0] = 1] although no course is placed in the first
    slot of Friday. *)
Lemma usage_indicator_set_on_empty_slot :
  ∃ g a, Timetable3.build Timetable3.data = Ok g ∧
    feasible (Timetable3.model g) a = true ∧
    a (Shape4.Y (Timetable3.y g) 4 0) = 1%Z ∧
    ∀ c r, c < 6 → r < 3 → a (Shape4.X (Timetable3.x g) c 4 0 r) = 0%Z.
Proof.
  exists (Built3.built Timetable3.data), one_slot_per_course.
  split; [apply build3_spec, data3_complete|].
  split; [vm_compute; reflexivity|]. split; [vm_compute; reflexivity|].
  intros c r Hc Hr.
  do 6 (destruct c as [|c];
        [do 3 (destruct r as [|r]; [vm_compute; reflexivity|]); lia|]).
  lia.
Qed.

(** C3, amended.  In every feasible assignment of the model with usage
    indicators, a course placed in slot (d, s) forces [y[d,s] = 1], and
    [y[d,s] = 0] leaves the slot empty.  Nothing is claimed in the other
    direction. *)
Theorem usage_indicator_one_way (D : Timetable3.Data) (d s : nat) :
  Built3.complete D →
  d < Timetable3.num_days D → s < Timetable3.max_slots_per_day D →
  ∃ g, Timetable3.build D = Ok g ∧
    ∀ a, feasible (Timetable3.model g) a = true →
      ((∃ c r, c < Timetable3.num_courses D ∧ r < Timetable3.num_rooms D ∧
               a (Shape4.X (Timetable3.x g) c d s r) = 1%Z) →
       a (Shape4.Y (Timetable3.y g) d s) = 1%Z)
      ∧ (a (Shape4.Y (Timetable3.y g) d s) = 0%Z →
         ∀ c r, c < Timetable3.num_courses D → r < Timetable3.num_rooms D →
           a (Shape4.X (Timetable3.x g) c d s r) = 0%Z).
Proof.
  intros Hcomp Hd Hs. exists (Built3.built D).
  split; [by apply build3_spec|]. intros a Ha.
  assert (Shape4.link_ct (Timetable3.x (Built3.built D))
            (Timetable3.y (Built3.built D))
            (Timetable3.num_courses D) (Timetable3.num_rooms D)
            (Timetable3.bigM D) d s
          ∈ constraints (Timetable3.model (Built3.built D))) as Hin.
  { rewrite built3_constraints. do 4 (apply elem_of_app; right).
    apply elem_of_family2; by apply elem_of_range. }
  split.
  - intros (c & r & Hc & Hr & Hx).
    eapply link_sound; eauto using built3_x_bool, built3_y_bool,
      built3_x_covers, built3_y_covers.
  - intros Hy c r Hc Hr.
    eapply link_unused; eauto using built3_x_bool, built3_y_bool,
      built3_x_covers, built3_y_covers.
Qed.

(** C3 (amended) at the script's data: the first slot of Friday. *)
Lemma usage_indicator_one_way_witness :
  ∃ g, Timetable3.build Timetable3.data = Ok g ∧
    ∀ a, feasible (Timetable3.model g) a = true →
      ((∃ c r, c < 6 ∧ r < 3 ∧ a (Shape4.X (Timetable3.x g) c 4 0 r) = 1%Z) →
       a (Shape4.Y (Timetable3.y g) 4 0) = 1%Z)
      ∧ (a (Shape4.Y (Timetable3.y g) 4 0) = 0%Z →
         ∀ c r, c < 6 → r < 3 → a (Shape4.X (Timetable3.x g) c 4 0 r) = 0%Z).
Proof.
  apply (usage_indicator_one_way Timetable3.data 4 0);
    [apply data3_complete|vm_compute; lia..].
Defined.




(** ** Printing *)

Lemma emit_nil w : emit [] [] w = w.
Proof. destruct w. unfold emit. simpl. by rewrite !app_nil_r. Qed.

Lemma emit_emit l1 r1 l2 r2 w :
  emit l2 r2 (emit l1 r1 w) = emit (l1 ++ l2) (r1 ++ r2) w.
Proof. unfold emit. simpl. by rewrite !app_assoc. Qed.

Lemma print_emit s w : print s w = emit [s] [] w.
Proof. unfold print, emit. by rewrite app_nil_r. Qed.

Lemma Value_emit resp v w : (Value resp v w).2 = emit [] [v] w.
Proof. unfold Value, emit. simpl. by rewrite app_nil_r. Qed.

(** A fold whose steps only print and read prints and reads the
    concatenation. *)
Lemma foldl_emit {A} (f : world → A → world) (L : A → list string)
    (R : A → list nat) (ks : list A) w :
  (∀ w k, k ∈ ks → f w k = emit (L k) (R k) w) →
  foldl f w ks = emit (ks ≫= L) (ks ≫= R) w.
Proof.
  revert w; induction ks as [|k ks IH]; intros w Hf; simpl.
  - by rewrite emit_nil.
  - rewrite Hf by left. rewrite IH by (intros; apply Hf; by right).
    by rewrite emit_emit.
Qed.

Lemma index_text_at (l : list string) i :
  i < length l → index l i = Ok (text_at l i).
Proof.
  intros Hi. destruct (lookup_lt_is_Some_2 l i Hi) as [v Hv].
  unfold index, text_at. by rewrite Hv.
Qed.

Lemma index_int_text_at (l : list string) z :
  (0 ≤ z < Z.of_nat (length l))%Z → index_int l z = Ok (text_at_int l z).
Proof.
  intros Hz. unfold text_at_int, index_int.
  destruct (0 <=? z)%Z eqn:E; [|lia].
  rewrite index_text_at by lia. done.
Qed.

(** *** The first script *)

Section print1.
Import Timetable1.
Variable D : Data.
Variable resp : CpSolverResponse.
Let g := Built1.built D.

Lemma placement_line1 c s r :
  c < length (courses D) → s < length (slots D) → r < length (rooms D) →
  placement_line D c s r = Ok (Out1.line D (c, s, r)).
Proof.
  intros Hc Hs Hr. unfold placement_line.
  rewrite !index_text_at by done. done.
Qed.

Lemma print_timetable1_spec w :
  print_timetable D g resp w
  = Ok (emit ("Timetable:" :: Out1.placements D (x g) resp)
             (Out1.reads D (x g)) w).
Proof.
  unfold print_timetable.
  rewrite for3_foldl with
    (f := λ w k, emit (if (solution resp (x g !!! k) =? 1)%Z
                       then [Out1.line D k] else []) [x g !!! k] w).
  - rewrite foldl_emit with
      (L := λ k, if (solution resp (x g !!! k) =? 1)%Z
                 then [Out1.line D k] else [])
      (R := λ k, [x g !!! k]) by done.
    rewrite print_emit, emit_emit. done.
  - intros c s r w' Hc Hs Hr.
    rewrite getitem_total by (by apply declared1_covers). simpl.
    destruct (solution resp _ =? 1)%Z.
    + rewrite placement_line1 by done. simpl.
      unfold print, emit. simpl. by rewrite ?app_nil_r.
    + unfold emit. simpl. by rewrite ?app_nil_r.
Qed.
End print1.

(** *** The second script *)

Section print2.
Import Timetable2.
Variable D : Data.
Variable rng : nat → nat.
Variable resp : CpSolverResponse.
Hypothesis has_teachers : 0 < length (teachers D).
Let g := Built2.built D (Built2.drawn D rng (length (courses D))).

(** The lookup [teachers[course_teacher[c]]] made while printing is in
    bounds. *)
Lemma teacher_lookup2 c :
  c < length (courses D) →
  ∃ t, course_teacher g !! c = Some t ∧ (0 ≤ t < Z.of_nat (length (teachers D)))%Z
       ∧ index_int (teachers D) t = Ok (text_at_int (teachers D) t).
Proof.
  intros Hc.
  destruct (drawn_lookup D rng (length (courses D)) c has_teachers Hc)
    as (t & Ht & Hr).
  exists t. split; [done|]. split; [done|]. by apply index_int_text_at.
Qed.

Lemma placement_line2 c s r :
  c < length (courses D) → s < length (slots D) → r < length (rooms D) →
  placement_line D g c s r = Ok (Out2.line D g (c, s, r)).
Proof.
  intros Hc Hs Hr. unfold placement_line, Out2.line.
  destruct (teacher_lookup2 c Hc) as (t & Ht & _ & Hi).
  assert (course_teacher g !!! c = t) as Htot.
  { by rewrite lookup_total_alt, Ht. }
  rewrite (getitem_Some _ _ _ Ht). simpl. rewrite Hi. simpl.
  rewrite !index_text_at by done. simpl. simpl in Htot.
  by rewrite Htot.
Qed.

Lemma print_timetable2_spec w :
  print_timetable D g resp w
  = Ok (emit (("Generated Timetable:" +:+ nl) :: Out2.placements D g resp)
             (Out2.reads D g) w).
Proof.
  unfold print_timetable.
  rewrite for3_foldl with
    (f := λ w k, emit (if (solution resp (x g !!! k) =? 1)%Z
                       then [Out2.line D g k] else []) [x g !!! k] w).
  - rewrite foldl_emit with
      (L := λ k, if (solution resp (x g !!! k) =? 1)%Z
                 then [Out2.line D g k] else [])
      (R := λ k, [x g !!! k]) by done.
    rewrite print_emit, emit_emit. done.
  - intros c s r w' Hc Hs Hr.
    rewrite getitem_total by (by apply declared2_covers). simpl.
    destruct (solution resp _ =? 1)%Z.
    + rewrite placement_line2 by done. simpl.
      unfold print, emit. simpl. by rewrite ?app_nil_r.
    + unfold emit. simpl. by rewrite ?app_nil_r.
Qed.
End print2.

(** *** Whole runs of the first two scripts *)

Lemma main1_solved D solver :
  solved (status (solver (Timetable1.model (Built1.built D)))) →
  Timetable1.main D solver boot
  = Ok {| stdout := "Timetable:"
            :: Out1.placements D (Timetable1.x (Built1.built D))
                 (solver (Timetable1.model (Built1.built D)));
          solve_calls := [Timetable1.model (Built1.built D)];
          value_reads := Out1.reads D (Timetable1.x (Built1.built D)) |}.
Proof.
  intros Hs. unfold Timetable1.main. rewrite build1_spec. simpl.
  case_decide; [|done]. by rewrite print_timetable1_spec.
Qed.

Lemma main2_solved D rng solver :
  0 < length (Timetable2.teachers D) →
  let g := Built2.built D (Built2.drawn D rng (length (Timetable2.courses D))) in
  solved (status (solver (Timetable2.model g))) →
  Timetable2.main D rng solver boot
  = Ok {| stdout := ("Generated Timetable:" +:+ nl)
            :: Out2.placements D g (solver (Timetable2.model g));
          solve_calls := [Timetable2.model g];
          value_reads := Out2.reads D g |}.
Proof.
  intros HT g Hs. unfold Timetable2.main. rewrite setup2_spec by done. simpl.
  case_decide; [|done]. by rewrite print_timetable2_spec.
Qed.

(** *** The third script *)

Lemma extends_refl w : extends w w.
Proof. exists [], []. by rewrite emit_nil. Qed.

Lemma extends_trans w1 w2 w3 : extends w1 w2 → extends w2 w3 → extends w1 w3.
Proof.
  intros (l1 & r1 & ->) (l2 & r2 & ->). rewrite emit_emit. by eexists _, _.
Qed.

Lemma extends_print s w : extends w (print s w).
Proof. exists [s], []. apply print_emit. Qed.

Lemma extends_Value resp v w : extends w (Value resp v w).2.
Proof. exists [], [v]. apply Value_emit. Qed.

Lemma for_break_rel {A S} (R : S → S → Prop) (l : list A)
    (body : A → S → result (bool * S)) s :
  (∀ s, R s s) → (∀ s1 s2 s3, R s1 s2 → R s2 s3 → R s1 s3) →
  (∀ a s, a ∈ l → ∃ b s', body a s = Ok (b, s') ∧ R s s') →
  ∃ s', for_break l body s = Ok s' ∧ R s s'.
Proof.
  intros Hrefl Htrans. revert s; induction l as [|a l IH]; intros s Hb; simpl.
  - eauto.
  - destruct (Hb a s) as (b & s1 & -> & H1); [by left|].
    destruct b; [eauto|].
    destruct (IH s1) as (s2 & -> & H2); [intros; apply Hb; by right|].
    eauto.
Qed.

(** A fold that collects texts and reads values. *)
Lemma foldl_collect {A} (f : list string * world → A → list string * world)
    (L : A → list string) (R : A → list nat) (ks : list A) ps w :
  (∀ ps w k, k ∈ ks → f (ps, w) k = (ps ++ L k, emit [] (R k) w)) →
  foldl f (ps, w) ks = (ps ++ (ks ≫= L), emit [] (ks ≫= R) w).
Proof.
  revert ps w; induction ks as [|k ks IH]; intros ps w Hf; simpl.
  - by rewrite app_nil_r, emit_nil.
  - rewrite Hf by left. rewrite IH by (intros; apply Hf; by right).
    by rewrite emit_emit, <- app_assoc.
Qed.

Section print3.
Import Timetable3.
Variable D : Data.
Variable resp : CpSolverResponse.
Hypothesis D_staffed : Out3.staffed D.
Let g := Built3.built D.
Let nC := num_courses D.
Let nD := num_days D.
Let nS := max_slots_per_day D.
Let nR := num_rooms D.

Lemma x3_getitem c d s r :
  c < nC → d < nD → s < nS → r < nR →
  getitem (x g) (c, d, s, r) = Ok (x g !!! (c, d, s, r)).
Proof. intros. apply getitem_total. by apply built3_x_covers. Qed.

Lemma placement_text3 d s r :
  d < nD → r < nR →
  placement_text D d s r = Ok (Out3.placement D (d, s, r)).
Proof.
  intros Hd Hr. unfold placement_text. rewrite !index_text_at by done. done.
Qed.

Lemma course_loops3 c w :
  c < nC →
  for_ (range (num_days D)) (λ d pw,
    for_ (range (max_slots_per_day D)) (λ s pw,
      for_ (range (num_rooms D)) (λ r (pw : list string * world),
        v ← getitem (x g) (c, d, s, r);
        let '(val, w) := Value resp v pw.2 in
        if (val =? 1)%Z
        then t ← placement_text D d s r; Ok (pw.1 ++ [t], w)
        else Ok (pw.1, w)) pw) pw) ([], w)
  = Ok (Out3.course_placements D g resp c,
        emit [] (Out3.course_reads D g c) w).
Proof.
  intros Hc.
  rewrite for3_foldl with
    (f := λ (pw : list string * world) k,
            (pw.1 ++ (if (solution resp (x g !!! (c, k.1.1, k.1.2, k.2)) =? 1)%Z
                      then [Out3.placement D k] else []),
             emit [] [x g !!! (c, k.1.1, k.1.2, k.2)] pw.2)).
  - by rewrite foldl_collect with
      (L := λ k, if (solution resp (x g !!! (c, k.1.1, k.1.2, k.2)) =? 1)%Z
                 then [Out3.placement D k] else [])
      (R := λ k, [x g !!! (c, k.1.1, k.1.2, k.2)]).
  - intros d s r [ps w'] Hd Hs Hr.
    rewrite x3_getitem by done. simpl.
    destruct (solution resp _ =? 1)%Z.
    + rewrite placement_text3 by done. simpl.
      unfold emit. simpl. by rewrite ?app_nil_r.
    + unfold emit. simpl. by rewrite ?app_nil_r.
Qed.

Lemma print_summary3_spec w :
  print_summary D g resp w
  = Ok (emit ("Per-course schedule:" :: Out3.summary D g resp)
             (range nC ≫= Out3.course_reads D g) w).
Proof.
  unfold print_summary.
  rewrite for__foldl with
    (f := λ w c, emit [Out3.summary_line D g resp c] (Out3.course_reads D g c) w).
  - rewrite foldl_emit with
      (L := λ c, [Out3.summary_line D g resp c])
      (R := Out3.course_reads D g) by done.
    by rewrite print_emit, emit_emit.
  - intros c w' Hc%elem_of_range.
    rewrite course_loops3 by done. simpl.
    rewrite index_text_at by done. simpl.
    rewrite print_emit, emit_emit. by rewrite app_nil_r.
Qed.

Lemma grid_probe3 d s r c st :
  c < nC → d < nD → s < nS → r < nR →
  ∃ b st', grid_probe D g resp d s r c st = Ok (b, st')
           ∧ extends st.2 st'.2.
Proof.
  intros Hc Hd Hs Hr. destruct st as [[row found] w].
  unfold grid_probe. rewrite x3_getitem by done. simpl.
  destruct (solution resp _ =? 1)%Z.
  - destruct (D_staffed c Hc) as (p & name & Hp & Hn).
    rewrite (getitem_Some _ _ _ Hp). simpl. rewrite Hn. simpl.
    rewrite !index_text_at by done. simpl.
    eexists _, _. split; [done|]. simpl. apply (extends_Value resp).
  - eexists _, _. split; [done|]. simpl. apply (extends_Value resp).
Qed.

Lemma grid_cell3 d s r rw :
  d < nD → s < nS → r < nR →
  ∃ rw', grid_cell D g resp d s r rw = Ok rw' ∧ extends rw.2 rw'.2.
Proof.
  intros Hd Hs Hr. unfold grid_cell.
  destruct (for_break_rel
    (λ st st' : list string * bool * world, extends st.2 st'.2)
    (range (num_courses D)) (grid_probe D g resp d s r)
    (rw.1, false, rw.2)) as ([[row found] w'] & -> & Hext).
  - intros; apply extends_refl.
  - intros ???; apply extends_trans.
  - intros c st Hc%elem_of_range. by apply grid_probe3.
  - simpl. destruct found; [eexists; split; done|].
    rewrite index_text_at by done. simpl. eexists; split; done.
Qed.

Lemma print_grid3 w :
  ∃ w', print_grid D g resp w = Ok w' ∧ extends w w'.
Proof.
  unfold print_grid. apply for__rel.
  - apply extends_refl.
  - apply extends_trans.
  - intros d w1 Hd%elem_of_range.
    rewrite index_text_at by done. simpl.
    match goal with
    | |- context [for_ ?l ?b ?s] =>
        destruct (for__rel extends l b s) as (w2 & Hw2 & Hext)
    end.
    + apply extends_refl.
    + apply extends_trans.
    + intros s w2 Hs%elem_of_range.
      rewrite getitem_total by (by apply built3_y_covers). simpl.
      destruct (solution resp _ =? 0)%Z.
      * eexists. split; [done|]. apply (extends_Value resp).
      * match goal with
        | |- context [for_ ?l ?b ?s] =>
            destruct (for__rel
              (λ rw rw' : list string * world, extends rw.2 rw'.2) l b s)
              as (rw & Hrw & Hext)
        end.
        -- intros; apply extends_refl.
        -- intros ???; apply extends_trans.
        -- intros r rw Hr%elem_of_range. by apply grid_cell3.
        -- rewrite Hrw. simpl. eexists. split; [done|].
           eapply extends_trans; [apply (extends_Value resp)|].
           eapply extends_trans; [apply Hext|]. apply extends_print.
    + rewrite Hw2. simpl. eexists. split; [done|].
      eapply extends_trans; [apply extends_print|].
      eapply extends_trans; [apply Hext|]. apply extends_print.
Qed.

(** Under OPTIMAL and FEASIBLE the run prints the header, the grid and
    then the summary of every course. *)
Lemma print_schedule3_spec w :
  ∃ grid reads,
    print_schedule D g resp w
    = Ok (emit (Out3.header :: grid ++ "Per-course schedule:"
                  :: Out3.summary D g resp) reads w).
Proof.
  unfold print_schedule.
  destruct (print_grid3 (print Out3.header w)) as (w1 & Hg & (l & r & ->)).
  unfold Out3.header in Hg. rewrite Hg. simpl.
  rewrite print_summary3_spec, print_emit, !emit_emit.
  eexists l, _. simpl. done.
Qed.
End print3.

Lemma main3_solved D solver :
  Built3.complete D → Out3.staffed D →
  solved (status (solver (Timetable3.model (Built3.built D)))) →
  ∃ grid reads,
    Timetable3.main D solver boot
    = Ok {| stdout := Out3.header :: grid ++ "Per-course schedule:"
              :: Out3.summary D (Built3.built D)
                   (solver (Timetable3.model (Built3.built D)));
            solve_calls := [Timetable3.model (Built3.built D)];
            value_reads := reads |}.
Proof.
  intros Hc Hst Hs. unfold Timetable3.main. rewrite build3_spec by done. simpl.
  case_decide; [|done].
  edestruct (print_schedule3_spec D) as (grid & reads & ->); [done|].
  by exists grid, reads.
Qed.

Lemma data3_staffed : Out3.staffed Timetable3.data.
Proof.
  intros c Hc.
  do 6 (destruct c as [|c]; [eexists _, _; split; reflexivity|]).
  vm_compute in Hc. lia.
Qed.

(** C9.  Each script prints placements exactly under OPTIMAL and FEASIBLE:
    then the output is the header followed by one placement per variable
    the solver set to 1 (third script: the grid, then the placements of
    every course); under any other status the output is the single
    no-solution message and no variable value is read.  The model is
    handed to the solver once in both cases. *)
Theorem placements_iff_solved :
  (∀ D solver, ∃ g, Timetable1.build D = Ok g ∧
     (solved (status (solver (Timetable1.model g))) →
        Timetable1.main D solver boot
        = Ok {| stdout := "Timetable:"
                  :: Out1.placements D (Timetable1.x g)
                       (solver (Timetable1.model g));
                solve_calls := [Timetable1.model g];
                value_reads := Out1.reads D (Timetable1.x g) |})
     ∧ (¬ solved (status (solver (Timetable1.model g))) →
        Timetable1.main D solver boot
        = Ok {| stdout := ["No feasible solution."];
                solve_calls := [Timetable1.model g];
                value_reads := [] |}))
  ∧ (∀ D rng solver, 0 < length (Timetable2.teachers D) →
       ∃ g, Timetable2.setup D rng = Ok g ∧
         (solved (status (solver (Timetable2.model g))) →
            Timetable2.main D rng solver boot
            = Ok {| stdout := ("Generated Timetable:" +:+ nl)
                      :: Out2.placements D g (solver (Timetable2.model g));
                    solve_calls := [Timetable2.model g];
                    value_reads := Out2.reads D g |})
         ∧ (¬ solved (status (solver (Timetable2.model g))) →
            Timetable2.main D rng solver boot
            = Ok {| stdout := ["No feasible solution found."];
                    solve_calls := [Timetable2.model g];
                    value_reads := [] |}))
  ∧ (∀ D solver, Built3.complete D → Out3.staffed D →
       ∃ g, Timetable3.build D = Ok g ∧
         (solved (status (solver (Timetable3.model g))) →
            ∃ grid reads,
              Timetable3.main D solver boot
              = Ok {| stdout := Out3.header :: grid ++ "Per-course schedule:"
                        :: Out3.summary D g (solver (Timetable3.model g));
                      solve_calls := [Timetable3.model g];
                      value_reads := reads |})
         ∧ (¬ solved (status (solver (Timetable3.model g))) →
            Timetable3.main D solver boot
            = Ok {| stdout := [Timetable3.no_solution];
                    solve_calls := [Timetable3.model g];
                    value_reads := [] |})).
Proof.
  split; [|split].
  - intros D solver. exists (Built1.built D). split; [apply build1_spec|].
    split; [apply main1_solved|].
    intros Hs. erewrite main1_no_solution; [done|apply build1_spec|done].
  - intros D rng solver HT. eexists. split; [by apply setup2_spec|].
    split; [by apply main2_solved|].
    intros Hs. erewrite main2_no_solution; [done|by apply setup2_spec|done].
  - intros D solver Hc Hst. exists (Built3.built D).
    split; [by apply build3_spec|].
    split; [by apply main3_solved|].
    intros Hs. erewrite main3_no_solution; [done|by apply build3_spec|done].
Qed.

(** C9 at the scripts' own data, with a solver that reports
    INFEASIBLE. *)
Lemma placements_iff_solved_witness :
  (∃ g, Timetable2.setup Timetable2.data (λ k, k) = Ok g ∧
     (solved (status (reports_infeasible (Timetable2.model g))) →
        Timetable2.main Timetable2.data (λ k, k) reports_infeasible boot
        = Ok {| stdout := ("Generated Timetable:" +:+ nl)
                  :: Out2.placements Timetable2.data g
                       (reports_infeasible (Timetable2.model g));
                solve_calls := [Timetable2.model g];
                value_reads := Out2.reads Timetable2.data g |})
     ∧ (¬ solved (status (reports_infeasible (Timetable2.model g))) →
        Timetable2.main Timetable2.data (λ k, k) reports_infeasible boot
        = Ok {| stdout := ["No feasible solution found."];
                solve_calls := [Timetable2.model g];
                value_reads := [] |}))
  ∧ (∃ g, Timetable3.build Timetable3.data = Ok g ∧
       (solved (status (reports_infeasible (Timetable3.model g))) →
          ∃ grid reads,
            Timetable3.main Timetable3.data reports_infeasible boot
            = Ok {| stdout := Out3.header :: grid ++ "Per-course schedule:"
                      :: Out3.summary Timetable3.data g
                           (reports_infeasible (Timetable3.model g));
                    solve_calls := [Timetable3.model g];
                    value_reads := reads |})
       ∧ (¬ solved (status (reports_infeasible (Timetable3.model g))) →
          Timetable3.main Timetable3.data reports_infeasible boot
          = Ok {| stdout := [Timetable3.no_solution];
                  solve_calls := [Timetable3.model g];
                  value_reads := [] |})).
Proof.
  split.
  - apply (proj1 (proj2 placements_iff_solved) Timetable2.data (λ k, k)
             reports_infeasible).
    vm_compute. lia.
  - apply (proj2 (proj2 placements_iff_solved) Timetable3.data
             reports_infeasible data3_complete data3_staffed).
Defined.

(** C10.  In the second script every course gets a teacher index in
    0..len(teachers)-1, so [teachers[course_teacher[c]]] is in bounds and
    the placement line of every (course, slot, room) is produced without
    an exception, whatever the draws. *)
Theorem course_teacher_in_bounds (D : Timetable2.Data) (rng : nat → nat) :
  0 < length (Timetable2.teachers D) →
  ∃ g, Timetable2.setup D rng = Ok g ∧
    Timetable2.assign_teachers D rng = Ok (Timetable2.course_teacher g) ∧
    ∀ c, c < length (Timetable2.courses D) →
      ∃ t name,
        Timetable2.course_teacher g !! c = Some t ∧
        (0 ≤ t ≤ Z.of_nat (length (Timetable2.teachers D)) - 1)%Z ∧
        index_int (Timetable2.teachers D) t = Ok name ∧
        ∀ s r, s < length (Timetable2.slots D) →
               r < length (Timetable2.rooms D) →
          ∃ line, Timetable2.placement_line D g c s r = Ok line.
Proof.
  intros HT. eexists. split; [by apply setup2_spec|].
  split; [by apply assign_teachers_spec|].
  intros c Hc. destruct (teacher_lookup2 D rng HT c Hc) as (t & Ht & Hr & Hi).
  exists t, (text_at_int (Timetable2.teachers D) t).
  split; [done|]. split; [lia|]. split; [done|].
  intros s r Hs Hr'. eexists. by apply placement_line2.
Qed.

(** C10 at the script's data, with the draws 0, 1, 2, ... *)
Lemma course_teacher_in_bounds_witness :
  ∃ g, Timetable2.setup Timetable2.data (λ k, k) = Ok g ∧
    Timetable2.assign_teachers Timetable2.data (λ k, k)
    = Ok (Timetable2.course_teacher g) ∧
    ∀ c, c < length (Timetable2.courses Timetable2.data) →
      ∃ t name,
        Timetable2.course_teacher g !! c = Some t ∧
        (0 ≤ t ≤ Z.of_nat (length (Timetable2.teachers Timetable2.data)) - 1)%Z ∧
        index_int (Timetable2.teachers Timetable2.data) t = Ok name ∧
        ∀ s r, s < length (Timetable2.slots Timetable2.data) →
               r < length (Timetable2.rooms Timetable2.data) →
          ∃ line, Timetable2.placement_line Timetable2.data g c s r = Ok line.
Proof.
  apply (course_teacher_in_bounds Timetable2.data (λ k, k)). vm_compute. lia.
Defined.

(** ** Two runs of a script *)







(** * Further properties of the scripts *)

(** ** Order and number of the variables *)

Lemma bind_range_length {B} (f : nat → list B) n m :
  (∀ a, a < n → length (f a) = m) → length (range n ≫= f) = n * m.
Proof.
  unfold range. induction n as [|n IH]; intros Hf; [done|].
  rewrite seq_S, bind_app, length_app, IH by (intros; apply Hf; lia).
  simpl. rewrite app_nil_r, Hf by lia. lia.
Qed.

Lemma bind_range_lookup {B} (f : nat → list B) n m a j :
  (∀ a, a < n → length (f a) = m) → a < n → j < m →
  (range n ≫= f) !! (a * m + j) = f a !! j.
Proof.
  unfold range. induction n as [|n IH]; intros Hf Ha Hj; [lia|].
  rewrite seq_S, bind_app. simpl. rewrite app_nil_r.
  pose proof (bind_range_length f n m) as Hlen. unfold range in Hlen.
  destruct (decide (a = n)) as [->|Hne].
  - rewrite lookup_app_r by (rewrite Hlen by (intros; apply Hf; lia); lia).
    rewrite Hlen by (intros; apply Hf; lia). f_equal. lia.
  - rewrite lookup_app_l.
    + apply IH; [intros; apply Hf; lia|lia|done].
    + rewrite Hlen by (intros; apply Hf; lia). nia.
Qed.

Lemma alloc_snoc `{Countable K} (name : K → string) ks k
    (dm : gmap K nat * CpModel) :
  alloc name (ks ++ [k]) dm = alloc1 name (alloc name ks dm) k.
Proof. unfold alloc. by rewrite foldl_app. Qed.

(** The i-th key of a run without repetition gets the i-th fresh
    variable. *)
Lemma alloc_lookup_index `{Countable K} (name : K → string) (ks : list K)
    (dm : gmap K nat * CpModel) i k :
  NoDup ks → ks !! i = Some k →
  (alloc name ks dm).1 !! k = Some (length (variables dm.2) + i).
Proof.
  revert i k. induction ks as [|k' ks IH] using rev_ind; intros i k Hnd Hi;
    [done|].
  rewrite alloc_snoc. simpl.
  apply NoDup_app in Hnd as (Hnd & Hnot & _).
  destruct (decide (i = length ks)) as [->|Hne].
  - rewrite list_lookup_middle in Hi by done. injection Hi as <-.
    rewrite lookup_insert_eq, alloc_variables, length_app, length_fmap. done.
  - assert (i < length ks).
    { apply lookup_lt_Some in Hi. rewrite length_app in Hi. simpl in Hi. lia. }
    rewrite lookup_app_l in Hi by done.
    rewrite lookup_insert_ne; [by apply IH|].
    intros <-. apply (Hnot k'); [by eapply list_elem_of_lookup_2|by left].
Qed.

Lemma alloc_named `{Countable K} (name : K → string) (ks : list K)
    (dm : gmap K nat * CpModel) i k :
  ks !! i = Some k →
  variables (alloc name ks dm).2 !! (length (variables dm.2) + i)
  = Some (bool_var (name k)).
Proof.
  intros Hi. rewrite alloc_variables, lookup_app_r by lia.
  replace (length (variables dm.2) + i - length (variables dm.2)) with i by lia.
  by rewrite list_lookup_fmap, Hi.
Qed.

Section keys3.
Variables nC nS nR : nat.


Lemma keys3_lookup c s r :
  c < nC → s < nS → r < nR →
  Shape3.keys nC nS nR !! ((c * nS + s) * nR + r) = Some (c, s, r).
Proof.
  intros Hc Hs Hr. unfold Shape3.keys.
  replace ((c * nS + s) * nR + r) with (c * (nS * nR) + (s * nR + r)) by lia.
  rewrite (bind_range_lookup _ nC (nS * nR)); [|intros c' _|done|nia].
  - rewrite (bind_range_lookup _ nS nR); [|intros s' _|done|done].
    + replace r with (r * 1 + 0) at 1 by lia.
      rewrite (bind_range_lookup _ nR 1); [done|done|done|lia].
    + rewrite (bind_range_length _ nR 1); [lia|done].
  - rewrite (bind_range_length _ nS nR); [lia|]. intros s' _.
    rewrite (bind_range_length _ nR 1); [lia|done].
Qed.

Lemma keys3_NoDup : NoDup (Shape3.keys nC nS nR).
Proof.
  unfold Shape3.keys, range. apply NoDup_bind; [| |apply NoDup_seq].
  - intros c1 c2 k _ _
      (s1 & (r1 & ->%list_elem_of_singleton & _)%list_elem_of_bind & _)%list_elem_of_bind
      (s2 & (r2 & [= -> _ _]%list_elem_of_singleton & _)%list_elem_of_bind & _)%list_elem_of_bind.
    done.
  - intros c _. apply NoDup_bind; [| |apply NoDup_seq].
    + intros s1 s2 k _ _
        (r1 & ->%list_elem_of_singleton & _)%list_elem_of_bind
        (r2 & [= -> _]%list_elem_of_singleton & _)%list_elem_of_bind.
      done.
    + intros s _. apply NoDup_bind; [| |apply NoDup_seq].
      * intros r1 r2 k _ _ ->%list_elem_of_singleton [= ->]%list_elem_of_singleton.
        done.
      * intros r _. apply NoDup_singleton.
Qed.
End keys3.

Lemma mixed_radix_lt a j n m : a < n → j < m → a * m + j < n * m.
Proof. nia. Qed.

Section keys4.
Variables nC nD nS nR : nat.






End keys4.

Lemma alloc_fresh `{Countable K} (name : K → string) (ks : list K) i k :
  NoDup ks → ks !! i = Some k →
  (alloc name ks (∅, new_model)).1 !! k = Some i
  ∧ variables (alloc name ks (∅, new_model)).2 !! i = Some (bool_var (name k)).
Proof.
  intros Hnd Hi. split.
  - by rewrite (alloc_lookup_index name ks _ i k).
  - by rewrite <- (alloc_named name ks (∅, new_model) i k).
Qed.






(** ** Counting placements *)

Lemma Zsum_fmap_add {A} (f g : A → Z) (l : list A) :
  Zsum ((λ x, f x + g x)%Z <$> l) = (Zsum (f <$> l) + Zsum (g <$> l))%Z.
Proof.
  induction l as [|x l IH]; [done|].
  rewrite !fmap_cons. simpl. rewrite IH. lia.
Qed.

Lemma Zsum_fmap_zero {A} (l : list A) : Zsum ((λ _, 0%Z) <$> l) = 0%Z.
Proof. induction l as [|x l IH]; [done|]. rewrite fmap_cons. simpl. by rewrite IH. Qed.

Lemma Zsum_fmap_const {A} (l : list A) k :
  Zsum ((λ _, k) <$> l) = (Z.of_nat (length l) * k)%Z.
Proof.
  induction l as [|x l IH]; [simpl; lia|].
  rewrite fmap_cons. simpl length. simpl Zsum. rewrite IH. lia.
Qed.

Lemma Zsum_fmap_ext {A} (f g : A → Z) (l : list A) :
  (∀ x, x ∈ l → f x = g x) → Zsum (f <$> l) = Zsum (g <$> l).
Proof.
  induction l as [|x l IH]; intros Hfg; [done|].
  rewrite !fmap_cons. simpl. rewrite Hfg by left.
  rewrite IH; [done|]. intros; apply Hfg; by right.
Qed.

Lemma Zsum_fmap_le {A} (f g : A → Z) (l : list A) :
  (∀ x, x ∈ l → (f x ≤ g x)%Z) → (Zsum (f <$> l) ≤ Zsum (g <$> l))%Z.
Proof.
  induction l as [|x l IH]; intros Hfg; [done|].
  rewrite !fmap_cons. simpl.
  pose proof (Hfg x ltac:(by left)).
  assert (Zsum (f <$> l) ≤ Zsum (g <$> l))%Z.
  { apply IH. intros; apply Hfg; by right. }
  lia.
Qed.

Lemma Zsum_fmap_mul {A} (f : A → Z) (l : list A) k :
  Zsum ((λ x, k * f x)%Z <$> l) = (k * Zsum (f <$> l))%Z.
Proof.
  induction l as [|x l IH]; [simpl; lia|].
  rewrite !fmap_cons. simpl. rewrite IH. lia.
Qed.

(** Summing rows then columns is summing columns then rows. *)
Lemma Zsum_exchange {A B} (f : A → B → Z) (l1 : list A) (l2 : list B) :
  Zsum ((λ x, Zsum (f x <$> l2)) <$> l1)
  = Zsum ((λ y, Zsum ((λ x, f x y) <$> l1)) <$> l2).
Proof.
  induction l1 as [|x l1 IH].
  - simpl. by rewrite Zsum_fmap_zero.
  - rewrite fmap_cons. simpl. rewrite IH, <- Zsum_fmap_add.
    done.
Qed.

Lemma total_singletons {A} a (l : list A) (g : A → nat) :
  total a (l ≫= λ x, [g x]) = Zsum ((λ x, a (g x)) <$> l).
Proof.
  rewrite total_bind. apply Zsum_fmap_ext. intros x _.
  unfold total. simpl. lia.
Qed.

(** Sum of an indicator-weighted function is the sum over the filter. *)
Lemma Zsum_filter {A} (P : A → Prop) `{∀ x, Decision (P x)} (f : A → Z) l :
  Zsum ((λ x, if decide (P x) then f x else 0%Z) <$> l)
  = Zsum (f <$> filter P l).
Proof.
  induction l as [|x l IH]; [done|].
  rewrite fmap_cons, filter_cons. simpl. rewrite IH.
  case_decide; [by rewrite fmap_cons|done].
Qed.

Lemma length_range n : length (range n) = n.
Proof. unfold range. apply length_seq. Qed.

Section count3.
Variable x : gmap (nat * nat * nat) nat.
Variables nC nS nR : nat.
Variable m : CpModel.
Variable a : nat → Z.
Hypothesis x_covers :
  ∀ c s r, c < nC → s < nS → r < nR → is_Some (x !! (c, s, r)).
Hypothesis x_bool : all_bool x m.
Hypothesis a_feasible : feasible m a = true.

Let V (c s r : nat) : Z := a (Shape3.X x c s r).

Lemma course_total3 c :
  total a (Shape3.course_vars x nS nR c)
  = Zsum ((λ s, Zsum ((λ r, V c s r) <$> range nR)) <$> range nS).
Proof.
  unfold Shape3.course_vars. rewrite total_bind.
  apply Zsum_fmap_ext. intros s _.
  apply (total_singletons a (range nR) (λ r, Shape3.X x c s r)).
Qed.

Lemma room_total3 s r :
  total a (Shape3.room_vars x nC s r) = Zsum ((λ c, V c s r) <$> range nC).
Proof.
  unfold Shape3.room_vars.
  apply (total_singletons a (range nC) (λ c, Shape3.X x c s r)).
Qed.

Lemma teacher_total3 owner t s :
  total a (Shape3.teacher_vars x nC nR owner t s)
  = Zsum ((λ c, if decide (owner c = Z.of_nat t)
                then Zsum ((λ r, V c s r) <$> range nR) else 0%Z)
          <$> range nC).
Proof.
  unfold Shape3.teacher_vars. rewrite total_bind.
  apply Zsum_fmap_ext. intros c _. case_decide; [|done].
  apply (total_singletons a (range nR) (λ r, Shape3.X x c s r)).
Qed.

Hypothesis once :
  ∀ c, c < nC → Shape3.exactly_once_ct x nS nR c ∈ constraints m.

Lemma course_total3_one c :
  c < nC → Zsum ((λ s, Zsum ((λ r, V c s r) <$> range nR)) <$> range nS) = 1%Z.
Proof.
  intros Hc. rewrite <- course_total3.
  pose proof (once c Hc) as Hin.
  apply (feasible_holds _ _ _ a_feasible), holds_EqC in Hin.
  by rewrite eval_sum_vars in Hin.
Qed.

(** Every course takes one (slot, room) pair and no pair takes two
    courses: there are at least as many pairs as courses. *)
Lemma rooms_suffice :
  (∀ s r, s < nS → r < nR → Shape3.room_clash_ct x nC s r ∈ constraints m) →
  (nC ≤ nS * nR)%nat.
Proof.
  intros Hclash.
  assert (Zsum ((λ c, Zsum ((λ s, Zsum ((λ r, V c s r) <$> range nR))
                              <$> range nS)) <$> range nC) = Z.of_nat nC) as HC.
  { rewrite (Zsum_fmap_ext _ (λ _, 1%Z)).
    - rewrite Zsum_fmap_const, length_range. lia.
    - intros c Hc%elem_of_range. by apply course_total3_one. }
  rewrite Zsum_exchange in HC.
  assert (Zsum ((λ s, Zsum ((λ c, Zsum ((λ r, V c s r) <$> range nR))
                              <$> range nC)) <$> range nS)
          ≤ Z.of_nat nS * Z.of_nat nR)%Z as HS; [|lia].
  etrans; [apply (Zsum_fmap_le _ (λ _, Z.of_nat nR))|].
  - intros s Hs%elem_of_range. rewrite Zsum_exchange.
    etrans; [apply (Zsum_fmap_le _ (λ _, 1%Z))|].
    + intros r Hr%elem_of_range. rewrite <- room_total3.
      pose proof (Hclash s r Hs Hr) as Hin.
      apply (feasible_holds _ _ _ a_feasible), holds_LeC in Hin.
      by rewrite eval_sum_vars in Hin.
    + rewrite Zsum_fmap_const, length_range. lia.
  - rewrite Zsum_fmap_const, length_range. lia.
Qed.

(** A teacher gives at most one course per slot: no teacher owns more
    courses than there are slots. *)
Lemma slots_suffice owner t :
  (∀ s, s < nS → Shape3.teacher_clash_ct x nC nR owner t s ∈ constraints m) →
  (length (filter (λ c, owner c = Z.of_nat t) (range nC)) ≤ nS)%nat.
Proof.
  intros Hclash.
  assert (Zsum ((λ s, total a (Shape3.teacher_vars x nC nR owner t s))
                <$> range nS) ≤ Z.of_nat nS)%Z as HS.
  { etrans; [apply (Zsum_fmap_le _ (λ _, 1%Z))|].
    - intros s Hs%elem_of_range.
      pose proof (Hclash s Hs) as Hin.
      apply (feasible_holds _ _ _ a_feasible), holds_LeC in Hin.
      by rewrite eval_sum_vars in Hin.
    - rewrite Zsum_fmap_const, length_range. lia. }
  rewrite (Zsum_fmap_ext _ _ _ (λ s _, teacher_total3 owner t s)) in HS.
  rewrite Zsum_exchange in HS.
  rewrite (Zsum_fmap_ext _
    (λ c, if decide (owner c = Z.of_nat t) then 1%Z else 0%Z)) in HS.
  - rewrite (Zsum_filter (λ c, owner c = Z.of_nat t) (λ _, 1%Z)) in HS.
    rewrite Zsum_fmap_const in HS. lia.
  - intros c Hc%elem_of_range. case_decide.
    + by apply course_total3_one.
    + apply Zsum_fmap_zero.
Qed.
End count3.

Lemma Zsum_fmap_guard {A} (b : Prop) `{Decision b} (f : A → Z) (l : list A) :
  (if decide b then Zsum (f <$> l) else 0%Z)
  = Zsum ((λ x, if decide b then f x else 0%Z) <$> l).
Proof. case_decide; [done|]. by rewrite Zsum_fmap_zero. Qed.

Section count4.
Variable x : gmap (nat * nat * nat * nat) nat.
Variable y : gmap (nat * nat) nat.
Variables nC nD nS nR : nat.
Variable m : CpModel.
Variable a : nat → Z.
Hypothesis a_feasible : feasible m a = true.

Let V (c d s r : nat) : Z := a (Shape4.X x c d s r).

Lemma course_total4 c :
  total a (Shape4.course_vars x nD nS nR c)
  = Zsum ((λ d, Zsum ((λ s, Zsum ((λ r, V c d s r) <$> range nR))
                        <$> range nS)) <$> range nD).
Proof.
  unfold Shape4.course_vars. rewrite total_bind.
  apply Zsum_fmap_ext. intros d _. rewrite total_bind.
  apply Zsum_fmap_ext. intros s _.
  apply (total_singletons a (range nR) (λ r, Shape4.X x c d s r)).
Qed.

Lemma room_total4 d s r :
  total a (Shape4.room_vars x nC d s r) = Zsum ((λ c, V c d s r) <$> range nC).
Proof.
  unfold Shape4.room_vars.
  apply (total_singletons a (range nC) (λ c, Shape4.X x c d s r)).
Qed.

Lemma slot_total4 d s :
  total a (Shape4.slot_vars x nC nR d s)
  = Zsum ((λ c, Zsum ((λ r, V c d s r) <$> range nR)) <$> range nC).
Proof.
  unfold Shape4.slot_vars. rewrite total_bind.
  apply Zsum_fmap_ext. intros c _.
  apply (total_singletons a (range nR) (λ r, Shape4.X x c d s r)).
Qed.

Lemma professor_total4 owner p d s :
  total a (Shape4.professor_vars x nC nR owner p d s)
  = Zsum ((λ c, if decide (owner c = Z.of_nat p)
                then Zsum ((λ r, V c d s r) <$> range nR) else 0%Z)
          <$> range nC).
Proof.
  unfold Shape4.professor_vars. rewrite total_bind.
  apply Zsum_fmap_ext. intros c _. case_decide; [|done].
  apply (total_singletons a (range nR) (λ r, Shape4.X x c d s r)).
Qed.

Lemma used_total4 :
  total a (Shape4.used_vars y nD nS)
  = Zsum ((λ d, Zsum ((λ s, a (Shape4.Y y d s)) <$> range nS)) <$> range nD).
Proof.
  unfold Shape4.used_vars. rewrite total_bind.
  apply Zsum_fmap_ext. intros d _.
  apply (total_singletons a (range nS) (λ s, Shape4.Y y d s)).
Qed.

Variable freq : nat → Z.
Hypothesis frequency :
  ∀ c, c < nC → Shape4.frequency_ct x nD nS nR freq c ∈ constraints m.

Lemma course_total4_freq c :
  c < nC →
  Zsum ((λ d, Zsum ((λ s, Zsum ((λ r, V c d s r) <$> range nR))
                      <$> range nS)) <$> range nD) = freq c.
Proof.
  intros Hc. rewrite <- course_total4.
  pose proof (frequency c Hc) as Hin.
  apply (feasible_holds _ _ _ a_feasible), holds_EqC in Hin.
  by rewrite eval_sum_vars in Hin.
Qed.

(** The sessions of the week, counted slot by slot. *)
Lemma sessions_by_slot :
  Zsum (freq <$> range nC)
  = Zsum ((λ d, Zsum ((λ s, Zsum ((λ c, Zsum ((λ r, V c d s r) <$> range nR))
                                    <$> range nC)) <$> range nS)) <$> range nD).
Proof.
  rewrite <- (Zsum_fmap_ext _ _ _ (λ c Hc, course_total4_freq c
                (proj1 (elem_of_range _ _) Hc))).
  rewrite Zsum_exchange. apply Zsum_fmap_ext. intros d _.
  by rewrite Zsum_exchange.
Qed.

(** Every session takes one (day, slot, room) triple and no triple takes
    two sessions. *)
Lemma week_suffices :
  (∀ d s r, d < nD → s < nS → r < nR →
     Shape4.room_clash_ct x nC d s r ∈ constraints m) →
  (Zsum (freq <$> range nC) ≤ Z.of_nat (nD * nS * nR))%Z.
Proof.
  intros Hclash. rewrite sessions_by_slot.
  etrans; [apply (Zsum_fmap_le _ (λ _, Z.of_nat (nS * nR)))|].
  - intros d Hd%elem_of_range.
    etrans; [apply (Zsum_fmap_le _ (λ _, Z.of_nat nR))|].
    + intros s Hs%elem_of_range. rewrite Zsum_exchange.
      etrans; [apply (Zsum_fmap_le _ (λ _, 1%Z))|].
      * intros r Hr%elem_of_range. rewrite <- room_total4.
        pose proof (Hclash d s r Hd Hs Hr) as Hin.
        apply (feasible_holds _ _ _ a_feasible), holds_LeC in Hin.
        by rewrite eval_sum_vars in Hin.
      * rewrite Zsum_fmap_const, length_range. lia.
    + rewrite Zsum_fmap_const, length_range. lia.
  - rewrite Zsum_fmap_const, length_range. lia.
Qed.

(** A professor gives at most one session per (day, slot). *)
Lemma professor_week_suffices owner p :
  (∀ d s, d < nD → s < nS →
     Shape4.professor_clash_ct x nC nR owner p d s ∈ constraints m) →
  (Zsum (freq <$> filter (λ c, owner c = Z.of_nat p) (range nC))
   ≤ Z.of_nat (nD * nS))%Z.
Proof.
  intros Hclash.
  rewrite <- (Zsum_filter (λ c, owner c = Z.of_nat p) freq).
  rewrite (Zsum_fmap_ext _
    (λ c, Zsum ((λ d, Zsum ((λ s,
       if decide (owner c = Z.of_nat p)
       then Zsum ((λ r, V c d s r) <$> range nR) else 0%Z)
       <$> range nS)) <$> range nD))).
  - rewrite Zsum_exchange.
    etrans; [apply (Zsum_fmap_le _ (λ _, Z.of_nat nS))|].
    + intros d Hd%elem_of_range. rewrite Zsum_exchange.
      etrans; [apply (Zsum_fmap_le _ (λ _, 1%Z))|].
      * intros s Hs%elem_of_range. rewrite <- professor_total4.
        pose proof (Hclash d s Hd Hs) as Hin.
        apply (feasible_holds _ _ _ a_feasible), holds_LeC in Hin.
        by rewrite eval_sum_vars in Hin.
      * rewrite Zsum_fmap_const, length_range. lia.
    + rewrite Zsum_fmap_const, length_range. lia.
  - intros c Hc%elem_of_range. case_decide.
    + by rewrite course_total4_freq.
    + rewrite (Zsum_fmap_ext _ (λ _, 0%Z)); [by rewrite Zsum_fmap_zero|].
      intros d _. by rewrite Zsum_fmap_zero.
Qed.

(** A slot in use holds at most one session per room, a slot not in use
    holds none: the sessions need at least (sessions / rooms) slots. *)
Lemma used_slots_suffice M :
  (∀ d s, d < nD → s < nS → is_bit (a (Shape4.Y y d s))) →
  (∀ d s r, d < nD → s < nS → r < nR →
     Shape4.room_clash_ct x nC d s r ∈ constraints m) →
  (∀ d s, d < nD → s < nS →
     Shape4.link_ct x y nC nR M d s ∈ constraints m) →
  (Zsum (freq <$> range nC)
   ≤ Z.of_nat nR * total a (Shape4.used_vars y nD nS))%Z.
Proof.
  intros Hbit Hclash Hlink. rewrite sessions_by_slot, used_total4.
  rewrite <- Zsum_fmap_mul.
  apply Zsum_fmap_le. intros d Hd%elem_of_range.
  rewrite <- Zsum_fmap_mul.
  apply Zsum_fmap_le. intros s Hs%elem_of_range.
  destruct (Hbit d s Hd Hs) as [Hy|Hy]; rewrite Hy.
  - pose proof (Hlink d s Hd Hs) as Hin.
    apply (feasible_holds _ _ _ a_feasible), holds_LeC in Hin.
    rewrite eval_sum_vars, slot_total4 in Hin. simpl in Hin.
    rewrite Hy in Hin. lia.
  - rewrite Zsum_exchange.
    etrans; [apply (Zsum_fmap_le _ (λ _, 1%Z))|].
    + intros r Hr%elem_of_range. rewrite <- room_total4.
      pose proof (Hclash d s r Hd Hs Hr) as Hin.
      apply (feasible_holds _ _ _ a_feasible), holds_LeC in Hin.
      by rewrite eval_sum_vars in Hin.
    + rewrite Zsum_fmap_const, length_range. lia.
Qed.
End count4.

(** ** What a successful construction returns *)

Lemma build1_inv D g : Timetable1.build D = Ok g → g = Built1.built D.
Proof. rewrite build1_spec. by intros [= <-]. Qed.

Lemma setup2_inv D rng g :
  Timetable2.setup D rng = Ok g →
  g = Built2.built D (Built2.drawn D rng (length (Timetable2.courses D))).
Proof.
  destruct (decide (0 < length (Timetable2.teachers D))) as [HT|HT].
  - rewrite setup2_spec by done. by intros [= <-].
  - destruct (decide (0 < length (Timetable2.courses D))) as [HC|HC].
    + unfold Timetable2.setup.
      rewrite assign_teachers_empty by lia. done.
    + assert (length (Timetable2.courses D) = 0) as Hz by lia.
      unfold Timetable2.setup, Timetable2.assign_teachers.
      rewrite Hz. simpl. rewrite build2_spec by (intros; lia).
      by intros [= <-].
Qed.

Lemma build3_inv D g :
  Built3.complete D → Timetable3.build D = Ok g → g = Built3.built D.
Proof. intros Hc. rewrite build3_spec by done. by intros [= <-]. Qed.

(** X3.  A feasible assignment of the second script's model needs room
    for every course and slots for every teacher: there are at most
    |slots| * |rooms| courses, and no teacher was drawn for more courses
    than there are slots. *)
Theorem second_timetable_needs_rooms_and_teacher_slots
    (D : Timetable2.Data) (rng : nat → nat) (g : Timetable2.globals)
    (a : nat → Z) :
  Timetable2.setup D rng = Ok g →
  feasible (Timetable2.model g) a = true →
  (length (Timetable2.courses D)
   ≤ length (Timetable2.slots D) * length (Timetable2.rooms D))%nat
  ∧ ∀ t, t < length (Timetable2.teachers D) →
      (length (filter (λ c, Timetable2.course_teacher g !!! c = Z.of_nat t)
                      (range (length (Timetable2.courses D))))
       ≤ length (Timetable2.slots D))%nat.
Proof.
  intros ->%setup2_inv Ha. split.
  - eapply (rooms_suffice _ _ _ _ _ a Ha).
    + intros c Hc. rewrite built2_constraints. apply elem_of_app. left.
      apply elem_of_family. by apply elem_of_range.
    + intros s r Hs Hr. rewrite built2_constraints.
      apply elem_of_app. right. apply elem_of_app. left.
      apply elem_of_family2; by apply elem_of_range.
  - intros t Ht.
    eapply (slots_suffice _ _ _ _ _ a Ha).
    + intros c Hc. rewrite built2_constraints. apply elem_of_app. left.
      apply elem_of_family. by apply elem_of_range.
    + intros s Hs. rewrite built2_constraints.
      apply elem_of_app. right. apply elem_of_app. right.
      apply elem_of_family2; by apply elem_of_range.
Qed.

(** X3 at the script's own data, course c drawn for teacher [c mod 10]. *)
Lemma second_timetable_needs_rooms_and_teacher_slots_witness :
  ∃ g, Timetable2.setup Timetable2.data (λ k, k) = Ok g
    ∧ feasible (Timetable2.model g) five_per_slot = true
    ∧ (20 ≤ 8 * 5)%nat
    ∧ ∀ t, t < 10 →
        (length (filter (λ c, Timetable2.course_teacher g !!! c = Z.of_nat t)
                        (range 20)) ≤ 8)%nat.
Proof.
  exists (Built2.built Timetable2.data (Built2.drawn Timetable2.data (λ k, k) 20)).
  assert (Timetable2.setup Timetable2.data (λ k, k)
          = Ok (Built2.built Timetable2.data
                  (Built2.drawn Timetable2.data (λ k, k) 20))) as Hs.
  { apply (setup2_spec Timetable2.data). vm_compute. lia. }
  assert (feasible (Timetable2.model (Built2.built Timetable2.data
            (Built2.drawn Timetable2.data (λ k, k) 20))) five_per_slot = true)
    as Hf.
  { vm_compute. reflexivity. }
  split; [exact Hs|]. split; [exact Hf|].
  exact (second_timetable_needs_rooms_and_teacher_slots
           Timetable2.data (λ k, k) _ five_per_slot Hs Hf).
Defined.

(** ** A timetable for the first script *)

Lemma feasible_intro m a :
  (∀ i v, variables m !! i = Some v → (var_lb v ≤ a i ≤ var_ub v)%Z) →
  (∀ ct, ct ∈ constraints m → holds a ct = true) →
  feasible m a = true.
Proof.
  intros Hd Hc. unfold feasible. apply andb_true_intro. split.
  - apply forallb_forall. intros [i v] Hin%list_elem_of_In.
    apply elem_of_lookup_imap in Hin as (i' & v' & [= -> ->] & Hv).
    unfold in_domain. simpl. specialize (Hd _ _ Hv). lia.
  - apply forallb_forall. intros ct Hin%list_elem_of_In. by apply Hc.
Qed.

Lemma range_S n : range (S n) = range n ++ [n].
Proof. unfold range. by rewrite seq_S. Qed.

Lemma Zsum_indicator_range n k :
  Zsum ((λ c, if decide (k = c) then 1%Z else 0%Z) <$> range n)
  = if decide (k < n) then 1%Z else 0%Z.
Proof.
  induction n as [|n IH]; [by case_decide; [lia|]|].
  rewrite range_S, fmap_app, Zsum_app, IH. simpl.
  repeat case_decide; lia.
Qed.

Lemma Zsum_indicator_offset n base k :
  Zsum ((λ r, if decide (base + r = k) then 1%Z else 0%Z) <$> range n)
  = if decide (base ≤ k < base + n)%nat then 1%Z else 0%Z.
Proof.
  induction n as [|n IH]; [by case_decide; [lia|]|].
  rewrite range_S, fmap_app, Zsum_app, IH. simpl.
  repeat case_decide; lia.
Qed.

Lemma Zsum_indicator_pairs nS nR k :
  Zsum ((λ s, Zsum ((λ r, if decide (s * nR + r = k) then 1%Z else 0%Z)
                      <$> range nR)) <$> range nS)
  = if decide (k < nS * nR) then 1%Z else 0%Z.
Proof.
  induction nS as [|nS IH]; [by case_decide; [lia|]|].
  rewrite range_S, fmap_app, Zsum_app, IH. simpl.
  rewrite Zsum_indicator_offset.
  repeat case_decide; lia.
Qed.

Lemma packed_at nS nR c s r :
  s < nS → r < nR →
  packed nS nR ((c * nS + s) * nR + r)
  = if decide (s * nR + r = c) then 1%Z else 0%Z.
Proof.
  intros Hs Hr. unfold packed.
  assert (s * nR + r < nS * nR) as Hlt by by apply mixed_radix_lt.
  assert ((c * nS + s) * nR + r = nS * nR * c + (s * nR + r)) as Heq by lia.
  rewrite <- (Nat.mod_unique _ _ _ _ Hlt Heq).
  rewrite <- (Nat.div_unique _ _ _ _ Hlt Heq).
  done.
Qed.

Lemma declared1_X D c s r :
  c < length (Timetable1.courses D) → s < length (Timetable1.slots D) →
  r < length (Timetable1.rooms D) →
  Shape3.X (Built1.declared D).1 c s r
  = (c * length (Timetable1.slots D) + s) * length (Timetable1.rooms D) + r.
Proof.
  intros Hc Hs Hr. unfold Shape3.X, Built1.declared.
  rewrite lookup_total_alt.
  destruct (alloc_fresh Built1.key_name
              (Shape3.keys (length (Timetable1.courses D))
                 (length (Timetable1.slots D)) (length (Timetable1.rooms D)))
              ((c * length (Timetable1.slots D) + s)
               * length (Timetable1.rooms D) + r) (c, s, r))
    as [-> _]; [apply keys3_NoDup|by apply keys3_lookup|done].
Qed.

Lemma packed_feasible D :
  (length (Timetable1.courses D)
   ≤ length (Timetable1.slots D) * length (Timetable1.rooms D))%nat →
  feasible (Timetable1.model (Built1.built D))
    (packed (length (Timetable1.slots D)) (length (Timetable1.rooms D)))
  = true.
Proof.
  set (nC := length (Timetable1.courses D)).
  set (nS := length (Timetable1.slots D)).
  set (nR := length (Timetable1.rooms D)).
  intros Hfit. apply feasible_intro.
  - intros i v Hv. simpl in Hv. unfold Built1.declared in Hv.
    rewrite alloc_variables in Hv. simpl in Hv.
    apply list_lookup_fmap_Some in Hv as (k & -> & _). simpl.
    unfold packed. case_decide; lia.
  - intros ct Hin. rewrite built1_constraints in Hin.
    apply elem_of_app in Hin as [Hin|Hin].
    + apply list_elem_of_bind in Hin
        as (c & ->%list_elem_of_singleton & Hc%elem_of_range).
      apply holds_EqC. rewrite eval_sum_vars. simpl.
      unfold Shape3.course_vars. rewrite total_bind.
      rewrite (Zsum_fmap_ext _
        (λ s, Zsum ((λ r, if decide (s * nR + r = c) then 1%Z else 0%Z)
                      <$> range nR))).
      * rewrite Zsum_indicator_pairs. case_decide; [done|]. fold nC in Hc. lia.
      * intros s Hs%elem_of_range.
        rewrite (total_singletons _ (range nR)
                   (λ r, Shape3.X (Built1.declared D).1 c s r)).
        apply Zsum_fmap_ext. intros r Hr%elem_of_range.
        rewrite declared1_X by done. by apply packed_at.
    + apply list_elem_of_bind in Hin
        as (s & (r & ->%list_elem_of_singleton & Hr%elem_of_range)%list_elem_of_bind
              & Hs%elem_of_range).
      apply holds_LeC. rewrite eval_sum_vars. simpl.
      unfold Shape3.room_vars.
      rewrite (total_singletons _ (range nC)
                 (λ c, Shape3.X (Built1.declared D).1 c s r)).
      rewrite (Zsum_fmap_ext _
        (λ c, if decide (s * nR + r = c) then 1%Z else 0%Z)).
      * rewrite Zsum_indicator_range. case_decide; lia.
      * intros c Hc%elem_of_range.
        rewrite declared1_X by done. by apply packed_at.
Qed.

(** X4.  The first script's model has a feasible assignment exactly when
    the courses are at most |slots| * |rooms|. *)
Theorem first_timetable_exists_iff_rooms_suffice (D : Timetable1.Data) :
  ∃ g, Timetable1.build D = Ok g ∧
    ((∃ a, feasible (Timetable1.model g) a = true)
     ↔ (length (Timetable1.courses D)
        ≤ length (Timetable1.slots D) * length (Timetable1.rooms D))%nat).
Proof.
  exists (Built1.built D). split; [apply build1_spec|]. split.
  - intros [a Ha]. eapply (rooms_suffice _ _ _ _ _ a Ha).
    + intros c Hc. rewrite built1_constraints. apply elem_of_app. left.
      apply elem_of_family. by apply elem_of_range.
    + intros s r Hs Hr. rewrite built1_constraints.
      apply elem_of_app. right.
      apply elem_of_family2; by apply elem_of_range.
  - intros Hfit. eexists. by apply packed_feasible.
Qed.

(** ** The week of the third script *)

Section week3.
Variable D : Timetable3.Data.
Let g := Built3.built D.

Lemma built3_frequency c :
  c < Timetable3.num_courses D →
  Shape4.frequency_ct (Timetable3.x g) (Timetable3.num_days D)
    (Timetable3.max_slots_per_day D) (Timetable3.num_rooms D)
    (Built3.freq D) c ∈ constraints (Timetable3.model g).
Proof.
  intros Hc. unfold g. rewrite built3_constraints. apply elem_of_app. left.
  apply (elem_of_family _ (Shape4.frequency_ct _ _ _ _ _)).
  by apply elem_of_range.
Qed.

Lemma built3_room_clash d s r :
  d < Timetable3.num_days D → s < Timetable3.max_slots_per_day D →
  r < Timetable3.num_rooms D →
  Shape4.room_clash_ct (Timetable3.x g) (Timetable3.num_courses D) d s r
    ∈ constraints (Timetable3.model g).
Proof.
  intros Hd Hs Hr. unfold g. rewrite built3_constraints.
  apply elem_of_app. right. apply elem_of_app. right. apply elem_of_app. left.
  apply elem_of_family3; by apply elem_of_range.
Qed.

Lemma built3_professor_clash p d s :
  p < length (Timetable3.professors D) →
  d < Timetable3.num_days D → s < Timetable3.max_slots_per_day D →
  Shape4.professor_clash_ct (Timetable3.x g) (Timetable3.num_courses D)
    (Timetable3.num_rooms D) (Built3.owner D) p d s
    ∈ constraints (Timetable3.model g).
Proof.
  intros Hp Hd Hs. unfold g. rewrite built3_constraints.
  apply elem_of_app. right. apply elem_of_app. right. apply elem_of_app. right.
  apply elem_of_app. left.
  apply (elem_of_family3 _ _ _ (Shape4.professor_clash_ct _ _ _ _));
    by apply elem_of_range.
Qed.

Lemma built3_link d s :
  d < Timetable3.num_days D → s < Timetable3.max_slots_per_day D →
  Shape4.link_ct (Timetable3.x g) (Timetable3.y g) (Timetable3.num_courses D)
    (Timetable3.num_rooms D) (Timetable3.bigM D) d s
    ∈ constraints (Timetable3.model g).
Proof.
  intros Hd Hs. unfold g. rewrite built3_constraints.
  apply elem_of_app. right. apply elem_of_app. right. apply elem_of_app. right.
  apply elem_of_app. right.
  apply (elem_of_family2 _ _ (Shape4.link_ct _ _ _ _ _));
    by apply elem_of_range.
Qed.
End week3.

(** X5.  A feasible assignment of the third script's model needs the week
    to hold all sessions: the frequencies add up to at most
    days * slots * rooms, and the frequencies of the courses of one
    professor add up to at most days * slots. *)
Theorem week_must_hold_all_sessions
    (D : Timetable3.Data) (g : Timetable3.globals) (a : nat → Z) :
  Built3.complete D →
  Timetable3.build D = Ok g →
  feasible (Timetable3.model g) a = true →
  (Zsum (Built3.freq D <$> range (Timetable3.num_courses D))
   ≤ Z.of_nat (Timetable3.num_days D * Timetable3.max_slots_per_day D
               * Timetable3.num_rooms D))%Z
  ∧ ∀ p, p < length (Timetable3.professors D) →
      (Zsum (Built3.freq D
             <$> filter (λ c, Built3.owner D c = Z.of_nat p)
                        (range (Timetable3.num_courses D)))
       ≤ Z.of_nat (Timetable3.num_days D * Timetable3.max_slots_per_day D))%Z.
Proof.
  intros Hc ->%build3_inv Ha; [|done]. split.
  - eapply (week_suffices _ _ _ _ _ _ a Ha).
    + intros c Hc'. by apply built3_frequency.
    + intros d s r Hd Hs Hr. by apply built3_room_clash.
  - intros p Hp. eapply (professor_week_suffices _ _ _ _ _ _ a Ha).
    + intros c Hc'. by apply built3_frequency.
    + intros d s Hd Hs. by apply built3_professor_clash.
Qed.

(** X5 at the script's own data. *)
Lemma week_must_hold_all_sessions_witness :
  ∃ g, Timetable3.build Timetable3.data = Ok g
    ∧ feasible (Timetable3.model g) one_slot_per_course = true
    ∧ (Zsum (Built3.freq Timetable3.data <$> range 6) ≤ Z.of_nat (5 * 6 * 3))%Z
    ∧ ∀ p, p < 2 →
        (Zsum (Built3.freq Timetable3.data
               <$> filter (λ c, Built3.owner Timetable3.data c = Z.of_nat p)
                          (range 6))
         ≤ Z.of_nat (5 * 6))%Z.
Proof.
  exists (Built3.built Timetable3.data).
  assert (Timetable3.build Timetable3.data = Ok (Built3.built Timetable3.data))
    as Hb by apply build3_spec, data3_complete.
  assert (feasible (Timetable3.model (Built3.built Timetable3.data))
            one_slot_per_course = true) as Hf by (vm_compute; reflexivity).
  split; [exact Hb|]. split; [exact Hf|].
  exact (week_must_hold_all_sessions Timetable3.data _ one_slot_per_course
           data3_complete Hb Hf).
Defined.

(** X6.  The objective of the third script is the number of (day, slot)
    pairs whose usage indicator is set.  Under a feasible assignment its
    value times the number of rooms is at least the number of sessions of
    the week, and it is at most days * slots. *)
Theorem objective_counts_used_slots
    (D : Timetable3.Data) (g : Timetable3.globals) (a : nat → Z) :
  Built3.complete D →
  Timetable3.build D = Ok g →
  feasible (Timetable3.model g) a = true →
  ∃ e, objective (Timetable3.model g) = Some e
    ∧ eval a e
      = Z.of_nat (count_true a (Shape4.used_vars (Timetable3.y g)
                    (Timetable3.num_days D) (Timetable3.max_slots_per_day D)))
    ∧ (Zsum (Built3.freq D <$> range (Timetable3.num_courses D))
       ≤ Z.of_nat (Timetable3.num_rooms D) * eval a e)%Z
    ∧ (eval a e
       ≤ Z.of_nat (Timetable3.num_days D * Timetable3.max_slots_per_day D))%Z.
Proof.
  intros Hc ->%build3_inv Ha; [|done].
  assert (∀ d s, d < Timetable3.num_days D →
                 s < Timetable3.max_slots_per_day D →
                 is_bit (a (Shape4.Y (Timetable3.y (Built3.built D)) d s)))
    as Hbit.
  { intros d s Hd Hs.
    eapply Y4_bit; eauto using built3_y_bool, built3_y_covers. }
  assert (∀ v, v ∈ Shape4.used_vars (Timetable3.y (Built3.built D))
                     (Timetable3.num_days D) (Timetable3.max_slots_per_day D) →
               is_bit (a v)) as Hbits.
  { intros v (d & (s & ->%list_elem_of_singleton & Hs%elem_of_range)%list_elem_of_bind
               & Hd%elem_of_range)%list_elem_of_bind.
    by apply Hbit. }
  eexists. split; [reflexivity|].
  rewrite eval_sum_vars. split; [by apply total_count|]. split.
  - eapply (used_slots_suffice _ _ _ _ _ _ _ a Ha).
    + intros c Hc'. by apply built3_frequency.
    + exact Hbit.
    + intros d s r Hd Hs Hr. by apply built3_room_clash.
    + intros d s Hd Hs. by apply built3_link.
  - rewrite total_count by done. apply inj_le.
    unfold count_true. etrans; [apply length_filter|].
    unfold Shape4.used_vars.
    rewrite (bind_range_length _ _ (Timetable3.max_slots_per_day D)); [done|].
    intros d _. rewrite (bind_range_length _ _ 1); [lia|done].
Qed.

(** X6 at the script's own data. *)
Lemma objective_counts_used_slots_witness :
  ∃ g e, Timetable3.build Timetable3.data = Ok g
    ∧ feasible (Timetable3.model g) one_slot_per_course = true
    ∧ objective (Timetable3.model g) = Some e
    ∧ eval one_slot_per_course e
      = Z.of_nat (count_true one_slot_per_course
                    (Shape4.used_vars (Timetable3.y g) 5 6))
    ∧ (Zsum (Built3.freq Timetable3.data <$> range 6)
       ≤ Z.of_nat 3 * eval one_slot_per_course e)%Z
    ∧ (eval one_slot_per_course e ≤ Z.of_nat (5 * 6))%Z.
Proof.
  exists (Built3.built Timetable3.data).
  assert (Timetable3.build Timetable3.data = Ok (Built3.built Timetable3.data))
    as Hb by apply build3_spec, data3_complete.
  assert (feasible (Timetable3.model (Built3.built Timetable3.data))
            one_slot_per_course = true) as Hf by (vm_compute; reflexivity).
  destruct (objective_counts_used_slots Timetable3.data _ one_slot_per_course
              data3_complete Hb Hf) as (e & He).
  exists e. split; [exact Hb|]. split; [exact Hf|]. exact He.
Defined.

(** ** Size of the models *)

Lemma family_length {B} (F : nat → B) n : length (range n ≫= λ i, [F i]) = n.
Proof. rewrite (bind_range_length _ n 1); [lia|done]. Qed.

Lemma family2_length {B} (F : nat → nat → B) n k :
  length (range n ≫= λ i, range k ≫= λ j, [F i j]) = n * k.
Proof.
  rewrite (bind_range_length _ n k); [done|]. intros i _.
  apply family_length.
Qed.

Lemma family3_length {B} (F : nat → nat → nat → B) n k h :
  length (range n ≫= λ i, range k ≫= λ j, range h ≫= λ l, [F i j l])
  = n * (k * h).
Proof.
  rewrite (bind_range_length _ n (k * h)); [done|]. intros i _.
  apply family2_length.
Qed.

(** X7.  Size of the models: one constraint per course and one per
    (slot, room) in the first script, one more per (teacher, slot) in the
    second, and in the third one per course, per (course, day), per
    (day, slot, room), per (professor, day, slot) and per (day, slot).
    Only the third script sets an objective. *)
Theorem constraint_counts :
  (∀ D, ∃ g, Timetable1.build D = Ok g ∧
     length (constraints (Timetable1.model g))
     = length (Timetable1.courses D)
       + length (Timetable1.slots D) * length (Timetable1.rooms D) ∧
     objective (Timetable1.model g) = None)
  ∧ (∀ D rng, 0 < length (Timetable2.teachers D) →
       ∃ g, Timetable2.setup D rng = Ok g ∧
         length (constraints (Timetable2.model g))
         = length (Timetable2.courses D)
           + length (Timetable2.slots D) * length (Timetable2.rooms D)
           + length (Timetable2.teachers D) * length (Timetable2.slots D) ∧
         objective (Timetable2.model g) = None)
  ∧ (∀ D, Built3.complete D →
       ∃ g, Timetable3.build D = Ok g ∧
         length (constraints (Timetable3.model g))
         = Timetable3.num_courses D
           + Timetable3.num_courses D * Timetable3.num_days D
           + Timetable3.num_days D * Timetable3.max_slots_per_day D
             * Timetable3.num_rooms D
           + length (Timetable3.professors D) * Timetable3.num_days D
             * Timetable3.max_slots_per_day D
           + Timetable3.num_days D * Timetable3.max_slots_per_day D ∧
         is_Some (objective (Timetable3.model g))).
Proof.
  split; [|split].
  - intros D. exists (Built1.built D). split; [apply build1_spec|]. split.
    + rewrite built1_constraints. unfold Built1.families.
      rewrite length_app.
      unfold Shape3.exactly_once_family, Shape3.room_clash_family.
      by rewrite family_length, family2_length.
    + simpl. unfold Built1.declared. by rewrite alloc_objective.
  - intros D rng HT. eexists. split; [by apply setup2_spec|]. split.
    + rewrite built2_constraints. unfold Built2.families.
      rewrite !length_app.
      unfold Shape3.exactly_once_family, Shape3.room_clash_family,
        Shape3.teacher_clash_family.
      rewrite family_length, !family2_length. lia.
    + simpl. unfold Built2.declared. by rewrite alloc_objective.
  - intros D Hc. exists (Built3.built D). split; [by apply build3_spec|]. split.
    + rewrite built3_constraints. unfold Built3.families.
      rewrite !length_app.
      unfold Shape4.frequency_family, Shape4.once_per_day_family,
        Shape4.room_clash_family, Shape4.professor_clash_family,
        Shape4.link_family.
      rewrite family_length, !family2_length, !family3_length. lia.
    + simpl. eauto.
Qed.

(** ** Exceptions raised while the model is built *)





Section errors3.
Import Timetable3.
Variable D : Data.
Let nC := num_courses D.
Let nD := num_days D.
Let nS := max_slots_per_day D.
Let nR := num_rooms D.
Let xd := (Built3.declared_x D).1.
Let yd := (Built3.declared_y D).1.






End errors3.


(** X9.  Without teachers the second script ends in [ValueError] at the
    first draw [random.randint(0, -1)], before any variable is declared,
    as soon as there is one course. *)
Theorem no_teachers_raises_ValueError
    (D : Timetable2.Data) (rng : nat → nat)
    (solver : CpModel → CpSolverResponse) (w : world) :
  length (Timetable2.teachers D) = 0 →
  0 < length (Timetable2.courses D) →
  Timetable2.main D rng solver w = Raise ValueError.
Proof.
  intros HT HC. unfold Timetable2.main, Timetable2.setup.
  by rewrite assign_teachers_empty.
Qed.

(** X9 at the script's data without teachers. *)
Lemma no_teachers_raises_ValueError_witness :
  Timetable2.main no_teachers (λ k, k) (answers OPTIMAL (λ _, 0%Z)) boot
  = Raise ValueError.
Proof.
  apply (no_teachers_raises_ValueError no_teachers (λ k, k)
           (answers OPTIMAL (λ _, 0%Z)) boot).
  - reflexivity.
  - vm_compute. lia.
Defined.


(** ** What is printed under a feasible solution *)

Lemma bind_bind {A B C} (l : list A) (f : A → list B) (g : B → list C) :
  (l ≫= f) ≫= g = l ≫= λ x, f x ≫= g.
Proof.
  induction l as [|x l IH]; [done|].
  change ((x :: l) ≫= f) with (f x ++ (l ≫= f)).
  rewrite bind_app, IH. done.
Qed.

Lemma bind_ext {A B} (l : list A) (f g : A → list B) :
  (∀ x, f x = g x) → l ≫= f = l ≫= g.
Proof.
  intros Hfg. induction l as [|x l IH]; [done|].
  change ((x :: l) ≫= ?h) with (h x ++ (l ≫= h)). by rewrite Hfg, IH.
Qed.

Lemma bind_singletons_fmap {A B} (l : list A) (f : A → B) :
  l ≫= (λ x, [f x]) = f <$> l.
Proof.
  induction l as [|x l IH]; [done|].
  change ((x :: l) ≫= ?h) with (h x ++ (l ≫= h)). by rewrite fmap_cons, IH.
Qed.

Lemma bind_singleton {A B} (x : A) (f : A → list B) : [x] ≫= f = f x.
Proof. change ([x] ≫= f) with (f x ++ []). apply app_nil_r. Qed.

Lemma ykeys_bind {B} nD nS (F : nat * nat → list B) :
  Shape4.ykeys nD nS ≫= F = range nD ≫= λ d, range nS ≫= λ s, F (d, s).
Proof.
  unfold Shape4.ykeys. rewrite bind_bind. apply bind_ext. intros d.
  rewrite bind_bind. apply bind_ext. intros s. apply bind_singleton.
Qed.

Lemma keys3_bind {B} nC nS nR (F : nat * nat * nat → list B) :
  Shape3.keys nC nS nR ≫= F
  = range nC ≫= λ c, Shape4.ykeys nS nR ≫= λ p, F (c, p.1, p.2).
Proof.
  unfold Shape3.keys. rewrite bind_bind. apply bind_ext. intros c.
  rewrite ykeys_bind, bind_bind. apply bind_ext. intros s.
  rewrite bind_bind. apply bind_ext. intros r. apply bind_singleton.
Qed.

(** The lines printed for the keys whose value is 1 are as many as the
    values add up to. *)
Lemma flagged_length {K B} (ks : list K) (val : K → Z) (txt : K → B) :
  (∀ k, k ∈ ks → is_bit (val k)) →
  Z.of_nat (length (ks ≫= λ k, if (val k =? 1)%Z then [txt k] else []))
  = Zsum (val <$> ks).
Proof.
  induction ks as [|k ks IH]; intros Hb; [done|].
  change ((k :: ks) ≫= ?f) with (f k ++ (ks ≫= f)).
  rewrite length_app, fmap_cons, Nat2Z.inj_add. simpl Zsum.
  rewrite IH by (intros; apply Hb; by right).
  destruct (Hb k) as [->| ->]; [by left|done..].
Qed.

(** With exactly one value at 1, exactly that key is printed. *)
Lemma flagged_one {K B} (ks : list K) (val : K → Z) (txt : K → B) :
  (∀ k, k ∈ ks → is_bit (val k)) →
  Zsum (val <$> ks) = 1%Z →
  ∃ k, k ∈ ks ∧ val k = 1%Z
       ∧ (ks ≫= λ k, if (val k =? 1)%Z then [txt k] else []) = [txt k].
Proof.
  induction ks as [|k ks IH]; intros Hb Hsum; [done|].
  rewrite fmap_cons in Hsum. simpl in Hsum.
  change ((k :: ks) ≫= ?f) with (f k ++ (ks ≫= f)).
  assert (∀ k', k' ∈ ks → is_bit (val k')) as Hb'
    by (intros; apply Hb; by right).
  destruct (Hb k) as [Hk|Hk]; [by left|..]; rewrite Hk in *.
  - destruct IH as (k' & Hin & Hv & Hl); [done|lia|].
    exists k'. split; [by right|]. split; [done|]. simpl. done.
  - exists k. split; [by left|]. split; [done|]. simpl. f_equal.
    apply length_zero_iff_nil, Nat2Z.inj.
    rewrite (flagged_length ks val txt Hb'). lia.
Qed.

Lemma total_pairs a nS nR (Xc : nat → nat → nat) :
  total a (range nS ≫= λ s, range nR ≫= λ r, [Xc s r])
  = Zsum ((λ p, a (Xc p.1 p.2)) <$> Shape4.ykeys nS nR).
Proof.
  rewrite <- (total_singletons a (Shape4.ykeys nS nR) (λ p, Xc p.1 p.2)).
  by rewrite (ykeys_bind nS nR (λ p, [Xc p.1 p.2])).
Qed.

Section lines3.
Variable x : gmap (nat * nat * nat) nat.
Variables nC nS nR : nat.
Variable m : CpModel.
Variable a : nat → Z.
Variable line : nat * nat * nat → string.
Hypothesis x_covers :
  ∀ c s r, c < nC → s < nS → r < nR → is_Some (x !! (c, s, r)).
Hypothesis x_bool : all_bool x m.
Hypothesis a_feasible : feasible m a = true.
Hypothesis once :
  ∀ c, c < nC → Shape3.exactly_once_ct x nS nR c ∈ constraints m.

Let lines : list string :=
  Shape3.keys nC nS nR ≫= λ k, if (a (x !!! k) =? 1)%Z then [line k] else [].

Lemma course_line c :
  c < nC →
  ∃ s r, s < nS ∧ r < nR ∧ a (x !!! (c, s, r)) = 1%Z
    ∧ (Shape4.ykeys nS nR
       ≫= λ p, if (a (x !!! (c, p.1, p.2)) =? 1)%Z
               then [line (c, p.1, p.2)] else [])
      = [line (c, s, r)].
Proof.
  intros Hc.
  destruct (flagged_one (Shape4.ykeys nS nR)
              (λ p, a (x !!! (c, p.1, p.2))) (λ p, line (c, p.1, p.2)))
    as ([s r] & Hin%elem_of_ykeys & Hv & Hl).
  - intros [s r] [Hs Hr]%elem_of_ykeys.
    by apply (X3_bit x nC nS nR m a).
  - rewrite <- (total_pairs a nS nR (λ s r, x !!! (c, s, r))).
    pose proof (once c Hc) as Hin.
    apply (feasible_holds _ _ _ a_feasible), holds_EqC in Hin.
    by rewrite eval_sum_vars in Hin.
  - destruct Hin as [Hs Hr]. by exists s, r.
Qed.

Lemma lines_length : length lines = nC.
Proof.
  unfold lines. rewrite keys3_bind.
  rewrite (bind_range_length _ nC 1); [lia|].
  intros c Hc. destruct (course_line c Hc) as (s & r & _ & _ & _ & ->). done.
Qed.

Lemma lines_lookup c :
  c < nC →
  ∃ s r, s < nS ∧ r < nR ∧ a (x !!! (c, s, r)) = 1%Z
    ∧ lines !! c = Some (line (c, s, r)).
Proof.
  intros Hc. destruct (course_line c Hc) as (s & r & Hs & Hr & Hv & Hl).
  exists s, r. split; [done|]. split; [done|]. split; [done|].
  unfold lines. rewrite keys3_bind.
  replace c with (c * 1 + 0) at 1 by lia.
  rewrite (bind_range_lookup _ nC 1); [by rewrite Hl|..|done|lia].
  intros c' Hc'.
  destruct (course_line c' Hc') as (s' & r' & _ & _ & _ & ->). done.
Qed.
End lines3.

(** X10.  When the solver reports a solution and the solution is
    feasible, the first script prints the header and then exactly one
    line per course, in the order of the courses: line [1 + c] is the
    placement of course c in the one (slot, room) the solver gave it. *)
Theorem first_script_prints_each_course_once
    (D : Timetable1.Data) (solver : CpModel → CpSolverResponse)
    (g : Timetable1.globals) :
  Timetable1.build D = Ok g →
  solved (status (solver (Timetable1.model g))) →
  feasible (Timetable1.model g) (solution (solver (Timetable1.model g)))
  = true →
  ∃ w, Timetable1.main D solver boot = Ok w
    ∧ stdout w !! 0 = Some "Timetable:"
    ∧ length (stdout w) = 1 + length (Timetable1.courses D)
    ∧ ∀ c, c < length (Timetable1.courses D) →
        ∃ s r, s < length (Timetable1.slots D)
          ∧ r < length (Timetable1.rooms D)
          ∧ solution (solver (Timetable1.model g))
              (Timetable1.x g !!! (c, s, r)) = 1%Z
          ∧ stdout w !! (1 + c) = Some (Out1.line D (c, s, r)).
Proof.
  intros ->%build1_inv Hs Ha. eexists. split; [by apply main1_solved|].
  simpl. split; [done|].
  assert (∀ c, c < length (Timetable1.courses D) →
            Shape3.exactly_once_ct (Built1.declared D).1
              (length (Timetable1.slots D)) (length (Timetable1.rooms D)) c
            ∈ constraints (Timetable1.model (Built1.built D))) as Honce.
  { intros c Hc. rewrite built1_constraints. apply elem_of_app. left.
    apply elem_of_family. by apply elem_of_range. }
  assert (∀ c s r, c < length (Timetable1.courses D) →
            s < length (Timetable1.slots D) → r < length (Timetable1.rooms D) →
            is_Some ((Built1.declared D).1 !! (c, s, r))) as Hcov.
  { intros. by apply declared1_covers. }
  split.
  - f_equal. unfold Out1.placements.
    exact (lines_length _ _ _ _ _ _ (Out1.line D) Hcov (built1_bool D) Ha Honce).
  - intros c Hc. unfold Out1.placements.
    exact (lines_lookup _ _ _ _ _ _ (Out1.line D) Hcov (built1_bool D) Ha Honce
             c Hc).
Qed.

(** X10 at the script's own data. *)
Lemma first_script_prints_each_course_once_witness :
  ∃ g, Timetable1.build Timetable1.data = Ok g
    ∧ feasible (Timetable1.model g)
        (solution (answers OPTIMAL both_in_the_morning (Timetable1.model g)))
      = true
    ∧ ∃ w, Timetable1.main Timetable1.data
             (answers OPTIMAL both_in_the_morning) boot = Ok w
      ∧ stdout w !! 0 = Some "Timetable:"
      ∧ length (stdout w) = 1 + length (Timetable1.courses Timetable1.data)
      ∧ ∀ c, c < length (Timetable1.courses Timetable1.data) →
          ∃ s r, s < length (Timetable1.slots Timetable1.data)
            ∧ r < length (Timetable1.rooms Timetable1.data)
            ∧ solution (answers OPTIMAL both_in_the_morning (Timetable1.model g))
                (Timetable1.x g !!! (c, s, r)) = 1%Z
            ∧ stdout w !! (1 + c)
              = Some (Out1.line Timetable1.data (c, s, r)).
Proof.
  exists (Built1.built Timetable1.data).
  assert (Timetable1.build Timetable1.data = Ok (Built1.built Timetable1.data))
    as Hb by apply build1_spec.
  assert (feasible (Timetable1.model (Built1.built Timetable1.data))
            (solution (answers OPTIMAL both_in_the_morning
               (Timetable1.model (Built1.built Timetable1.data)))) = true)
    as Hf by (vm_compute; reflexivity).
  split; [exact Hb|]. split; [exact Hf|].
  exact (first_script_prints_each_course_once Timetable1.data
           (answers OPTIMAL both_in_the_morning) _ Hb (or_introl eq_refl) Hf).
Defined.

(** X11.  When the solver reports a solution and the solution is
    feasible, the second script prints the header and then exactly one
    line per course, in the order of the courses: line [1 + c] names
    course c, its drawn teacher, and the one (slot, room) the solver gave
    it. *)
Theorem second_script_prints_each_course_once
    (D : Timetable2.Data) (rng : nat → nat)
    (solver : CpModel → CpSolverResponse) (g : Timetable2.globals) :
  0 < length (Timetable2.teachers D) →
  Timetable2.setup D rng = Ok g →
  solved (status (solver (Timetable2.model g))) →
  feasible (Timetable2.model g) (solution (solver (Timetable2.model g)))
  = true →
  ∃ w, Timetable2.main D rng solver boot = Ok w
    ∧ stdout w !! 0 = Some ("Generated Timetable:" +:+ nl)
    ∧ length (stdout w) = 1 + length (Timetable2.courses D)
    ∧ ∀ c, c < length (Timetable2.courses D) →
        ∃ s r, s < length (Timetable2.slots D)
          ∧ r < length (Timetable2.rooms D)
          ∧ solution (solver (Timetable2.model g))
              (Timetable2.x g !!! (c, s, r)) = 1%Z
          ∧ stdout w !! (1 + c) = Some (Out2.line D g (c, s, r)).
Proof.
  intros HT ->%setup2_inv Hs Ha.
  set (ct := Built2.drawn D rng (length (Timetable2.courses D))) in *.
  eexists. split; [by apply main2_solved|].
  simpl. split; [done|].
  assert (∀ c, c < length (Timetable2.courses D) →
            Shape3.exactly_once_ct (Built2.declared D).1
              (length (Timetable2.slots D)) (length (Timetable2.rooms D)) c
            ∈ constraints (Timetable2.model (Built2.built D ct))) as Honce.
  { intros c Hc. rewrite built2_constraints. apply elem_of_app. left.
    apply elem_of_family. by apply elem_of_range. }
  assert (∀ c s r, c < length (Timetable2.courses D) →
            s < length (Timetable2.slots D) → r < length (Timetable2.rooms D) →
            is_Some ((Built2.declared D).1 !! (c, s, r))) as Hcov.
  { intros. by apply declared2_covers. }
  split.
  - f_equal. unfold Out2.placements.
    exact (lines_length _ _ _ _ _ _ (Out2.line D (Built2.built D ct))
             Hcov (built2_bool D ct) Ha Honce).
  - intros c Hc. unfold Out2.placements.
    exact (lines_lookup _ _ _ _ _ _ (Out2.line D (Built2.built D ct))
             Hcov (built2_bool D ct) Ha Honce c Hc).
Qed.

(** X11 at the script's own data. *)
Lemma second_script_prints_each_course_once_witness :
  ∃ g, Timetable2.setup Timetable2.data (λ k, k) = Ok g
    ∧ feasible (Timetable2.model g)
        (solution (answers FEASIBLE five_per_slot (Timetable2.model g))) = true
    ∧ ∃ w, Timetable2.main Timetable2.data (λ k, k)
             (answers FEASIBLE five_per_slot) boot = Ok w
      ∧ stdout w !! 0 = Some ("Generated Timetable:" +:+ nl)
      ∧ length (stdout w) = 1 + length (Timetable2.courses Timetable2.data)
      ∧ ∀ c, c < length (Timetable2.courses Timetable2.data) →
          ∃ s r, s < length (Timetable2.slots Timetable2.data)
            ∧ r < length (Timetable2.rooms Timetable2.data)
            ∧ solution (answers FEASIBLE five_per_slot (Timetable2.model g))
                (Timetable2.x g !!! (c, s, r)) = 1%Z
            ∧ stdout w !! (1 + c)
              = Some (Out2.line Timetable2.data g (c, s, r)).
Proof.
  exists (Built2.built Timetable2.data (Built2.drawn Timetable2.data (λ k, k) 20)).
  assert (0 < length (Timetable2.teachers Timetable2.data)) as HT
    by (vm_compute; lia).
  assert (Timetable2.setup Timetable2.data (λ k, k)
          = Ok (Built2.built Timetable2.data
                  (Built2.drawn Timetable2.data (λ k, k) 20))) as Hs
    by apply (setup2_spec Timetable2.data _ HT).
  assert (feasible (Timetable2.model (Built2.built Timetable2.data
            (Built2.drawn Timetable2.data (λ k, k) 20)))
            (solution (answers FEASIBLE five_per_slot
               (Timetable2.model (Built2.built Timetable2.data
                 (Built2.drawn Timetable2.data (λ k, k) 20))))) = true)
    as Hf by (vm_compute; reflexivity).
  split; [exact Hs|]. split; [exact Hf|].
  exact (second_script_prints_each_course_once Timetable2.data (λ k, k)
           (answers FEASIBLE five_per_slot) _ HT Hs (or_intror eq_refl) Hf).
Defined.

(** ** The weekly grid *)

Section grid3.
Import Timetable3.
Variable D : Data.
Variable resp : CpSolverResponse.
Hypothesis D_staffed : Out3.staffed D.
Let g := Built3.built D.
Let nC := num_courses D.
Let nD := num_days D.
Let nS := max_slots_per_day D.
Let nR := num_rooms D.

Lemma staffed_text c :
  c < nC →
  getitem (course_prof D) c = Ok (course_prof D !!! c)
  ∧ index_int (professors D) (course_prof D !!! c)
    = Ok (text_at_int (professors D) (course_prof D !!! c)).
Proof.
  intros Hc. destruct (D_staffed c Hc) as (p & name & Hp & Hn).
  rewrite (getitem_Some _ _ _ Hp), lookup_total_alt, Hp. simpl.
  split; [done|]. unfold text_at_int. by rewrite Hn.
Qed.

Lemma grid_probe3_spec d s r c row found w :
  c < nC → d < nD → s < nS → r < nR →
  grid_probe D g resp d s r c (row, found, w)
  = Ok (if Grid3.hit g resp d s r c
        then (true, (row ++ [Grid3.cell_text D r c], true,
                     emit [] [x g !!! (c, d, s, r)] w))
        else (false, (row, found, emit [] [x g !!! (c, d, s, r)] w))).
Proof.
  intros Hc Hd Hs Hr. unfold grid_probe.
  rewrite (getitem_total (x g) (c, d, s, r))
    by (by apply built3_x_covers).
  destruct (staffed_text c Hc) as [Hp Hn].
  unfold Grid3.hit. simpl.
  destruct (solution resp ((Built3.declared_x D).1 !!! (c, d, s, r)) =? 1)%Z.
  - rewrite Hp. simpl. rewrite Hn. simpl.
    rewrite !index_text_at by done. simpl.
    unfold emit. simpl. by rewrite app_nil_r.
  - unfold emit. simpl. by rewrite app_nil_r.
Qed.

Lemma for_break_cons {A S} (a : A) (l : list A)
    (body : A → S → result (bool * S)) (s : S) :
  for_break (a :: l) body s
  = match body a s with
    | Ok (true, s') => Ok s'
    | Ok (false, s') => for_break l body s'
    | Raise e => Raise e
    end.
Proof. done. Qed.

Lemma probe_loop d s r cs row w :
  (∀ c, c ∈ cs → c < nC) → d < nD → s < nS → r < nR →
  for_break cs (grid_probe D g resp d s r) (row, false, w)
  = Ok (match List.find (Grid3.hit g resp d s r) cs with
        | Some c => (row ++ [Grid3.cell_text D r c], true)
        | None => (row, false)
        end,
        emit [] ((λ c, x g !!! (c, d, s, r))
                 <$> probed (Grid3.hit g resp d s r) cs) w).
Proof.
  intros Hcs Hd Hs Hr. revert w.
  induction cs as [|c cs IH]; intros w.
  - simpl. by rewrite emit_nil.
  - assert (c < nC) as Hc by (apply Hcs; by left).
    rewrite for_break_cons, grid_probe3_spec by done.
    simpl List.find. simpl probed.
    destruct (Grid3.hit g resp d s r c).
    + done.
    + rewrite IH by (intros; apply Hcs; by right).
      by rewrite fmap_cons, emit_emit.
Qed.

Lemma grid_cell3_spec d s r rw :
  d < nD → s < nS → r < nR →
  grid_cell D g resp d s r rw
  = Ok (rw.1 ++ [Grid3.cell D g resp d s r],
        emit [] (Grid3.cell_reads D g resp d s r) rw.2).
Proof.
  intros Hd Hs Hr. unfold grid_cell.
  rewrite probe_loop by (try done; by intros c Hc%elem_of_range).
  simpl. unfold Grid3.cell, Grid3.holder, Grid3.cell_reads. fold nC.
  destruct (List.find _ _); simpl; [done|].
  by rewrite index_text_at by done.
Qed.

Lemma grid_row3_spec d s w :
  d < nD → s < nS →
  for_ (range (num_rooms D)) (grid_cell D g resp d s) ([], w)
  = Ok (Grid3.cell D g resp d s <$> range nR,
        emit [] (range nR ≫= Grid3.cell_reads D g resp d s) w).
Proof.
  intros Hd Hs.
  rewrite for__foldl with
    (f := λ (rw : list string * world) r,
            (rw.1 ++ [Grid3.cell D g resp d s r],
             emit [] (Grid3.cell_reads D g resp d s r) rw.2)).
  - rewrite foldl_collect with
      (L := λ r, [Grid3.cell D g resp d s r])
      (R := Grid3.cell_reads D g resp d s) by done.
    by rewrite bind_singletons_fmap.
  - intros r rw Hr%elem_of_range. by apply grid_cell3_spec.
Qed.

Lemma print_grid3_spec w :
  print_grid D g resp w
  = Ok (emit (Grid3.grid D g resp) (range nD ≫= Grid3.day_reads D g resp) w).
Proof.
  unfold print_grid.
  rewrite for__foldl with
    (f := λ w d, emit (Grid3.day_block D g resp d)
                      (Grid3.day_reads D g resp d) w).
  - by rewrite foldl_emit with
      (L := Grid3.day_block D g resp) (R := Grid3.day_reads D g resp).
  - intros d w1 Hd%elem_of_range.
    rewrite index_text_at by done. simpl.
    rewrite for__foldl with
      (f := λ w s, emit (Grid3.slot_lines D g resp d s)
                        (Grid3.slot_reads D g resp d s) w).
    + rewrite foldl_emit with
        (L := Grid3.slot_lines D g resp d) (R := Grid3.slot_reads D g resp d)
        by done.
      simpl. rewrite !print_emit, !emit_emit.
      unfold Grid3.day_block, Grid3.day_reads. simpl.
      by rewrite app_nil_r.
    + intros s w2 Hs%elem_of_range.
      match goal with
      | |- context [getitem ?m (d, s)] =>
          rewrite (getitem_total m (d, s)) by (by apply built3_y_covers)
      end.
      simpl.
      unfold Grid3.slot_lines, Grid3.slot_reads, Grid3.used. simpl.
      destruct (solution resp _ =? 0)%Z; simpl.
      * unfold emit. simpl. by rewrite app_nil_r.
      * rewrite grid_row3_spec by done. simpl.
        unfold Grid3.row. fold nR.
        unfold print, emit. simpl. by rewrite <- ?app_assoc.
Qed.
End grid3.

(** X12.  The whole output of the third script under OPTIMAL and
    FEASIBLE: the header; for every day its title, one row per slot whose
    usage indicator is not 0 (each row has one cell per room, naming the
    first course found in the room or a dash) and a blank line; then the
    summary of every course.  The solver is called once, and the values
    are read in the order of the loops, a cell's search stopping at the
    first course found. *)
Theorem third_script_output
    (D : Timetable3.Data) (solver : CpModel → CpSolverResponse)
    (g : Timetable3.globals) :
  Built3.complete D → Out3.staffed D →
  Timetable3.build D = Ok g →
  solved (status (solver (Timetable3.model g))) →
  Timetable3.main D solver boot
  = Ok {| stdout :=
            Out3.header
            :: Grid3.grid D g (solver (Timetable3.model g))
            ++ "Per-course schedule:"
            :: Out3.summary D g (solver (Timetable3.model g));
          solve_calls := [Timetable3.model g];
          value_reads := Grid3.reads D g (solver (Timetable3.model g)) |}.
Proof.
  intros Hc Hst Hb Hs.
  pose proof (build3_inv D g Hc Hb) as ->.
  unfold Timetable3.main. rewrite Hb. simpl.
  case_decide; [|done].
  unfold Timetable3.print_schedule.
  rewrite print_grid3_spec by done. simpl.
  rewrite print_summary3_spec, !print_emit, !emit_emit.
  unfold emit, boot, Out3.header, Grid3.reads. simpl. done.
Qed.

(** X12 at the script's own data. *)
Lemma third_script_output_witness :
  ∃ g, Timetable3.build Timetable3.data = Ok g
    ∧ Timetable3.main Timetable3.data (answers OPTIMAL one_slot_per_course) boot
      = Ok {| stdout :=
                Out3.header
                :: Grid3.grid Timetable3.data g
                     (answers OPTIMAL one_slot_per_course (Timetable3.model g))
                ++ "Per-course schedule:"
                :: Out3.summary Timetable3.data g
                     (answers OPTIMAL one_slot_per_course (Timetable3.model g));
              solve_calls := [Timetable3.model g];
              value_reads :=
                Grid3.reads Timetable3.data g
                  (answers OPTIMAL one_slot_per_course (Timetable3.model g)) |}.
Proof.
  exists (Built3.built Timetable3.data).
  assert (Timetable3.build Timetable3.data = Ok (Built3.built Timetable3.data))
    as Hb by apply build3_spec, data3_complete.
  split; [exact Hb|].
  exact (third_script_output Timetable3.data
           (answers OPTIMAL one_slot_per_course) _
           data3_complete data3_staffed Hb (or_introl eq_refl)).
Defined.

(** ** The grid under a feasible solution *)

Lemma Zsum_nonneg {A} (f : A → Z) (l : list A) :
  (∀ x, x ∈ l → (0 ≤ f x)%Z) → (0 ≤ Zsum (f <$> l))%Z.
Proof.
  induction l as [|x l IH]; intros Hf; [done|].
  rewrite fmap_cons. simpl.
  pose proof (Hf x ltac:(by left)).
  assert (0 ≤ Zsum (f <$> l))%Z by (apply IH; intros; apply Hf; by right).
  lia.
Qed.

Lemma Zsum_elem_le {A} (f : A → Z) (l : list A) x :
  (∀ x, x ∈ l → (0 ≤ f x)%Z) → x ∈ l → (f x ≤ Zsum (f <$> l))%Z.
Proof.
  induction l as [|x0 l IH]; intros Hf Hx; [by apply elem_of_nil in Hx|].
  rewrite fmap_cons. simpl.
  assert (0 ≤ Zsum (f <$> l))%Z
    by (apply Zsum_nonneg; intros; apply Hf; by right).
  pose proof (Hf x0 ltac:(by left)).
  apply elem_of_cons in Hx as [->|Hx]; [lia|].
  assert (f x ≤ Zsum (f <$> l))%Z
    by (apply IH; [intros; apply Hf; by right|done]).
  lia.
Qed.

Lemma Zsum_two_le {A} (f : A → Z) (l : list A) x x' :
  (∀ x, x ∈ l → (0 ≤ f x)%Z) → NoDup l → x ∈ l → x' ∈ l → x ≠ x' →
  (f x + f x' ≤ Zsum (f <$> l))%Z.
Proof.
  induction l as [|x0 l IH]; intros Hf Hnd Hx Hx' Hne;
    [by apply elem_of_nil in Hx|].
  rewrite fmap_cons. simpl.
  apply NoDup_cons in Hnd as [Hx0 Hnd].
  assert (∀ y, y ∈ l → (0 ≤ f y)%Z) as Hf' by (intros; apply Hf; by right).
  pose proof (Hf x0 ltac:(by left)).
  apply elem_of_cons in Hx as [->|Hx]; apply elem_of_cons in Hx' as [->|Hx'].
  - done.
  - pose proof (Zsum_elem_le f l x' Hf' Hx'). lia.
  - pose proof (Zsum_elem_le f l x Hf' Hx). lia.
  - pose proof (IH Hf' Hnd Hx Hx' Hne). lia.
Qed.

Lemma NoDup_range n : NoDup (range n).
Proof. apply NoDup_seq. Qed.

(** The search returns a course that is the only one accepted. *)
Lemma find_only (P : nat → bool) (l : list nat) c :
  c ∈ l → P c = true → (∀ c', c' ∈ l → P c' = true → c' = c) →
  List.find P l = Some c.
Proof.
  induction l as [|c0 l IH]; intros Hin Hc Honly.
  - by apply elem_of_nil in Hin.
  - simpl. destruct (P c0) eqn:E.
    + f_equal. apply Honly; [by left|done].
    + apply elem_of_cons in Hin as [->|Hin]; [congruence|].
      apply IH; [done..|]. intros c' Hc'. apply Honly. by right.
Qed.

Lemma keys3_bind3 {B} nC nS nR (F : nat * nat * nat → list B) :
  Shape3.keys nC nS nR ≫= F
  = range nC ≫= λ c, range nS ≫= λ s, range nR ≫= λ r, F (c, s, r).
Proof.
  rewrite keys3_bind. apply bind_ext. intros c.
  by rewrite (ykeys_bind nS nR (λ p, F (c, p.1, p.2))).
Qed.

(** X13.  Under a feasible solution the output of the third script hides
    nothing: every placement [x[(c,d,s,r)] = 1] lies in a slot whose row
    is printed, and the cell of room r in that row names course c; the
    summary of course c lists exactly [course_freq[c]] placements. *)
Theorem grid_and_summary_show_the_solution
    (D : Timetable3.Data) (g : Timetable3.globals) (resp : CpSolverResponse) :
  Built3.complete D →
  Timetable3.build D = Ok g →
  feasible (Timetable3.model g) (solution resp) = true →
  (∀ c d s r,
     c < Timetable3.num_courses D → d < Timetable3.num_days D →
     s < Timetable3.max_slots_per_day D → r < Timetable3.num_rooms D →
     solution resp (Timetable3.x g !!! (c, d, s, r)) = 1%Z →
     Grid3.used g resp d s = true ∧ Grid3.holder D g resp d s r = Some c)
  ∧ (∀ c, c < Timetable3.num_courses D →
       Z.of_nat (length (Out3.course_placements D g resp c))
       = Built3.freq D c).
Proof.
  intros Hc ->%build3_inv Ha; [|done].
  set (g := Built3.built D) in *. set (a := solution resp) in *.
  assert (∀ c d s r,
     c < Timetable3.num_courses D → d < Timetable3.num_days D →
     s < Timetable3.max_slots_per_day D → r < Timetable3.num_rooms D →
     is_bit (a (Timetable3.x g !!! (c, d, s, r)))) as Hbit.
  { intros c d s r Hc' Hd Hs Hr.
    apply (X4_bit (Timetable3.x g) (Timetable3.num_courses D)
             (Timetable3.num_days D) (Timetable3.max_slots_per_day D)
             (Timetable3.num_rooms D) (Timetable3.model g) a
             (built3_x_covers D) (built3_x_bool D) Ha c d s r Hc' Hd Hs Hr). }
  split.
  - intros c d s r Hc' Hd Hs Hr Hv. split.
    + unfold Grid3.used.
      assert (a (Shape4.Y (Timetable3.y g) d s) = 1%Z) as Hy.
      { apply (link_sound (Timetable3.x g) (Timetable3.y g)
                 (Timetable3.num_courses D) (Timetable3.num_days D)
                 (Timetable3.max_slots_per_day D) (Timetable3.num_rooms D)
                 (Timetable3.model g) a
                 (built3_x_covers D) (built3_y_covers D)
                 (built3_x_bool D) (built3_y_bool D) Ha
                 (Timetable3.bigM D) c d s r Hc' Hd Hs Hr);
          [by apply built3_link|done]. }
      unfold Shape4.Y in Hy. fold a. by rewrite Hy.
    + unfold Grid3.holder. apply find_only.
      * by apply elem_of_range.
      * unfold Grid3.hit. fold a. by rewrite Hv.
      * intros c' Hc''%elem_of_range Hhit.
        destruct (decide (c' = c)) as [|Hne]; [done|]. exfalso.
        unfold Grid3.hit in Hhit. fold a in Hhit.
        apply Z.eqb_eq in Hhit.
        pose proof (built3_room_clash D d s r Hd Hs Hr) as Hin.
        apply (feasible_holds _ _ _ Ha), holds_LeC in Hin.
        rewrite eval_sum_vars, room_total4 in Hin. simpl in Hin.
        set (V := λ c0, a (Timetable3.x g !!! (c0, d, s, r))).
        assert (V c + V c' ≤ Zsum (V <$> range (Timetable3.num_courses D)))%Z
          as Htwo.
        { apply Zsum_two_le; [|apply NoDup_range|by apply elem_of_range..|done].
          intros c0 Hc0%elem_of_range. unfold V.
          destruct (Hbit c0 d s r) as [Hz|Hz]; [done..| |]; rewrite Hz; lia. }
        assert (Zsum (V <$> range (Timetable3.num_courses D)) ≤ 1)%Z as Hle
          by exact Hin.
        assert (V c = 1%Z) as Hvc by exact Hv.
        assert (V c' = 1%Z) as Hvc' by exact Hhit.
        lia.
  - intros c Hc'. unfold Out3.course_placements.
    rewrite (flagged_length _
      (λ k, a (Timetable3.x g !!! (c, k.1.1, k.1.2, k.2)))).
    + rewrite <- (total_singletons a _
        (λ k, Timetable3.x g !!! (c, k.1.1, k.1.2, k.2))).
      rewrite (keys3_bind3 _ _ _
        (λ k, [Timetable3.x g !!! (c, k.1.1, k.1.2, k.2)])).
      pose proof (built3_frequency D c Hc') as Hin.
      apply (feasible_holds _ _ _ Ha), holds_EqC in Hin.
      rewrite eval_sum_vars in Hin. exact Hin.
    + intros [[d s] r] (Hd & Hs & Hr)%elem_of_keys3. by apply Hbit.
Qed.

(** X13 at the script's own data. *)
Lemma grid_and_summary_show_the_solution_witness :
  ∃ g, Timetable3.build Timetable3.data = Ok g
    ∧ feasible (Timetable3.model g)
        (solution (answers OPTIMAL one_slot_per_course (Timetable3.model g)))
      = true
    ∧ (∀ c d s r,
         c < Timetable3.num_courses Timetable3.data →
         d < Timetable3.num_days Timetable3.data →
         s < Timetable3.max_slots_per_day Timetable3.data →
         r < Timetable3.num_rooms Timetable3.data →
         solution (answers OPTIMAL one_slot_per_course (Timetable3.model g))
           (Timetable3.x g !!! (c, d, s, r)) = 1%Z →
         Grid3.used g
           (answers OPTIMAL one_slot_per_course (Timetable3.model g)) d s = true
         ∧ Grid3.holder Timetable3.data g
             (answers OPTIMAL one_slot_per_course (Timetable3.model g)) d s r
           = Some c)
    ∧ (∀ c, c < Timetable3.num_courses Timetable3.data →
         Z.of_nat (length (Out3.course_placements Timetable3.data g
           (answers OPTIMAL one_slot_per_course (Timetable3.model g)) c))
         = Built3.freq Timetable3.data c).
Proof.
  exists (Built3.built Timetable3.data).
  assert (Timetable3.build Timetable3.data = Ok (Built3.built Timetable3.data))
    as Hb by apply build3_spec, data3_complete.
  assert (feasible (Timetable3.model (Built3.built Timetable3.data))
            (solution (answers OPTIMAL one_slot_per_course
               (Timetable3.model (Built3.built Timetable3.data)))) = true)
    as Hf by (vm_compute; reflexivity).
  split; [exact Hb|]. split; [exact Hf|].
  exact (grid_and_summary_show_the_solution Timetable3.data _
           (answers OPTIMAL one_slot_per_course
              (Timetable3.model (Built3.built Timetable3.data)))
           data3_complete Hb Hf).
Defined.
